(** * chat-app: the connection manager, its use cases and its storage

    A shallow embedding of the room-based chat server:
    - [shared/constants.ts], [shared/types.ts]: constants, entities, frames;
    - [domain/entities.ts]: the entity factories and the preview formatter;
    - [infrastructure/repositories.ts]: the repository ports and the SQLite
      adapter; [infrastructure/events.ts]: the typed event emitter;
    - [application/useCases.ts]: the use cases, written against the ports;
    - [server/connectionManager.ts]: the registry of connections, the
      broadcast router, the rate limiter and the typing timers.

    Asynchronous functions become computations in a state-and-exception
    monad: a rejected promise is a [Throw], and state written before the
    rejection stays written.  Every [await] of the repository resolves in a
    microtask (the SQLite driver is synchronous), so a handler runs to its
    end before the next frame or timer is taken from the task queue: one
    handler is one atomic step of the world.

    Strings stand for JavaScript strings, one character per code unit. *)

From stdpp Require Import gmap strings list sorting.
From Stdlib Require Import ZArith Lia.


(* ===================================================================== *)
(** ** shared/constants.ts *)

Module CONSTANTS.
Definition MAX_MESSAGE_LENGTH : Z := 2000.
Definition MAX_USERNAME_LENGTH : Z := 30.
Definition MIN_USERNAME_LENGTH : Z := 2.
Definition TYPING_TIMEOUT_MS : Z := 3000.
Definition RATE_LIMIT_MESSAGES_PER_MINUTE : Z := 30.
Definition DEFAULT_ROOM_ID : string := "general".
End CONSTANTS.

(* ===================================================================== *)
(** ** JavaScript values *)

(** [if (x)] on a [string | null]: null and the empty string are falsy. *)
Definition truthy (x : option string) : bool :=
  match x with
  | Some s => negb (String.eqb s "")
  | None => false
  end.

(** A [Set<string>]: iteration follows insertion order, no duplicates. *)
Abbreviation JsSet := (list string).

Definition set_has (x : string) (s : JsSet) : bool := bool_decide (x ∈ s).

Definition set_add (x : string) (s : JsSet) : JsSet :=
  if set_has x s then s else s ++ [x].

Definition set_delete (x : string) (s : JsSet) : JsSet :=
  filter (λ y, y ≠ x) s.

(* ===================================================================== *)
(** ** shared/types.ts *)

Inductive UserStatus := online | away | offline.

Definition UserStatus_eqb (a b : UserStatus) : bool :=
  match a, b with
  | online, online | away, away | offline, offline => true
  | _, _ => false
  end.

Module User.
Record t := mk {
    id : string;
    username : string;
    avatar : string;
    status : UserStatus;
    joinedAt : Z;
  }.
End User.

Module Message.
Record t := mk {
    id : string;
    roomId : string;
    authorId : string;
    content : string;
    createdAt : Z;
    editedAt : option Z;
    replyTo : option string;
  }.
End Message.

Module Room.
Record t := mk {
    id : string;
    name : string;
    description : string;
    createdAt : Z;
    participants : JsSet;
  }.
End Room.

Module ReplyInfo.
Record t := mk {
    id : string;
    authorUsername : string;
    contentPreview : string;
  }.
End ReplyInfo.

Module Author.
Record t := mk { id : string; username : string; avatar : string }.
End Author.

Module MessageDTO.
Record t := mk {
    id : string;
    roomId : string;
    author : Author.t;
    content : string;
    createdAt : Z;
    editedAt : option Z;
    replyTo : option ReplyInfo.t;
  }.
End MessageDTO.

Module RoomInfo.
Record t := mk {
    id : string;
    name : string;
    description : string;
    participantCount : nat;
  }.
End RoomInfo.

(** Client -> server events, as the schema validator hands them over. *)
Inductive ClientEvent :=
  | JOIN_ROOM (roomId username : string)
  | LEAVE_ROOM (roomId : string)
  | SEND_MESSAGE (roomId content : string) (replyTo : option string)
  | EDIT_MESSAGE (messageId content : string)
  | DELETE_MESSAGE (messageId : string)
  | TYPING_START (roomId : string)
  | TYPING_STOP (roomId : string)
  | UPDATE_STATUS (status : UserStatus).

(** Server -> client events.  The [code] of an ERROR frame is the string
    the handler passes: the casts [as ErrorCode] check nothing at run time.
    The [userId] of USER_LEFT is [state.userId as string], which
    [removeConnection] does not test before the cast. *)
Inductive ServerEvent :=
  | CONNECTED (user : User.t) (rooms : list RoomInfo.t)
  | USER_JOINED (user : User.t) (roomId : string)
  | USER_LEFT (userId : option string) (roomId : string)
  | MESSAGE_RECEIVED (message : MessageDTO.t)
  | MESSAGE_EDITED (messageId content : string) (editedAt : option Z)
  | MESSAGE_DELETED (messageId : string)
  | USER_TYPING (userId username roomId : string)
  | USER_STOPPED_TYPING (userId roomId : string)
  | USER_STATUS_CHANGED (userId : string) (status : UserStatus)
  | ROOM_HISTORY (roomId : string) (messages : list MessageDTO.t)
                 (users : list User.t)
  | ERROR (code message : string).

(* ===================================================================== *)
(** ** Promises: state and exceptions *)

Inductive Res (A : Type) :=
  | Ok (a : A)
  | Throw (e : string).
Arguments Ok {A} a.
Arguments Throw {A} e.

Definition M (S A : Type) : Type := S → Res A * S.

Definition ret {S A} (a : A) : M S A := λ s, (Ok a, s).

Definition throw {S A} (e : string) : M S A := λ s, (Throw e, s).

Definition bind {S A B} (m : M S A) (k : A → M S B) : M S B :=
  λ s, match m s with
       | (Ok a, s') => k a s'
       | (Throw e, s') => (Throw e, s')
       end.

Definition gets {S A} (f : S → A) : M S A := λ s, (Ok (f s), s).

Definition modify {S} (f : S → S) : M S unit := λ s, (Ok tt, f s).

(** [try { m } catch (error) { h error }] *)
Definition try_catch {S A} (m : M S A) (h : string → M S A) : M S A :=
  λ s, match m s with
       | (Ok a, s') => (Ok a, s')
       | (Throw e, s') => h e s'
       end.

Declare Scope promise_scope.
Delimit Scope promise_scope with promise.
Notation "x <- m ;; k" := (bind m (λ x, k))
  (at level 100, m at next level, right associativity) : promise_scope.
Notation "m ;;; k" := (bind m (λ _, k))
  (at level 100, right associativity) : promise_scope.
Open Scope promise_scope.

(** [for (const x of xs) await f(x)], collecting the results. *)
Fixpoint mapM {S A B} (f : A → M S B) (xs : list A) : M S (list B) :=
  match xs with
  | [] => ret []
  | x :: xs' => y <- f x ;; ys <- mapM f xs' ;; ret (y :: ys)
  end.

Fixpoint forM_ {S A} (xs : list A) (f : A → M S unit) : M S unit :=
  match xs with
  | [] => ret tt
  | x :: xs' => f x ;;; forM_ xs' f
  end.

Definition when {S} (b : bool) (m : M S unit) : M S unit :=
  if b then m else ret tt.

(* ===================================================================== *)
(** ** domain/entities.ts *)

(** The environment of one handler run: what [Date.now()] reads and what
    [nanoid] returns while the handler runs. *)
Record Env := mkEnv { now : Z; nanoid : string }.

Module UserFactory.
Definition AVATAR_COLORS : list string :=
    [ "#FF6B6B"; "#4ECDC4"; "#45B7D1"; "#96CEB4"; "#FFEAA7"; "#DDA0DD";
      "#98D8C8"; "#F7DC6F"; "#BB8FCE"; "#85C1E9"; "#F8B500"; "#FF6F61" ].

Fixpoint charCodeSum (s : string) : nat :=
    match s with
    | EmptyString => 0
    | String c s' => Ascii.nat_of_ascii c + charCodeSum s'
    end.

Definition generateAvatar (username : string) : string :=
    let hash := charCodeSum username in
    default "#4ECDC4" (AVATAR_COLORS !! (hash `mod` length AVATAR_COLORS)).

Definition create (env : Env) (username : string) : User.t :=
    User.mk (nanoid env) username (generateAvatar username) online (now env).

Definition updateStatus (user : User.t) (status : UserStatus) : User.t :=
    User.mk (User.id user) (User.username user) (User.avatar user) status
            (User.joinedAt user).
End UserFactory.

Module MessageFactory.
Definition create (env : Env) (roomId authorId content : string)
      (replyTo : option string) : Message.t :=
    Message.mk (nanoid env) roomId authorId content (now env) None replyTo.

Definition edit (env : Env) (message : Message.t) (newContent : string)
      : Message.t :=
    Message.mk (Message.id message) (Message.roomId message)
               (Message.authorId message) newContent
               (Message.createdAt message) (Some (now env))
               (Message.replyTo message).
End MessageFactory.

Module MessageFormatter.
Definition truncateForPreview (content : string) : string :=
    if decide (String.length content ≤ 50) then content
    else String.substring 0 50 content +:+ "...".
End MessageFormatter.

(* ===================================================================== *)
(** ** infrastructure/repositories.ts: the ports *)

Record UserRepository (S : Type) := {
  users_findById : string → M S (option User.t);
  users_findByUsername : string → M S (option User.t);
  users_save : User.t → M S unit;
  users_findByIds : list string → M S (list User.t);
  users_updateStatus : string → UserStatus → M S unit;
  users_updateLastSeen : string → M S unit;
}.

Record MessageRepository (S : Type) := {
  messages_findById : string → M S (option Message.t);
  messages_findByRoom : string → nat → M S (list Message.t);
  messages_save : Message.t → M S unit;
  messages_update : Message.t → M S unit;
  messages_delete : string → M S unit;
}.

Record RoomRepository (S : Type) := {
  rooms_findById : string → M S (option Room.t);
  rooms_findAll : M S (list Room.t);
  rooms_addParticipant : string → string → M S unit;
  rooms_removeParticipant : string → string → M S unit;
  rooms_getParticipants : string → M S (list string);
  rooms_getParticipantCount : string → M S nat;
}.

Record UnitOfWork (S : Type) := {
  users : UserRepository S;
  messages : MessageRepository S;
  rooms : RoomRepository S;
}.

Arguments users_findById {S}.
Arguments users_findByUsername {S}.
Arguments users_save {S}.
Arguments users_findByIds {S}.
Arguments users_updateStatus {S}.
Arguments users_updateLastSeen {S}.
Arguments messages_findById {S}.
Arguments messages_findByRoom {S}.
Arguments messages_save {S}.
Arguments messages_update {S}.
Arguments messages_delete {S}.
Arguments rooms_findById {S}.
Arguments rooms_findAll {S}.
Arguments rooms_addParticipant {S}.
Arguments rooms_removeParticipant {S}.
Arguments rooms_getParticipants {S}.
Arguments rooms_getParticipantCount {S}.
Arguments users {S}.
Arguments messages {S}.
Arguments rooms {S}.

(* ===================================================================== *)
(** ** infrastructure/events.ts: the application events *)

Inductive ChatEvent :=
  | user_connected (userId username : string)
  | user_disconnected (userId : string)
  | user_status_changed (userId : string) (status : UserStatus)
  | message_sent (messageId roomId authorId : string)
  | message_edited (messageId : string)
  | message_deleted (messageId : string)
  | room_user_joined (roomId userId : string)
  | room_user_left (roomId userId : string).

(* ===================================================================== *)
(** ** application/useCases.ts *)

Module UseCaseError.
Record t := mk { message : string; code : string }.
End UseCaseError.

Inductive Result (T : Type) :=
  | success (data : T)
  | failure (error : UseCaseError.t).
Arguments success {T} data.
Arguments failure {T} error.

Module JoinRoomOutput.
Record t := mk {
    user : User.t;
    room : RoomInfo.t;
    messages : list MessageDTO.t;
    users : list User.t;
  }.
End JoinRoomOutput.

Module useCases.
Section useCases.
Context {S : Type}.
  (** [uow] is the unit of work, [emit] is [events.emit]. *)
Variable uow : UnitOfWork S.
Variable emit : ChatEvent → M S unit.
Variable env : Env.

Definition messageToDTO (message : Message.t) : M S MessageDTO.t :=
    author <- users_findById (users uow) (Message.authorId message) ;;
    match author with
    | None =>
        throw ("Author " +:+ Message.authorId message
               +:+ " not found for message " +:+ Message.id message)
    | Some author =>
        replyInfo <-
          (if truthy (Message.replyTo message) then
             replyMessage <-
               messages_findById (messages uow)
                 (default "" (Message.replyTo message)) ;;
             match replyMessage with
             | Some replyMessage =>
                 replyAuthor <-
                   users_findById (users uow)
                     (Message.authorId replyMessage) ;;
                 ret (Some (ReplyInfo.mk
                   (Message.id replyMessage)
                   (match replyAuthor with
                    | Some a => User.username a
                    | None => "Unknown"
                    end)
                   (MessageFormatter.truncateForPreview
                      (Message.content replyMessage))))
             | None => ret None
             end
           else ret None) ;;
        ret (MessageDTO.mk
          (Message.id message) (Message.roomId message)
          (Author.mk (User.id author) (User.username author)
                     (User.avatar author))
          (Message.content message) (Message.createdAt message)
          (Message.editedAt message) replyInfo)
    end.

Definition getOrCreateUser (username : string) : M S User.t :=
    existingUser <- users_findByUsername (users uow) username ;;
    match existingUser with
    | Some existingUser =>
        users_updateStatus (users uow) (User.id existingUser) online ;;;
        ret (UserFactory.updateStatus existingUser online)
    | None =>
        let newUser := UserFactory.create env username in
        users_save (users uow) newUser ;;;
        ret newUser
    end.

  (** [Promise.all] over reads of a synchronous store: the conversions run
      one after the other, in list order. *)
Definition getRoomMessagesWithAuthors (roomId : string)
      : M S (list MessageDTO.t) :=
    msgs <- messages_findByRoom (messages uow) roomId 50 ;;
    mapM messageToDTO msgs.

Definition getOnlineParticipants (roomId : string) : M S (list User.t) :=
    participantIds <- rooms_getParticipants (rooms uow) roomId ;;
    us <- users_findByIds (users uow) participantIds ;;
    ret (filter (λ u, UserStatus_eqb (User.status u) offline = false) us).

Definition emitJoinEvents (roomId : string) (user : User.t) : M S unit :=
    emit (room_user_joined roomId (User.id user)) ;;;
    emit (user_connected (User.id user) (User.username user)).

Definition buildRoomInfo (room : Room.t) (participantCount : nat)
      : RoomInfo.t :=
    RoomInfo.mk (Room.id room) (Room.name room) (Room.description room)
                participantCount.

Definition joinRoom (roomId username : string)
      : M S (Result JoinRoomOutput.t) :=
    room <- rooms_findById (rooms uow) roomId ;;
    match room with
    | None =>
        ret (failure (UseCaseError.mk
          ("Room '" +:+ roomId +:+ "' not found") "ROOM_NOT_FOUND"))
    | Some room =>
        user <- getOrCreateUser username ;;
        rooms_addParticipant (rooms uow) roomId (User.id user) ;;;
        messageDTOs <- getRoomMessagesWithAuthors roomId ;;
        onlineUsers <- getOnlineParticipants roomId ;;
        participantCount <- rooms_getParticipantCount (rooms uow) roomId ;;
        emitJoinEvents roomId user ;;;
        ret (success (JoinRoomOutput.mk user
          (buildRoomInfo room participantCount) messageDTOs onlineUsers))
    end.

Definition leaveRoom (roomId userId : string) : M S (Result unit) :=
    room <- rooms_findById (rooms uow) roomId ;;
    match room with
    | None => ret (failure (UseCaseError.mk "Room not found" "ROOM_NOT_FOUND"))
    | Some _ =>
        rooms_removeParticipant (rooms uow) roomId userId ;;;
        users_updateStatus (users uow) userId offline ;;;
        users_updateLastSeen (users uow) userId ;;;
        emit (room_user_left roomId userId) ;;;
        ret (success tt)
    end.

Definition sendMessage (roomId authorId content : string)
      (replyTo : option string) : M S (Result MessageDTO.t) :=
    room <- rooms_findById (rooms uow) roomId ;;
    match room with
    | None => ret (failure (UseCaseError.mk "Room not found" "ROOM_NOT_FOUND"))
    | Some _ =>
        author <- users_findById (users uow) authorId ;;
        match author with
        | None =>
            ret (failure (UseCaseError.mk "User not found" "USER_NOT_FOUND"))
        | Some _ =>
            let message :=
              MessageFactory.create env roomId authorId content
                (if truthy replyTo then replyTo else None) in
            messages_save (messages uow) message ;;;
            emit (message_sent (Message.id message) roomId authorId) ;;;
            dto <- messageToDTO message ;;
            ret (success dto)
        end
    end.

Definition editMessage (messageId userId content : string)
      : M S (Result Message.t) :=
    message <- messages_findById (messages uow) messageId ;;
    match message with
    | None =>
        ret (failure (UseCaseError.mk "Message not found" "MESSAGE_NOT_FOUND"))
    | Some message =>
        if negb (String.eqb (Message.authorId message) userId) then
          ret (failure (UseCaseError.mk
            "Not authorized to edit this message" "UNAUTHORIZED"))
        else
          let updatedMessage := MessageFactory.edit env message content in
          messages_update (messages uow) updatedMessage ;;;
          emit (message_edited messageId) ;;;
          ret (success updatedMessage)
    end.

Definition deleteMessage (messageId userId : string) : M S (Result unit) :=
    message <- messages_findById (messages uow) messageId ;;
    match message with
    | None =>
        ret (failure (UseCaseError.mk "Message not found" "MESSAGE_NOT_FOUND"))
    | Some message =>
        if negb (String.eqb (Message.authorId message) userId) then
          ret (failure (UseCaseError.mk
            "Not authorized to delete this message" "UNAUTHORIZED"))
        else
          messages_delete (messages uow) messageId ;;;
          emit (message_deleted messageId) ;;;
          ret (success tt)
    end.

Definition updateUserStatus (userId : string) (status : UserStatus)
      : M S (Result User.t) :=
    user <- users_findById (users uow) userId ;;
    match user with
    | None => ret (failure (UseCaseError.mk "User not found" "USER_NOT_FOUND"))
    | Some user =>
        users_updateStatus (users uow) userId status ;;;
        let updatedUser := UserFactory.updateStatus user status in
        emit (user_status_changed userId status) ;;;
        ret (success updatedUser)
    end.

Definition getRooms : M S (list RoomInfo.t) :=
    rs <- rooms_findAll (rooms uow) ;;
    mapM (λ room,
            participantCount <-
              rooms_getParticipantCount (rooms uow) (Room.id room) ;;
            ret (RoomInfo.mk (Room.id room) (Room.name room)
                             (Room.description room) participantCount))
         rs.
End useCases.
End useCases.

(* ===================================================================== *)
(** ** server/connectionManager.ts: the state *)

Record ConnectionState := mkState {
  userId : option string;
  roomId : option string;
  username : option string;
  typingTimeout : option nat;
  lastMessageTime : Z;
  messageCount : Z;
}.

(** The state a socket is given when the server upgrades the request. *)
Definition initialState : ConnectionState := mkState None None None None 0 0.

(** A pending [setTimeout] callback of [handleTypingStart]: the closure
    holds the connection id, the state object and the payload. *)
Record Timer := mkTimer {
  timer_connectionId : string;
  timer_state : nat;
  timer_roomId : string;
  timer_due : Z;
}.

(** The world of the connection manager.  A socket is a reference; [heap]
    holds [ws.data.state] of each socket that was written to (a socket not
    in [heap] still has its initial state).  [timers] are the callbacks the
    runtime holds, by handle.  [sent], [emitted] and [console] are the calls
    made to [ws.send], [events.emit] and [console.error], oldest first. *)
Record World (S : Type) := mkWorld {
  store : S;
  heap : gmap nat ConnectionState;
  broken : gset nat;
  connections : gmap string nat;
  userConnections : gmap string string;
  roomSubscriptions : gmap string JsSet;
  timers : gmap nat Timer;
  nextTimer : nat;
  sent : list (nat * ServerEvent);
  emitted : list ChatEvent;
  console : list string;
}.
Arguments mkWorld {S}.
Arguments store {S}.
Arguments heap {S}.
Arguments broken {S}.
Arguments connections {S}.
Arguments userConnections {S}.
Arguments roomSubscriptions {S}.
Arguments timers {S}.
Arguments nextTimer {S}.
Arguments sent {S}.
Arguments emitted {S}.
Arguments console {S}.

Section WorldUpdates.
Context {S : Type}.
Implicit Type w : World S.

Definition set_store (s : S) w : World S :=
  mkWorld s (heap w) (broken w) (connections w) (userConnections w)
    (roomSubscriptions w) (timers w) (nextTimer w) (sent w) (emitted w)
    (console w).

Definition set_heap (h : gmap nat ConnectionState) w : World S :=
  mkWorld (store w) h (broken w) (connections w) (userConnections w)
    (roomSubscriptions w) (timers w) (nextTimer w) (sent w) (emitted w)
    (console w).

Definition set_connections (c : gmap string nat) w : World S :=
  mkWorld (store w) (heap w) (broken w) c (userConnections w)
    (roomSubscriptions w) (timers w) (nextTimer w) (sent w) (emitted w)
    (console w).

Definition set_userConnections (u : gmap string string) w : World S :=
  mkWorld (store w) (heap w) (broken w) (connections w) u
    (roomSubscriptions w) (timers w) (nextTimer w) (sent w) (emitted w)
    (console w).

Definition set_roomSubscriptions (r : gmap string JsSet) w : World S :=
  mkWorld (store w) (heap w) (broken w) (connections w) (userConnections w)
    r (timers w) (nextTimer w) (sent w) (emitted w) (console w).

Definition set_timers (t : gmap nat Timer) (n : nat) w : World S :=
  mkWorld (store w) (heap w) (broken w) (connections w) (userConnections w)
    (roomSubscriptions w) t n (sent w) (emitted w) (console w).

Definition set_sent (l : list (nat * ServerEvent)) w : World S :=
  mkWorld (store w) (heap w) (broken w) (connections w) (userConnections w)
    (roomSubscriptions w) (timers w) (nextTimer w) l (emitted w) (console w).

Definition set_emitted (l : list ChatEvent) w : World S :=
  mkWorld (store w) (heap w) (broken w) (connections w) (userConnections w)
    (roomSubscriptions w) (timers w) (nextTimer w) (sent w) l (console w).

Definition set_console (l : list string) w : World S :=
  mkWorld (store w) (heap w) (broken w) (connections w) (userConnections w)
    (roomSubscriptions w) (timers w) (nextTimer w) (sent w) (emitted w) l.

(** [ws.data.state] *)
Definition stateOf w (ws : nat) : ConnectionState :=
  default initialState (heap w !! ws).

(** A repository call made by the manager or by a use case: it sees and
    changes the store, and nothing else of the world. *)
Definition lift {A} (m : M S A) : M (World S) A :=
  λ w, let '(r, s) := m (store w) in (r, set_store s w).

Definition liftUow (u : UnitOfWork S) : UnitOfWork (World S) :=
  {| users := {|
       users_findById id := lift (users_findById (users u) id);
       users_findByUsername n := lift (users_findByUsername (users u) n);
       users_save x := lift (users_save (users u) x);
       users_findByIds ids := lift (users_findByIds (users u) ids);
       users_updateStatus id st := lift (users_updateStatus (users u) id st);
       users_updateLastSeen id := lift (users_updateLastSeen (users u) id) |};
     messages := {|
       messages_findById id := lift (messages_findById (messages u) id);
       messages_findByRoom r n := lift (messages_findByRoom (messages u) r n);
       messages_save x := lift (messages_save (messages u) x);
       messages_update x := lift (messages_update (messages u) x);
       messages_delete id := lift (messages_delete (messages u) id) |};
     rooms := {|
       rooms_findById id := lift (rooms_findById (rooms u) id);
       rooms_findAll := lift (rooms_findAll (rooms u));
       rooms_addParticipant r x := lift (rooms_addParticipant (rooms u) r x);
       rooms_removeParticipant r x :=
         lift (rooms_removeParticipant (rooms u) r x);
       rooms_getParticipants r := lift (rooms_getParticipants (rooms u) r);
       rooms_getParticipantCount r :=
         lift (rooms_getParticipantCount (rooms u) r) |} |}.
End WorldUpdates.

(** The pure core of [checkRateLimit]: the verdict and the state it leaves. *)
Definition checkRateLimit (now : Z) (state : ConnectionState)
    : bool * ConnectionState :=
  let oneMinuteAgo := (now - 60000)%Z in
  let state1 :=
    if (lastMessageTime state <? oneMinuteAgo)%Z
    then mkState (userId state) (roomId state) (username state)
                 (typingTimeout state) now 0
    else state in
  let state2 :=
    mkState (userId state1) (roomId state1) (username state1)
            (typingTimeout state1) now (messageCount state1 + 1) in
  ((messageCount state2 <=? CONSTANTS.RATE_LIMIT_MESSAGES_PER_MINUTE)%Z,
   state2).

(** What reaches the manager for one raw frame: [JSON.parse] failed, the
    schema rejected the value with these issue messages, or a valid event. *)
Inductive Inbound :=
  | NotJSON
  | SchemaInvalid (issues : list string)
  | Valid (event : ClientEvent).

(* ===================================================================== *)
(** ** server/connectionManager.ts: the class *)

Module ConnectionManager.
Section ConnectionManager.
Context {S : Type}.
(** [store0] is the storage adapter behind [this.uow]; [env] is what the
    clock and the id generator give during the handler that runs. *)
Variable store0 : UnitOfWork S.
Variable env : Env.

Abbreviation W := (World S).

Definition uow : UnitOfWork W := liftUow store0.

Definition console_error (line : string) : M W unit :=
  modify (λ w, set_console (console w ++ [line]) w).

(** [ws.send(JSON.stringify(event))]: throws on a broken socket. *)
Definition ws_send (ws : nat) (event : ServerEvent) : M W unit :=
  λ w, if decide (ws ∈ broken w)
       then (Throw "socket is not writable", w)
       else (Ok tt, set_sent (sent w ++ [(ws, event)]) w).

Definition send (ws : nat) (event : ServerEvent) : M W unit :=
  try_catch (ws_send ws event)
    (λ error, console_error ("Failed to send message: " +:+ error)).

Definition broadcastToRoom (roomId : string) (event : ServerEvent)
    (excludeConnectionId : option string) : M W unit :=
  subscribers <- gets (λ w, roomSubscriptions w !! roomId) ;;
  match subscribers with
  | None => ret tt
  | Some subscribers =>
      forM_ subscribers (λ connId,
        if decide (Some connId = excludeConnectionId) then ret tt
        else
          connection <- gets (λ w, connections w !! connId) ;;
          match connection with
          | Some connection => send connection event
          | None => ret tt
          end)
  end.

Definition getRoomsForUser (userId : string) : M W (list string) :=
  rs <- rooms_findAll (rooms uow) ;;
  ret (Room.id <$> filter (λ room, userId ∈ Room.participants room) rs).

(** [this.events.emit]: the only listener with an effect is the one the
    constructor registers for "user:status-changed".  It is asynchronous: a
    rejection of its promise reaches no caller. *)
Definition emit (event : ChatEvent) : M W unit :=
  modify (λ w, set_emitted (emitted w ++ [event]) w) ;;;
  match event with
  | user_status_changed userId status =>
      try_catch
        (rs <- getRoomsForUser userId ;;
         forM_ rs (λ roomId,
           broadcastToRoom roomId (USER_STATUS_CHANGED userId status) None))
        (λ _, ret tt)
  | _ => ret tt
  end.

Definition getState (ws : nat) : M W ConnectionState :=
  gets (λ w, stateOf w ws).

Definition setState (ws : nat) (f : ConnectionState → ConnectionState)
    : M W unit :=
  modify (λ w, set_heap (<[ws := f (stateOf w ws)]> (heap w)) w).

Definition clearTimeout (handle : nat) : M W unit :=
  modify (λ w, set_timers (delete handle (timers w)) (nextTimer w) w).

Definition setTimeout (callback : Timer) : M W nat :=
  λ w, (Ok (nextTimer w),
        set_timers (<[nextTimer w := callback]> (timers w))
                   (Datatypes.S (nextTimer w)) w).

Definition addConnection (id : string) (ws : nat) : M W unit :=
  modify (λ w, set_connections (<[id := ws]> (connections w)) w).

Definition joinRoom (connectionId roomId : string) : M W unit :=
  modify (λ w,
    let subscribers := default [] (roomSubscriptions w !! roomId) in
    set_roomSubscriptions
      (<[roomId := set_add connectionId subscribers]> (roomSubscriptions w))
      w).

Definition leaveRoom (connectionId roomId : string) : M W unit :=
  modify (λ w,
    match roomSubscriptions w !! roomId with
    | Some subscribers =>
        let subscribers := set_delete connectionId subscribers in
        if decide (length subscribers = 0)
        then set_roomSubscriptions (delete roomId (roomSubscriptions w)) w
        else set_roomSubscriptions
               (<[roomId := subscribers]> (roomSubscriptions w)) w
    | None => w
    end).

(** [state.userId as string] after the test that it is set. *)
Definition asString (x : option string) : string := default "" x.

Definition removeConnection (id : string) : M W unit :=
  connection <- gets (λ w, connections w !! id) ;;
  match connection with
  | Some ws =>
      state <- getState ws ;;
      match typingTimeout state with
      | Some handle => clearTimeout handle
      | None => ret tt
      end ;;;
      (if truthy (roomId state) then
         leaveRoom id (asString (roomId state)) ;;;
         broadcastToRoom (asString (roomId state))
           (USER_LEFT (userId state) (asString (roomId state))) (Some id)
       else ret tt) ;;;
      (if truthy (userId state) then
         users_updateStatus (users uow) (asString (userId state)) offline ;;;
         users_updateLastSeen (users uow) (asString (userId state)) ;;;
         emit (user_disconnected (asString (userId state)))
       else ret tt)
  | None => ret tt
  end ;;;
  modify (λ w, set_connections (delete id (connections w)) w).

Definition sendError (ws : nat) (code message : string) : M W unit :=
  send ws (ERROR code message).

Definition validateUserAuthorized (ws : nat) : M W bool :=
  state <- getState ws ;;
  if negb (truthy (userId state)) || negb (truthy (username state)) then
    sendError ws "UNAUTHORIZED" "Must join a room first" ;;;
    ret false
  else ret true.

Definition validateRateLimit (ws : nat) : M W bool :=
  state <- getState ws ;;
  let '(ok, state') := checkRateLimit (now env) state in
  setState ws (λ _, state') ;;;
  if negb ok then
    sendError ws "RATE_LIMITED" "Too many messages. Please slow down." ;;;
    ret false
  else ret true.

Definition handleTypingStop (connectionId : string) (state : nat)
    (payload_roomId : string) : M W unit :=
  st <- getState state ;;
  if negb (truthy (userId st)) then ret tt
  else
    match typingTimeout st with
    | Some handle =>
        clearTimeout handle ;;;
        setState state (λ st,
          mkState (userId st) (roomId st) (username st) None
                  (lastMessageTime st) (messageCount st))
    | None => ret tt
    end ;;;
    broadcastToRoom payload_roomId
      (USER_STOPPED_TYPING (asString (userId st)) payload_roomId)
      (Some connectionId).

Definition handleTypingStart (connectionId : string) (state : nat)
    (payload_roomId : string) : M W unit :=
  st <- getState state ;;
  if negb (truthy (userId st)) || negb (truthy (username st)) then ret tt
  else
    match typingTimeout st with
    | Some handle => clearTimeout handle
    | None => ret tt
    end ;;;
    handle <- setTimeout
      (mkTimer connectionId state payload_roomId
         (now env + CONSTANTS.TYPING_TIMEOUT_MS)) ;;
    setState state (λ st,
      mkState (userId st) (roomId st) (username st) (Some handle)
              (lastMessageTime st) (messageCount st)) ;;;
    broadcastToRoom payload_roomId
      (USER_TYPING (asString (userId st)) (asString (username st))
                   payload_roomId)
      (Some connectionId).

Definition handleJoinRoom (connectionId : string) (ws : nat)
    (payload_roomId payload_username : string) : M W unit :=
  result <- useCases.joinRoom uow emit env payload_roomId payload_username ;;
  match result with
  | failure error =>
      send ws (ERROR (UseCaseError.code error) (UseCaseError.message error))
  | success data =>
      let user := JoinRoomOutput.user data in
      setState ws (λ st,
        mkState (Some (User.id user)) (Some payload_roomId)
                (Some (User.username user)) (typingTimeout st)
                (lastMessageTime st) (messageCount st)) ;;;
      modify (λ w, set_userConnections
                     (<[User.id user := connectionId]> (userConnections w))
                     w) ;;;
      joinRoom connectionId payload_roomId ;;;
      rs <- useCases.getRooms uow ;;
      send ws (CONNECTED user rs) ;;;
      send ws (ROOM_HISTORY payload_roomId (JoinRoomOutput.messages data)
                            (JoinRoomOutput.users data)) ;;;
      broadcastToRoom payload_roomId (USER_JOINED user payload_roomId)
        (Some connectionId)
  end.

Definition handleLeaveRoom (connectionId : string) (ws : nat)
    (payload_roomId : string) : M W unit :=
  state <- getState ws ;;
  if negb (truthy (userId state)) || negb (truthy (roomId state))
  then ret tt
  else
    useCases.leaveRoom uow emit payload_roomId (asString (userId state)) ;;;
    leaveRoom connectionId payload_roomId ;;;
    broadcastToRoom payload_roomId
      (USER_LEFT (userId state) payload_roomId) None.

Definition handleSendMessage (connectionId : string) (ws : nat)
    (payload_roomId content : string) (replyTo : option string) : M W unit :=
  authorized <- validateUserAuthorized ws ;;
  if negb authorized then ret tt
  else
    allowed <- validateRateLimit ws ;;
    if negb allowed then ret tt
    else
      state <- getState ws ;;
      result <- useCases.sendMessage uow emit env payload_roomId
                  (asString (userId state)) content
                  (if truthy replyTo then replyTo else None) ;;
      match result with
      | failure error =>
          sendError ws (UseCaseError.code error) (UseCaseError.message error)
      | success data =>
          handleTypingStop connectionId ws payload_roomId ;;;
          broadcastToRoom payload_roomId (MESSAGE_RECEIVED data) None
      end.

Definition handleEditMessage (ws : nat) (messageId content : string)
    : M W unit :=
  state <- getState ws ;;
  if negb (truthy (userId state)) then ret tt
  else
    result <- useCases.editMessage uow emit env messageId
                (asString (userId state)) content ;;
    match result with
    | failure error =>
        let code := UseCaseError.code error in
        send ws (ERROR
          (if String.eqb code "MESSAGE_NOT_FOUND"
              || String.eqb code "UNAUTHORIZED"
           then code else "INTERNAL_ERROR")
          (UseCaseError.message error))
    | success data =>
        if truthy (roomId state) then
          broadcastToRoom (asString (roomId state))
            (MESSAGE_EDITED messageId content (Message.editedAt data)) None
        else ret tt
    end.

Definition handleDeleteMessage (ws : nat) (messageId : string) : M W unit :=
  state <- getState ws ;;
  if negb (truthy (userId state)) then ret tt
  else
    result <- useCases.deleteMessage uow emit messageId
                (asString (userId state)) ;;
    match result with
    | failure error =>
        send ws (ERROR (UseCaseError.code error) (UseCaseError.message error))
    | success _ =>
        if truthy (roomId state) then
          broadcastToRoom (asString (roomId state))
            (MESSAGE_DELETED messageId) None
        else ret tt
    end.

Definition handleUpdateStatus (ws : nat) (status : UserStatus) : M W unit :=
  state <- getState ws ;;
  if negb (truthy (userId state)) then ret tt
  else
    useCases.updateUserStatus uow emit (asString (userId state)) status ;;;
    ret tt.

Definition routeEvent (connectionId : string) (ws : nat)
    (event : ClientEvent) : M W unit :=
  match event with
  | JOIN_ROOM roomId username => handleJoinRoom connectionId ws roomId username
  | LEAVE_ROOM roomId => handleLeaveRoom connectionId ws roomId
  | SEND_MESSAGE roomId content replyTo =>
      handleSendMessage connectionId ws roomId content replyTo
  | EDIT_MESSAGE messageId content => handleEditMessage ws messageId content
  | DELETE_MESSAGE messageId => handleDeleteMessage ws messageId
  | TYPING_START roomId => handleTypingStart connectionId ws roomId
  | TYPING_STOP roomId => handleTypingStop connectionId ws roomId
  | UPDATE_STATUS status => handleUpdateStatus ws status
  end.

Definition handleMessage (connectionId : string) (rawMessage : Inbound)
    : M W unit :=
  connection <- gets (λ w, connections w !! connectionId) ;;
  match connection with
  | None => console_error ("Connection not found: " +:+ connectionId)
  | Some connection =>
      match rawMessage with
      | NotJSON => sendError connection "INVALID_MESSAGE" "Invalid JSON"
      | SchemaInvalid issues =>
          sendError connection "INVALID_MESSAGE" (String.concat ", " issues)
      | Valid event => routeEvent connectionId connection event
      end
  end.

(** The runtime runs the callback of a pending timer: the handle leaves the
    table of pending timers and the closure calls [handleTypingStop]. *)
Definition fireTimer (handle : nat) : M W unit :=
  pending <- gets (λ w, timers w !! handle) ;;
  match pending with
  | None => ret tt
  | Some t =>
      clearTimeout handle ;;;
      handleTypingStop (timer_connectionId t) (timer_state t) (timer_roomId t)
  end.
End ConnectionManager.
End ConnectionManager.

(* ===================================================================== *)
(** ** infrastructure/database.ts and the SQLite adapter

    A table is the list of its rows in insertion order.  The schema's
    constraints are written out: primary keys, the unique user name
    (compared without case), and the foreign keys, which the connection
    enforces ([PRAGMA foreign_keys = ON]).

    The order of the rows a query returns is the one SQLite gives with the
    indexes of the schema.  [ORDER BY] lists rows with equal keys in
    insertion order.  A query that is answered through the index of a
    primary key lists the rows in the order of that key: the participants
    of a room come in the order of their user ids, and the users of
    [id IN (...)] in the order of their ids.

    [locked] stands for the state of the database file: while another
    process holds its write lock, a statement that writes throws. *)

Module sqlite.

Module UserRow.
Record t := mk {
  id : string;
  username : string;
  avatar : string;
  status : UserStatus;
  joined_at : Z;
  last_seen_at : option Z;
  created_at : Z;
  updated_at : Z;
}.
End UserRow.

Module RoomRow.
Record t := mk {
  id : string;
  name : string;
  description : string;
  is_private : Z;
  created_at : Z;
  updated_at : Z;
}.
End RoomRow.

Module MessageRow.
Record t := mk {
  id : string;
  room_id : string;
  author_id : string;
  content : string;
  reply_to_id : option string;
  is_deleted : Z;
  created_at : Z;
  edited_at : option Z;
  updated_at : Z;
}.
End MessageRow.

Module RoomParticipantRow.
Record t := mk { room_id : string; user_id : string; joined_at : Z }.
End RoomParticipantRow.

Record Database := mkDatabase {
  locked : bool;
  t_users : list UserRow.t;
  t_rooms : list RoomRow.t;
  t_room_participants : list RoomParticipantRow.t;
  t_messages : list MessageRow.t;
}.

(** [COLLATE NOCASE]: the 26 upper case letters fold to lower case. *)
Definition fold_case (c : Ascii.ascii) : Ascii.ascii :=
  let n := Ascii.nat_of_ascii c in
  if decide (65 ≤ n ≤ 90) then Ascii.ascii_of_nat (n + 32) else c.

Fixpoint nocase (s : string) : string :=
  match s with
  | EmptyString => EmptyString
  | String c s' => String (fold_case c) (nocase s')
  end.

(** A statement that writes. *)
Definition write (f : Database → Res unit * Database) : M Database unit :=
  λ db, if locked db then (Throw "database is locked", db) else f db.

Definition userRowToEntity (row : UserRow.t) : User.t :=
  User.mk (UserRow.id row) (UserRow.username row) (UserRow.avatar row)
          (UserRow.status row) (UserRow.joined_at row).

Definition roomRowToEntity (row : RoomRow.t) (participants : JsSet)
    : Room.t :=
  Room.mk (RoomRow.id row) (RoomRow.name row) (RoomRow.description row)
          (RoomRow.created_at row) participants.

Definition messageRowToEntity (row : MessageRow.t) : Message.t :=
  Message.mk (MessageRow.id row) (MessageRow.room_id row)
             (MessageRow.author_id row) (MessageRow.content row)
             (MessageRow.created_at row) (MessageRow.edited_at row)
             (MessageRow.reply_to_id row).

(** The rows in the order [R] of a key; rows with equal keys keep the
    order they have in the list. *)
Fixpoint insert_row {A} (R : relation A) `{!RelDecision R}
    (x : A) (l : list A) : list A :=
  match l with
  | [] => [x]
  | y :: l' => if decide (R x y) then x :: l else y :: insert_row R x l'
  end.

Definition order_by {A} (R : relation A) `{!RelDecision R} (l : list A)
    : list A :=
  foldr (insert_row R) [] l.

(** [ORDER BY created_at DESC] and [ORDER BY name]. *)
Definition created_at_desc (a b : MessageRow.t) : Prop :=
  (MessageRow.created_at b ≤ MessageRow.created_at a)%Z.

#[local] Instance created_at_desc_dec : RelDecision created_at_desc :=
  λ a b, decide (MessageRow.created_at b ≤ MessageRow.created_at a)%Z.

Definition name_asc (a b : RoomRow.t) : Prop :=
  String.leb (RoomRow.name a) (RoomRow.name b) = true.

#[local] Instance name_asc_dec : RelDecision name_asc :=
  λ a b, decide (String.leb (RoomRow.name a) (RoomRow.name b) = true).

(** The order of the index of [PRIMARY KEY (room_id, user_id)] inside one
    room, and of the index of the primary key of [users]: text is compared
    byte by byte. *)
Definition user_id_asc (a b : RoomParticipantRow.t) : Prop :=
  String.leb (RoomParticipantRow.user_id a) (RoomParticipantRow.user_id b)
  = true.

#[local] Instance user_id_asc_dec : RelDecision user_id_asc :=
  λ a b, decide (String.leb (RoomParticipantRow.user_id a)
                            (RoomParticipantRow.user_id b) = true).

Definition id_asc (a b : UserRow.t) : Prop :=
  String.leb (UserRow.id a) (UserRow.id b) = true.

#[local] Instance id_asc_dec : RelDecision id_asc :=
  λ a b, decide (String.leb (UserRow.id a) (UserRow.id b) = true).

Section Repositories.
(** What [Date.now()] reads while the statements run. *)
Variable now : Z.

(** *** SQLiteUserRepository *)

Definition user_findById (id : string) : M Database (option User.t) :=
  gets (λ db, userRowToEntity <$>
    head (filter (λ r, UserRow.id r = id) (t_users db))).

Definition user_findByUsername (username : string)
    : M Database (option User.t) :=
  gets (λ db, userRowToEntity <$>
    head (filter (λ r, nocase (UserRow.username r) = nocase username)
                 (t_users db))).

(** When the id and the name are both taken, the error names the name. *)
Definition user_save (user : User.t) : M Database unit :=
  write (λ db,
    if bool_decide (Exists (λ r, nocase (UserRow.username r)
                                 = nocase (User.username user))
                           (t_users db))
    then (Throw "UNIQUE constraint failed: users.username", db)
    else if bool_decide (Exists (λ r, UserRow.id r = User.id user)
                                (t_users db))
    then (Throw "UNIQUE constraint failed: users.id", db)
    else (Ok tt,
          mkDatabase (locked db)
            (t_users db ++
               [UserRow.mk (User.id user) (User.username user)
                  (User.avatar user) (User.status user) (User.joinedAt user)
                  None now now])
            (t_rooms db) (t_room_participants db) (t_messages db))).

(** The [IN] query is answered through the index of the primary key. *)
Definition user_findByIds (ids : list string) : M Database (list User.t) :=
  if decide (length ids = 0) then ret []
  else gets (λ db, userRowToEntity <$>
               order_by id_asc
                 (filter (λ r, UserRow.id r ∈ ids) (t_users db))).

Definition user_updateStatus (id : string) (status : UserStatus)
    : M Database unit :=
  write (λ db,
    (Ok tt,
     mkDatabase (locked db)
       ((λ r, if decide (UserRow.id r = id)
              then UserRow.mk (UserRow.id r) (UserRow.username r)
                     (UserRow.avatar r) status (UserRow.joined_at r)
                     (UserRow.last_seen_at r) (UserRow.created_at r) now
              else r) <$> t_users db)
       (t_rooms db) (t_room_participants db) (t_messages db))).

Definition user_updateLastSeen (id : string) : M Database unit :=
  write (λ db,
    (Ok tt,
     mkDatabase (locked db)
       ((λ r, if decide (UserRow.id r = id)
              then UserRow.mk (UserRow.id r) (UserRow.username r)
                     (UserRow.avatar r) (UserRow.status r)
                     (UserRow.joined_at r) (Some now)
                     (UserRow.created_at r) now
              else r) <$> t_users db)
       (t_rooms db) (t_room_participants db) (t_messages db))).

Definition SQLiteUserRepository : UserRepository Database :=
  {| users_findById := user_findById;
     users_findByUsername := user_findByUsername;
     users_save := user_save;
     users_findByIds := user_findByIds;
     users_updateStatus := user_updateStatus;
     users_updateLastSeen := user_updateLastSeen |}.

(** *** SQLiteMessageRepository *)

Definition message_findById (id : string) : M Database (option Message.t) :=
  gets (λ db, messageRowToEntity <$>
    head (filter (λ r, MessageRow.id r = id ∧ MessageRow.is_deleted r = 0%Z)
                 (t_messages db))).

Definition message_findByRoom (roomId : string) (limit : nat)
    : M Database (list Message.t) :=
  gets (λ db,
    let rows :=
      take limit
        (order_by created_at_desc
           (filter (λ r, MessageRow.room_id r = roomId
                         ∧ MessageRow.is_deleted r = 0%Z)
                   (t_messages db))) in
    reverse (messageRowToEntity <$> rows)).

(** The foreign keys are checked when the row is in the table: a message
    may name itself in [reply_to_id]. *)
Definition message_save (message : Message.t) : M Database unit :=
  write (λ db,
    if bool_decide (Exists (λ r, MessageRow.id r = Message.id message)
                           (t_messages db))
    then (Throw "UNIQUE constraint failed: messages.id", db)
    else if negb
      (bool_decide (Exists (λ r, RoomRow.id r = Message.roomId message)
                           (t_rooms db))
       && bool_decide (Exists (λ r, UserRow.id r = Message.authorId message)
                              (t_users db))
       && match Message.replyTo message with
          | Some target =>
              bool_decide (target = Message.id message
                           ∨ Exists (λ r, MessageRow.id r = target)
                                    (t_messages db))
          | None => true
          end)
    then (Throw "FOREIGN KEY constraint failed", db)
    else (Ok tt,
          mkDatabase (locked db) (t_users db) (t_rooms db)
            (t_room_participants db)
            (t_messages db ++
               [MessageRow.mk (Message.id message) (Message.roomId message)
                  (Message.authorId message) (Message.content message)
                  (Message.replyTo message) 0 (Message.createdAt message)
                  None now]))).

Definition message_update (message : Message.t) : M Database unit :=
  write (λ db,
    (Ok tt,
     mkDatabase (locked db) (t_users db) (t_rooms db)
       (t_room_participants db)
       ((λ r, if decide (MessageRow.id r = Message.id message)
              then MessageRow.mk (MessageRow.id r) (MessageRow.room_id r)
                     (MessageRow.author_id r) (Message.content message)
                     (MessageRow.reply_to_id r) (MessageRow.is_deleted r)
                     (MessageRow.created_at r) (Message.editedAt message) now
              else r) <$> t_messages db))).

(** Soft delete to preserve referential integrity. *)
Definition message_delete (id : string) : M Database unit :=
  write (λ db,
    (Ok tt,
     mkDatabase (locked db) (t_users db) (t_rooms db)
       (t_room_participants db)
       ((λ r, if decide (MessageRow.id r = id)
              then MessageRow.mk (MessageRow.id r) (MessageRow.room_id r)
                     (MessageRow.author_id r) (MessageRow.content r)
                     (MessageRow.reply_to_id r) 1 (MessageRow.created_at r)
                     (MessageRow.edited_at r) now
              else r) <$> t_messages db))).

Definition SQLiteMessageRepository : MessageRepository Database :=
  {| messages_findById := message_findById;
     messages_findByRoom := message_findByRoom;
     messages_save := message_save;
     messages_update := message_update;
     messages_delete := message_delete |}.

(** *** SQLiteRoomRepository *)

(** The query is answered through the index of the primary key. *)
Definition room_getParticipants (roomId : string)
    : M Database (list string) :=
  gets (λ db, RoomParticipantRow.user_id <$>
    order_by user_id_asc
      (filter (λ r, RoomParticipantRow.room_id r = roomId)
              (t_room_participants db))).

Definition room_getParticipantsSet (roomId : string) : M Database JsSet :=
  participants <- room_getParticipants roomId ;;
  ret (foldl (λ acc x, set_add x acc) [] participants).

Definition room_findById (id : string) : M Database (option Room.t) :=
  row <- gets (λ db, head (filter (λ r, RoomRow.id r = id) (t_rooms db))) ;;
  match row with
  | None => ret None
  | Some row =>
      participants <- room_getParticipantsSet id ;;
      ret (Some (roomRowToEntity row participants))
  end.

Definition room_findAll : M Database (list Room.t) :=
  rows <- gets (λ db,
    order_by name_asc (t_rooms db)) ;;
  mapM (λ row,
          participants <- room_getParticipantsSet (RoomRow.id row) ;;
          ret (roomRowToEntity row participants))
       rows.

Definition room_addParticipant (roomId userId : string) : M Database unit :=
  write (λ db,
    if bool_decide (Exists (λ r, RoomParticipantRow.room_id r = roomId
                                 ∧ RoomParticipantRow.user_id r = userId)
                           (t_room_participants db))
    then (Ok tt, db)
    else if negb
      (bool_decide (Exists (λ r, RoomRow.id r = roomId) (t_rooms db))
       && bool_decide (Exists (λ r, UserRow.id r = userId) (t_users db)))
    then (Throw "FOREIGN KEY constraint failed", db)
    else (Ok tt,
          mkDatabase (locked db) (t_users db) (t_rooms db)
            (t_room_participants db
               ++ [RoomParticipantRow.mk roomId userId now])
            (t_messages db))).

Definition room_removeParticipant (roomId userId : string)
    : M Database unit :=
  write (λ db,
    (Ok tt,
     mkDatabase (locked db) (t_users db) (t_rooms db)
       (filter (λ r, ¬ (RoomParticipantRow.room_id r = roomId
                        ∧ RoomParticipantRow.user_id r = userId))
               (t_room_participants db))
       (t_messages db))).

Definition room_getParticipantCount (roomId : string) : M Database nat :=
  gets (λ db, length
    (filter (λ r, RoomParticipantRow.room_id r = roomId)
            (t_room_participants db))).

Definition SQLiteRoomRepository : RoomRepository Database :=
  {| rooms_findById := room_findById;
     rooms_findAll := room_findAll;
     rooms_addParticipant := room_addParticipant;
     rooms_removeParticipant := room_removeParticipant;
     rooms_getParticipants := room_getParticipants;
     rooms_getParticipantCount := room_getParticipantCount |}.

Definition createUnitOfWork : UnitOfWork Database :=
  {| users := SQLiteUserRepository;
     messages := SQLiteMessageRepository;
     rooms := SQLiteRoomRepository |}.
End Repositories.

(** [runMigrations] on an empty file: the three default rooms. *)
Definition DEFAULT_ROOMS (now : Z) : list RoomRow.t :=
  [ RoomRow.mk "general" "General" "Welcome to the general chat room!"
               0 now now;
    RoomRow.mk "random" "Random" "Off-topic discussions and fun stuff"
               0 now now;
    RoomRow.mk "tech" "Tech" "Technology discussions and help" 0 now now ].

Definition migrated (now : Z) : Database :=
  mkDatabase false [] (DEFAULT_ROOMS now) [] [].
End sqlite.

(* ===================================================================== *)
(** ** server/index.ts: the task queue

    The websocket hooks hand the manager one task at a time; the runtime
    adds the timer callbacks, which it runs no earlier than they are due. *)

Inductive Task :=
  | ws_open (connectionId : string) (ws : nat)
  | ws_message (connectionId : string) (raw : Inbound)
  | ws_close (connectionId : string)
  | timer_fires (handle : nat).

Section TaskQueue.
Context {S : Type}.
(** The storage adapter, given what the clock reads while it runs. *)
Variable adapter : Z → UnitOfWork S.

Definition runTask (env : Env) (task : Task) : M (World S) unit :=
  match task with
  | ws_open id ws => ConnectionManager.addConnection id ws
  | ws_message id raw =>
      ConnectionManager.handleMessage (adapter (now env)) env id raw
  | ws_close id => ConnectionManager.removeConnection (adapter (now env)) id
  | timer_fires handle =>
      pending <- gets (λ w, timers w !! handle) ;;
      match pending with
      | Some t =>
          if (timer_due t <=? now env)%Z
          then ConnectionManager.fireTimer handle
          else ret tt
      | None => ret tt
      end
  end.

(** A task that rejects leaves the world as it was when it stopped. *)
Definition exec (env : Env) (task : Task) (w : World S) : World S :=
  snd (runTask env task w).

Fixpoint execAll (tasks : list (Env * Task)) (w : World S) : World S :=
  match tasks with
  | [] => w
  | (env, task) :: rest => execAll rest (exec env task w)
  end.

(** The server at start: no connection, no subscription, no timer. *)
Definition boot (s : S) : World S :=
  mkWorld s ∅ ∅ ∅ ∅ ∅ ∅ 0 [] [] [].

(** What happens outside the server: the store changes under it (another
    process writes, the file gets locked), sockets break. *)
Definition disturb (s : S) (b : gset nat) (w : World S) : World S :=
  mkWorld s (heap w) b (connections w) (userConnections w)
    (roomSubscriptions w) (timers w) (nextTimer w) (sent w) (emitted w)
    (console w).

Inductive reachable : World S → Prop :=
  | reachable_boot s : reachable (boot s)
  | reachable_task w env task :
      reachable w → reachable (exec env task w)
  | reachable_disturb w s b :
      reachable w → reachable (disturb s b w).
End TaskQueue.

(** The SQLite server: [createUnitOfWork()] over the migrated database. *)
Definition sqliteServer : Z → UnitOfWork sqlite.Database :=
  sqlite.createUnitOfWork.

(* ===================================================================== *)
(** ** The rate limiter on a sequence of attempts *)

(** The verdicts of [checkRateLimit] for attempts made at [times]. *)
Fixpoint rateVerdicts (times : list Z) (state : ConnectionState)
    : list bool :=
  match times with
  | [] => []
  | t :: rest =>
      let '(ok, state') := checkRateLimit t state in
      ok :: rateVerdicts rest state'
  end.

Fixpoint rateState (times : list Z) (state : ConnectionState)
    : ConnectionState :=
  match times with
  | [] => state
  | t :: rest => rateState rest (snd (checkRateLimit t state))
  end.

(** The rate window as the specification words it: a window start and a
    count; the window expires 60 s after its start. *)
Record RateWindow := mkRateWindow { windowStart : Z; countInWindow : Z }.

Definition spec_checkRateLimit (now : Z) (rw : RateWindow)
    : bool * RateWindow :=
  let rw1 :=
    if (60000 <=? now - windowStart rw)%Z then mkRateWindow now 0 else rw in
  let rw2 := mkRateWindow (windowStart rw1) (countInWindow rw1 + 1) in
  ((countInWindow rw2 <=? 30)%Z, rw2).

Fixpoint spec_rateVerdicts (times : list Z) (rw : RateWindow) : list bool :=
  match times with
  | [] => []
  | t :: rest =>
      let '(ok, rw') := spec_checkRateLimit t rw in
      ok :: spec_rateVerdicts rest rw'
  end.

(* ===================================================================== *)
(** ** Observations on frames and worlds *)

Definition is_ERROR (code : string) (event : ServerEvent) : bool :=
  match event with
  | ERROR c _ => String.eqb c code
  | _ => false
  end.

Definition is_MESSAGE_RECEIVED (event : ServerEvent) : bool :=
  match event with MESSAGE_RECEIVED _ => true | _ => false end.

Definition is_USER_STOPPED_TYPING (event : ServerEvent) : bool :=
  match event with USER_STOPPED_TYPING _ _ => true | _ => false end.

Definition is_USER_LEFT (event : ServerEvent) : bool :=
  match event with USER_LEFT _ _ => true | _ => false end.

(** The subscriber set of a room ([undefined] reads as the empty set). *)
Definition subscribers {S} (w : World S) (roomId : string) : JsSet :=
  default [] (roomSubscriptions w !! roomId).

(** The timers pending for the session of socket [ws]. *)
Definition pendingTimers {S} (w : World S) (ws : nat) : list nat :=
  (map_to_list (filter (λ ht, timer_state ht.2 = ws) (timers w))).*1.

(** The session of a connection is authorized: a JOIN_ROOM succeeded. *)
Definition authorized (state : ConnectionState) : bool :=
  truthy (userId state) && truthy (username state).

(* ===================================================================== *)
(** ** A small program logic for promises *)

(** Whatever the outcome, the computation takes a state to one related to
    it by [R]. *)
Definition Steps {S A} (R : relation S) (m : M S A) : Prop :=
  ∀ s, R s (m s).2.

(** The states agree on the observation [f]. *)
Definition same {S X} (f : S → X) : relation S := λ s s', f s' = f s.

(** Every call of the unit of work steps along [R]. *)
Record StepsUow {S} (R : relation S) (uow : UnitOfWork S) : Prop := {
  st_users_findById id : Steps R (users_findById (users uow) id);
  st_users_findByUsername n : Steps R (users_findByUsername (users uow) n);
  st_users_save u : Steps R (users_save (users uow) u);
  st_users_findByIds ids : Steps R (users_findByIds (users uow) ids);
  st_users_updateStatus id st :
    Steps R (users_updateStatus (users uow) id st);
  st_users_updateLastSeen id :
    Steps R (users_updateLastSeen (users uow) id);
  st_messages_findById id : Steps R (messages_findById (messages uow) id);
  st_messages_findByRoom r n :
    Steps R (messages_findByRoom (messages uow) r n);
  st_messages_save m : Steps R (messages_save (messages uow) m);
  st_messages_update m : Steps R (messages_update (messages uow) m);
  st_messages_delete id : Steps R (messages_delete (messages uow) id);
  st_rooms_findById id : Steps R (rooms_findById (rooms uow) id);
  st_rooms_findAll : Steps R (rooms_findAll (rooms uow));
  st_rooms_addParticipant r u :
    Steps R (rooms_addParticipant (rooms uow) r u);
  st_rooms_removeParticipant r u :
    Steps R (rooms_removeParticipant (rooms uow) r u);
  st_rooms_getParticipants r :
    Steps R (rooms_getParticipants (rooms uow) r);
  st_rooms_getParticipantCount r :
    Steps R (rooms_getParticipantCount (rooms uow) r);
}.

(** The registry of the manager: the world without the store and without
    the traces of calls. *)
Definition registry {S} (w : World S) :=
  (heap w, connections w, userConnections w, roomSubscriptions w,
   timers w, nextTimer w).

(** A relation on worlds that a change of the store, a frame handed to a
    socket of no interest, an emitted event or a console line respects. *)
Record Quiet {S} (R : relation (World S)) : Prop := {
  quiet_store w s : R w (set_store s w);
  quiet_emitted w l : R w (set_emitted l w);
  quiet_console w l : R w (set_console l w);
}.

(** The frames handed to sockets between two worlds all satisfy [P]. *)
Definition sends {S} (P : nat * ServerEvent → Prop) : relation (World S) :=
  λ w w', ∃ l, sent w' = sent w ++ l ∧ Forall P l.

(** The events the authorization gate guards. *)
Definition gated (event : ClientEvent) : bool :=
  match event with
  | SEND_MESSAGE _ _ _ | EDIT_MESSAGE _ _ | DELETE_MESSAGE _
  | TYPING_START _ | TYPING_STOP _ => true
  | _ => false
  end.

(** [R] accepts that a frame satisfying [P] is handed to its socket. *)
Definition Accepts {S} (R : relation (World S))
    (P : nat * ServerEvent → Prop) : Prop :=
  ∀ w x, P x → R w (set_sent (sent w ++ [x]) w).

(** What the rate limiter reads and writes of a connection: where the
    connection ids point, and the user and the window of socket [ws]. *)
Definition rateView {S} (ws : nat) (w : World S) :=
  (connections w, userId (stateOf w ws), username (stateOf w ws),
   lastMessageTime (stateOf w ws), messageCount (stateOf w ws)).

(** The task is a SEND_MESSAGE frame on connection [cid]. *)
Definition isSendOn (cid : string) (task : Task) : Prop :=
  ∃ r c rt, task = ws_message cid (Valid (SEND_MESSAGE r c rt)).

Definition RATE_LIMITED_frame (ws : nat) : nat * ServerEvent :=
  (ws, ERROR "RATE_LIMITED" "Too many messages. Please slow down.").

(** Inside the window that opens at [t1]: before the first attempt the
    count is zero or the stamp has expired; after [k] attempts the count is
    [k] and the stamp lies in the window. *)
Definition inWindow (t1 : Z) (k : nat) (st : ConnectionState) : Prop :=
  match k with
  | 0 => messageCount st = 0%Z ∨ (lastMessageTime st < t1 - 60000)%Z
  | _ => messageCount st = Z.of_nat k ∧ (t1 ≤ lastMessageTime st)%Z
  end.

(** An observation of the world that looks neither at the store nor at the
    traces of calls. *)
Record Blind {S X} (f : World S → X) : Prop := {
  blind_store w s : f (set_store s w) = f w;
  blind_sent w l : f (set_sent l w) = f w;
  blind_emitted w l : f (set_emitted l w) = f w;
  blind_console w l : f (set_console l w) = f w;
}.

(** The world once the limiter has counted an attempt on socket [ws]. *)
Definition counted {S} (env : Env) (ws : nat) (w : World S) : World S :=
  set_heap (<[ws := (checkRateLimit (now env) (stateOf w ws)).2]> (heap w)) w.

(** A SEND_MESSAGE frame of connection [cid], made inside the window that
    opens at [t1]. *)
Definition attemptInWindow (cid : string) (t1 : Z) (et : Env * Task) : Prop :=
  isSendOn cid et.2 ∧ (t1 ≤ now et.1 < t1 + 60000)%Z.

(** Connection [cid] is registered on socket [ws], authorized, and [k]
    attempts into the window that opens at [t1]. *)
Definition attempted {S} (cid : string) (ws : nat) (t1 : Z) (k : nat)
    (w : World S) : Prop :=
  connections w !! cid = Some ws
  ∧ authorized (stateOf w ws) = true
  ∧ inWindow t1 k (stateOf w ws).

(** The world after the first two steps of [removeConnection]: the typing
    timer is cancelled, the room of the session is left and its subscribers
    are told. *)
Definition departed {S} (id : string) (w : World S) : World S :=
  match connections w !! id with
  | Some ws =>
      let state := stateOf w ws in
      ((match typingTimeout state with
        | Some handle => ConnectionManager.clearTimeout handle
        | None => ret tt
        end ;;;
        if truthy (roomId state) then
          ConnectionManager.leaveRoom id
            (ConnectionManager.asString (roomId state)) ;;;
          ConnectionManager.broadcastToRoom
            (ConnectionManager.asString (roomId state))
            (USER_LEFT (userId state)
               (ConnectionManager.asString (roomId state)))
            (Some id)
        else ret tt) w).2
  | None => w
  end.

(* ===================================================================== *)
(** ** Scenarios *)

(** The attempts of a fresh connection: one at 100 s, thirty more one
    second apart, and a last one at 165 s. *)
Definition burst : list Z :=
  100000%Z :: ((λ i, 100000 + 1000 * Z.of_nat i)%Z <$> seq 1 30).

Definition burst_then_wait : list Z := burst ++ [165000%Z].

(** The SQLite server after two sockets opened and joined "general" as
    alice and bob. *)
Definition twoInGeneral : World sqlite.Database :=
  execAll sqliteServer
    [ (mkEnv 2000 "", ws_open "c1" 1);
      (mkEnv 2100 "", ws_open "c2" 2);
      (mkEnv 3000 "u-alice",
       ws_message "c1" (Valid (JOIN_ROOM "general" "alice")));
      (mkEnv 4000 "u-bob",
       ws_message "c2" (Valid (JOIN_ROOM "general" "bob"))) ]
    (boot (sqlite.migrated 1000)).

(** Another process takes the write lock of the database file. *)
Definition lockFile (w : World sqlite.Database) : World sqlite.Database :=
  disturb
    (sqlite.mkDatabase true (sqlite.t_users (store w))
       (sqlite.t_rooms (store w)) (sqlite.t_room_participants (store w))
       (sqlite.t_messages (store w)))
    (broken w) w.

(** In [twoInGeneral], alice writes "hello" and bob replies to it. *)
Definition withReply : World sqlite.Database :=
  execAll sqliteServer
    [ (mkEnv 5000 "m1",
       ws_message "c1" (Valid (SEND_MESSAGE "general" "hello" None)));
      (mkEnv 6000 "m2",
       ws_message "c2"
         (Valid (SEND_MESSAGE "general" "hi alice" (Some "m1")))) ]
    twoInGeneral.

(** bob's reply, as the repository returns it. *)
Definition bobsReply : Message.t :=
  Message.mk "m2" "general" "u-bob" "hi alice" 6000 None (Some "m1").

(** One socket that joins "general" and then "random" without leaving. *)
Definition joinedTwice : World sqlite.Database :=
  execAll sqliteServer
    [ (mkEnv 2000 "", ws_open "c1" 1);
      (mkEnv 3000 "u-alice",
       ws_message "c1" (Valid (JOIN_ROOM "general" "alice")));
      (mkEnv 4000 "",
       ws_message "c1" (Valid (JOIN_ROOM "random" "alice"))) ]
    (boot (sqlite.migrated 1000)).

(** The reply info of the DTO a conversion returns. *)
Definition replyInfoOf {S} (out : Res MessageDTO.t * S)
    : option (option ReplyInfo.t) :=
  match out.1 with
  | Ok dto => Some (MessageDTO.replyTo dto)
  | Throw _ => None
  end.

(* ===================================================================== *)
(** ** Typing timers *)

(** What the timers read and write: the sessions and the table of pending
    callbacks. *)
Definition timerView {S} (w : World S) := (heap w, timers w, nextTimer w).

(** Every pending timer is the one its session holds in [typingTimeout],
    and no handle the runtime has yet to give out is pending. *)
Definition timersOwned {S} (w : World S) : Prop :=
  (∀ h t, timers w !! h = Some t →
          typingTimeout (stateOf w (timer_state t)) = Some h)
  ∧ (∀ h, nextTimer w ≤ h → timers w !! h = None).

Definition keepsTimers {S} : relation (World S) :=
  λ w w', timersOwned w → timersOwned w'.

(** The task is a TYPING_START frame on connection [cid]. *)
Definition isTypingStartOn (cid : string) (et : Env * Task) : Prop :=
  ∃ r, et.2 = ws_message cid (Valid (TYPING_START r)).

(** alice and bob are in "general", carol is in "random"; alice tells
    "random", a room she is not in, that she is typing. *)
Definition typingElsewhere : World sqlite.Database :=
  execAll sqliteServer
    [ (mkEnv 4100 "", ws_open "c3" 3);
      (mkEnv 4200 "u-carol",
       ws_message "c3" (Valid (JOIN_ROOM "random" "carol")));
      (mkEnv 5000 "", ws_message "c1" (Valid (TYPING_START "random"))) ]
    twoInGeneral.

(** alice, in "general" with bob, says three times that she is typing. *)
Definition threeStarts : list (Env * Task) :=
  [ (mkEnv 5000 "", ws_message "c1" (Valid (TYPING_START "general")));
    (mkEnv 6000 "", ws_message "c1" (Valid (TYPING_START "general")));
    (mkEnv 7000 "", ws_message "c1" (Valid (TYPING_START "general"))) ].

(* ===================================================================== *)
(** ** What the SQLite store holds *)

Definition hasRoom (roomId : string) (db : sqlite.Database) : Prop :=
  Exists (λ row, sqlite.RoomRow.id row = roomId) (sqlite.t_rooms db).

Definition hasUser (userId : string) (db : sqlite.Database) : Prop :=
  Exists (λ row, sqlite.UserRow.id row = userId) (sqlite.t_users db).

Definition hasMessage (messageId : string) (db : sqlite.Database) : Prop :=
  Exists (λ row, sqlite.MessageRow.id row = messageId)
         (sqlite.t_messages db).

(** The store is as writable as before and holds the same rooms, the same
    messages and users with the same ids. *)
Definition dbKeeps (db db' : sqlite.Database) : Prop :=
  sqlite.locked db' = sqlite.locked db
  ∧ sqlite.t_rooms db' = sqlite.t_rooms db
  ∧ sqlite.t_messages db' = sqlite.t_messages db
  ∧ sqlite.UserRow.id <$> sqlite.t_users db'
    = sqlite.UserRow.id <$> sqlite.t_users db.

(** In [twoInGeneral], alice leaves "general" and then writes to it. *)
Definition aliceLeaves : Env * Task :=
  (mkEnv 5000 "", ws_message "c1" (Valid (LEAVE_ROOM "general"))).

Definition aliceWritesAfterLeaving : Env * Task :=
  (mkEnv 6000 "m1",
   ws_message "c1" (Valid (SEND_MESSAGE "general" "still here" None))).

(** alice, in "general" with bob, sends 31 messages one second apart. *)
Definition thirtyOneSends : list (Env * Task) :=
  (λ i, (mkEnv (10000 + 1000 * Z.of_nat i)
               (String (Ascii.ascii_of_nat (65 + i)) ""),
         ws_message "c1" (Valid (SEND_MESSAGE "general" "hi" None))))
  <$> seq 0 31.

(** A third socket opens in [twoInGeneral] and joins no room. *)
Definition withNewcomer : World sqlite.Database :=
  exec sqliteServer (mkEnv 4500 "") (ws_open "c3" 3) twoInGeneral.

(* ===================================================================== *)
(** ** Further observations on the manager *)

(** The rate window of a session: its stamp and its count. *)
Definition rateWindowOf {S} (w : World S) (ws : nat) : Z * Z :=
  (lastMessageTime (stateOf w ws), messageCount (stateOf w ws)).

(** Attempts at [times], each at most [d] milliseconds after the one
    before it; the first is measured from [prev]. *)
Fixpoint gapsWithin (d prev : Z) (times : list Z) : Prop :=
  match times with
  | [] => True
  | t :: rest => (t - prev ≤ d)%Z ∧ gapsWithin d t rest
  end.

(** No room is mapped to an empty subscriber set, and a subscriber set
    holds a connection id once. *)
Definition subscriptionsTidy {S} (w : World S) : Prop :=
  ∀ r subs, roomSubscriptions w !! r = Some subs → subs ≠ [] ∧ NoDup subs.

Definition keepsTidy {S} : relation (World S) :=
  λ w w', subscriptionsTidy w → subscriptionsTidy w'.

(** A relation on worlds that the writes of the handlers to the registry
    respect; the write of the rate limiter is not among them. *)
Record Stable {S} (R : relation (World S)) : Prop := {
  stable_quiet : Quiet R;
  stable_accepts : Accepts R (λ _, True);
  stable_session ws u r n :
    Steps R (ConnectionManager.setState ws (λ st,
      mkState (Some u) (Some r) (Some n) (typingTimeout st)
              (lastMessageTime st) (messageCount st)));
  stable_typing ws h :
    Steps R (ConnectionManager.setState ws (λ st,
      mkState (userId st) (roomId st) (username st) h
              (lastMessageTime st) (messageCount st)));
  stable_clearTimeout h : Steps R (ConnectionManager.clearTimeout h);
  stable_setTimeout t : Steps R (ConnectionManager.setTimeout t);
  stable_joinRoom cid r : Steps R (ConnectionManager.joinRoom cid r);
  stable_leaveRoom cid r : Steps R (ConnectionManager.leaveRoom cid r);
  stable_userConnections u cid w :
    R w (set_userConnections (<[u := cid]> (userConnections w)) w);
  stable_connections c w : R w (set_connections c w);
}.

(** The sockets a broadcast to [roomId] reaches, in the order of the
    subscriber set: the subscribers other than the excluded one that are
    registered on a socket that is writable. *)
Definition recipients {S} (w : World S) (roomId : string)
    (exclude : option string) : list nat :=
  omap (λ cid,
          if decide (Some cid = exclude) then None
          else match connections w !! cid with
               | Some ws => if decide (ws ∈ broken w) then None else Some ws
               | None => None
               end)
       (subscribers w roomId).

(** The sockets on which the broadcast fails. *)
Definition unreachable {S} (w : World S) (roomId : string)
    (exclude : option string) : list nat :=
  omap (λ cid,
          if decide (Some cid = exclude) then None
          else match connections w !! cid with
               | Some ws => if decide (ws ∈ broken w) then Some ws else None
               | None => None
               end)
       (subscribers w roomId).

(** The task is not a SEND_MESSAGE frame. *)
Definition notSend (task : Task) : Prop :=
  match task with
  | ws_message _ (Valid (SEND_MESSAGE _ _ _)) => False
  | _ => True
  end.

(* ===================================================================== *)
(** ** Further observations on the SQLite store *)

(** A user row holds this name, compared without case. *)
Definition nameTaken (username : string) (db : sqlite.Database) : Prop :=
  Exists (λ row, sqlite.nocase (sqlite.UserRow.username row)
                 = sqlite.nocase username)
         (sqlite.t_users db).

(** The rows of the messages of a room that are not deleted. *)
Definition liveRows (roomId : string) (db : sqlite.Database)
    : list sqlite.MessageRow.t :=
  filter (λ r, sqlite.MessageRow.room_id r = roomId
               ∧ sqlite.MessageRow.is_deleted r = 0%Z)
         (sqlite.t_messages db).

(** The row of a message that is not deleted. *)
Definition liveMessage (messageId : string) (row : sqlite.MessageRow.t)
    (db : sqlite.Database) : Prop :=
  head (filter (λ r, sqlite.MessageRow.id r = messageId
                     ∧ sqlite.MessageRow.is_deleted r = 0%Z)
               (sqlite.t_messages db)) = Some row.

Definition isParticipant (roomId userId : string) (db : sqlite.Database)
    : Prop :=
  Exists (λ row, sqlite.RoomParticipantRow.room_id row = roomId
                 ∧ sqlite.RoomParticipantRow.user_id row = userId)
         (sqlite.t_room_participants db).


(** What closing a connection leaves alone in the store: the rooms, the
    participants, the messages and the identity of the users. *)
Definition tablesOf (db : sqlite.Database) :=
  (sqlite.t_rooms db, sqlite.t_room_participants db, sqlite.t_messages db,
   sqlite.UserRow.id <$> sqlite.t_users db,
   sqlite.UserRow.username <$> sqlite.t_users db).

(* ===================================================================== *)
(** ** domain/entities.ts: the room factory *)

Module RoomFactory.
(** [description] is optional: [params.description ?? ""]. *)
Definition create (env : Env) (name : string) (description : option string)
    : Room.t :=
  Room.mk (nanoid env) name (default "" description) (now env) [].

Definition withId (env : Env) (id name : string)
    (description : option string) : Room.t :=
  Room.mk id name (default "" description) (now env) [].

(** The participants are copied ([new Set(room.participants)]) before the
    user is added: the room given is not written. *)
Definition addParticipant (room : Room.t) (userId : string) : Room.t :=
  Room.mk (Room.id room) (Room.name room) (Room.description room)
          (Room.createdAt room) (set_add userId (Room.participants room)).

Definition removeParticipant (room : Room.t) (userId : string) : Room.t :=
  Room.mk (Room.id room) (Room.name room) (Room.description room)
          (Room.createdAt room) (set_delete userId (Room.participants room)).
End RoomFactory.

(* ===================================================================== *)
(** ** application/useCases.ts: the history of a room *)

Module GetRoomHistoryOutput.
Record t := mk {
  messages : list MessageDTO.t;
  users : list User.t;
  hasMore : bool;
}.
End GetRoomHistoryOutput.

Module roomHistory.

(** [SQLiteMessageRepository.findByRoom] with its third argument: when
    [before] is given, only the messages created before it are taken. *)
Definition findByRoom (roomId : string) (limit : nat) (before : option Z)
    : M sqlite.Database (list Message.t) :=
  gets (λ db,
    let live :=
      filter (λ r, sqlite.MessageRow.room_id r = roomId
                   ∧ sqlite.MessageRow.is_deleted r = 0%Z)
             (sqlite.t_messages db) in
    let candidates :=
      match before with
      | Some b => filter (λ r, (sqlite.MessageRow.created_at r < b)%Z) live
      | None => live
      end in
    let rows :=
      take limit
        (@sqlite.order_by _ sqlite.created_at_desc
           sqlite.created_at_desc_dec candidates) in
    reverse (sqlite.messageRowToEntity <$> rows)).

Section getRoomHistory.
Context {S : Type}.
Variable uow : UnitOfWork S.
(** [uow.messages.findByRoom], called with three arguments. *)
Variable messages_findByRoom3 :
  string → nat → option Z → M S (list Message.t).

(** [messages.slice(0, -1)] *)
Definition allButLast {A} (l : list A) : list A := take (length l - 1) l.

Definition getRoomHistory (roomId : string) (limit : option nat)
    (before : option Z) : M S (Result GetRoomHistoryOutput.t) :=
  let limit := default 50 limit in
  room <- rooms_findById (rooms uow) roomId ;;
  match room with
  | None => ret (failure (UseCaseError.mk "Room not found" "ROOM_NOT_FOUND"))
  | Some _ =>
      msgs <- messages_findByRoom3 roomId (limit + 1) before ;;
      let hasMore := bool_decide (limit < length msgs) in
      let messagesToReturn := if hasMore then allButLast msgs else msgs in
      messageDTOs <- mapM (useCases.messageToDTO uow) messagesToReturn ;;
      participantIds <- rooms_getParticipants (rooms uow) roomId ;;
      us <- users_findByIds (users uow) participantIds ;;
      ret (success (GetRoomHistoryOutput.mk messageDTOs us hasMore))
  end.
End getRoomHistory.
End roomHistory.

(* ===================================================================== *)
(** ** infrastructure/events.ts: the typed event emitter

    A handler is a function object, so it is known by its reference; what
    calling it does is given from outside ([call]).  The listeners of this
    development do not call the emitter back; the wrapper that [once] makes
    does, and it is modelled with the Set it captured.  A [Set] of handlers
    is the list of its elements in insertion order; the Set objects live in
    a heap, because the closures returned by [on] keep the Set they were
    made for. *)

Module events.

(** What a call of a listener does: it returns, it throws, or (an [async]
    listener) it returns a promise that rejects later. *)
Inductive Outcome :=
  | Returned
  | Thrown (error : string)
  | RejectedLater (error : string).

Inductive Handler :=
  | listener (ref : nat)
  | wrappedHandler (ref : nat) (inner : nat) (captured : nat).

#[global] Instance Handler_eq_dec : EqDecision Handler.
Proof. solve_decision. Defined.

Definition add (h : Handler) (s : list Handler) : list Handler :=
  if decide (h ∈ s) then s else s ++ [h].

Definition remove (h : Handler) (s : list Handler) : list Handler :=
  filter (λ x, x ≠ h) s.

(** [this.handlers] maps an event to a Set object; [objects] is the heap of
    Set objects; [nextObject] is the next reference the runtime gives. *)
Record Emitter := mkEmitter {
  handlers : gmap string nat;
  objects : gmap nat (list Handler);
  nextObject : nat;
}.

Definition empty : Emitter := mkEmitter ∅ ∅ 0.

(** The emitter, the state the listeners act on, and the console. *)
Record State (U : Type) := mkState {
  emitter : Emitter;
  user : U;
  console : list string;
}.
Arguments mkState {U}.
Arguments emitter {U}.
Arguments user {U}.
Arguments console {U}.

(** The function [on] returns: it holds the Set and the handler. *)
Record Unsubscribe := mkUnsubscribe {
  captured_handlers : nat;
  captured_handler : Handler;
}.

Section emitter.
Context {U D : Type}.
Variable call : nat → D → U → Outcome * U.

Definition set_emitter (e : Emitter) (s : State U) : State U :=
  mkState e (user s) (console s).

Definition setOf (e : Emitter) (ref : nat) : list Handler :=
  default [] (objects e !! ref).

Definition on (event : string) (handler : Handler)
    : M (State U) Unsubscribe :=
  λ s,
    let e := emitter s in
    match handlers e !! event with
    | Some ref =>
        (Ok (mkUnsubscribe ref handler),
         set_emitter
           (mkEmitter (<[event := ref]> (handlers e))
              (<[ref := add handler (setOf e ref)]> (objects e))
              (nextObject e)) s)
    | None =>
        let ref := nextObject e in
        (Ok (mkUnsubscribe ref handler),
         set_emitter
           (mkEmitter (<[event := ref]> (handlers e))
              (<[ref := add handler []]> (objects e))
              (Datatypes.S ref)) s)
    end.

(** Calling the function [on] returned: [handlers.delete(handler)] on the
    Set it holds. *)
Definition unsubscribe (u : Unsubscribe) : M (State U) unit :=
  modify (λ s,
    let e := emitter s in
    match objects e !! captured_handlers u with
    | Some hs =>
        set_emitter
          (mkEmitter (handlers e)
             (<[captured_handlers u := remove (captured_handler u) hs]>
                (objects e))
             (nextObject e)) s
    | None => s
    end).

(** [once]: the wrapper is a new function object; the [unsubscribe] it
    calls is the one [on] returns for it, so it holds the Set the wrapper
    is added to. *)
Definition once (event : string) (inner : nat) : M (State U) Unsubscribe :=
  λ s,
    let e := emitter s in
    let wrapperRef := nextObject e in
    let e1 := mkEmitter (handlers e) (objects e) (Datatypes.S wrapperRef) in
    let target :=
      match handlers e1 !! event with
      | Some ref => ref
      | None => nextObject e1
      end in
    on event (wrappedHandler wrapperRef inner target) (set_emitter e1 s).

Definition callListener (ref : nat) (data : D) : M (State U) Outcome :=
  λ s, let '(o, u) := call ref data (user s) in
       (Ok o, mkState (emitter s) u (console s)).

Definition callHandler (h : Handler) (data : D) : M (State U) Outcome :=
  match h with
  | listener ref => callListener ref data
  | wrappedHandler _ inner target =>
      unsubscribe (mkUnsubscribe target h) ;;;
      callListener inner data
  end.

Definition console_error (line : string) : M (State U) unit :=
  modify (λ s, mkState (emitter s) (user s) (console s ++ [line])).

(** [for (const handler of handlers)]: the iteration of a Set visits the
    elements that are in it when their turn comes. *)
Definition emit (event : string) (data : D) : M (State U) unit :=
  found <- gets (λ s, handlers (emitter s) !! event) ;;
  match found with
  | None => ret tt
  | Some ref =>
      elements <- gets (λ s, setOf (emitter s) ref) ;;
      forM_ elements (λ handler,
        present <- gets (λ s,
          bool_decide (handler ∈ setOf (emitter s) ref)) ;;
        if present then
          outcome <- callHandler handler data ;;
          match outcome with
          | Thrown error =>
              console_error ("Error in event handler for " +:+ event
                             +:+ ": " +:+ error)
          | _ => ret tt
          end
        else ret tt)
  end.

Definition off (event : string) (handler : option Handler)
    : M (State U) unit :=
  modify (λ s,
    let e := emitter s in
    match handler with
    | Some h =>
        match handlers e !! event with
        | Some ref =>
            set_emitter
              (mkEmitter (handlers e)
                 (<[ref := remove h (setOf e ref)]> (objects e))
                 (nextObject e)) s
        | None => s
        end
    | None =>
        set_emitter
          (mkEmitter (delete event (handlers e)) (objects e) (nextObject e))
          s
    end).

Definition removeAllListeners : M (State U) unit :=
  modify (λ s,
    let e := emitter s in
    set_emitter (mkEmitter ∅ (objects e) (nextObject e)) s).

Definition listenerCount (event : string) : M (State U) nat :=
  gets (λ s,
    match handlers (emitter s) !! event with
    | Some ref => length (setOf (emitter s) ref)
    | None => 0
    end).
End emitter.

(** The listeners, called in order on the state and the console. *)
Fixpoint callAll {U D} (call : nat → D → U → Outcome * U) (event : string)
    (refs : list nat) (data : D) (u : U) (lines : list string)
    : U * list string :=
  match refs with
  | [] => (u, lines)
  | ref :: rest =>
      let '(o, u') := call ref data u in
      callAll call event rest data u'
        (match o with
         | Thrown error =>
             lines ++ ["Error in event handler for " +:+ event
                       +:+ ": " +:+ error]
         | _ => lines
         end)
  end.

(** The listener a handler calls. *)
Definition calls (h : Handler) : nat :=
  match h with
  | listener ref => ref
  | wrappedHandler _ inner _ => inner
  end.

Definition isListener (h : Handler) : Prop :=
  match h with listener _ => True | wrappedHandler _ _ _ => False end.

#[global] Instance isListener_dec h : Decision (isListener h).
Proof. destruct h; simpl; apply _. Defined.

(** The emitter with the Set at [ref] holding [cur]. *)
Definition emitting (e : Emitter) (ref : nat) (cur : list Handler)
    : Emitter :=
  mkEmitter (handlers e) (<[ref := cur]> (objects e)) (nextObject e).

(** The references of the Set objects in use are below [nextObject]. *)
Definition allocated (e : Emitter) : Prop :=
  ∀ event ref, handlers e !! event = Some ref → ref < nextObject e.

(** Every wrapper in the Set at [ref] captured that Set. *)
Definition wrappersAtHome (ref : nat) (hs : list Handler) : Prop :=
  Forall (λ h, match h with
               | listener _ => True
               | wrappedHandler _ _ target => target = ref
               end) hs.

(** Listeners that log their reference and payload; listener 2 throws. *)
Definition logCall (ref : nat) (data : nat) (log : list (nat * nat))
    : Outcome * list (nat * nat) :=
  (if decide (ref = 2) then Thrown "boom" else Returned,
   log ++ [(ref, data)]).

(** Listeners 1 and 2 are registered for "ping". *)
Definition twoListeners : State (list (nat * nat)) :=
  ((on "ping" (listener 1) ;;;
    on "ping" (listener 2)) (mkState empty [] [])).2.

(** Listeners 1 and 2 are registered for "ping", then listener 3 once. *)
Definition threeHandlers : State (list (nat * nat)) :=
  ((on "ping" (listener 1) ;;;
    on "ping" (listener 2) ;;;
    once "ping" 3) (mkState empty [] [])).2.
End events.

(** Every user that has an entry in [userConnections] keeps one. *)
Definition keepsUsers {S} : relation (World S) :=
  λ w w', ∀ u, is_Some (userConnections w !! u) →
               is_Some (userConnections w' !! u).

(* ===================================================================== *)
(** ** shared/validation.ts: the schema of the content of a message

    The schema works on the UTF-16 code units of the string: [length]
    counts them, [trim] strips them. *)

Module validation.
Inductive SafeParseResult (A : Type) :=
  | parsed (data : A)
  | rejected (issues : list string).
Arguments parsed {A}.
Arguments rejected {A}.

(** [WhiteSpace] and [LineTerminator] of ECMAScript, the code units that
    [String.prototype.trim] strips. *)
Definition isWhiteSpace (c : N) : bool :=
  ((9 <=? c) && (c <=? 13) || (c =? 32) || (c =? 160) || (c =? 5760)
   || (8192 <=? c) && (c <=? 8202) || (c =? 8232) || (c =? 8233)
   || (c =? 8239) || (c =? 8287) || (c =? 12288) || (c =? 65279))%N.

Fixpoint trimStart (s : list N) : list N :=
  match s with
  | [] => []
  | c :: rest => if isWhiteSpace c then trimStart rest else s
  end.

Definition trimEnd (s : list N) : list N :=
  reverse (trimStart (reverse s)).

Definition trim (s : list N) : list N := trimEnd (trimStart s).

(** [z.string().min(1, ...).max(MAX_MESSAGE_LENGTH, ...).transform(trim)]:
    the checks are made on the string as given and each one that fails adds
    its issue; the transformation runs when none has failed. *)
Definition MessageContentSchema (input : list N)
    : SafeParseResult (list N) :=
  let issues :=
    (if (Z.of_nat (length input) <? 1)%Z
     then ["Message cannot be empty"] else [])
    ++ (if (CONSTANTS.MAX_MESSAGE_LENGTH <? Z.of_nat (length input))%Z
        then ["Message cannot exceed 2000 characters"] else []) in
  match issues with
  | [] => parsed (trim input)
  | _ => rejected issues
  end.
End validation.

(* ===================================================================== *)
(** * Proofs *)

(** ** Rules of the program logic *)

Section Promises.
Context {S : Type}.

Lemma bind_Ok {A B} (m : M S A) (k : A → M S B) s a s' :
  m s = (Ok a, s') → bind m k s = k a s'.
Proof. intros H. unfold bind. by rewrite H. Qed.

Lemma bind_Throw {A B} (m : M S A) (k : A → M S B) s e s' :
  m s = (Throw e, s') → bind m k s = (Throw e, s').
Proof. intros H. unfold bind. by rewrite H. Qed.

#[global] Instance same_preorder {X} (f : S → X) : PreOrder (same f).
Proof.
  split; [by intros s|]. unfold same. intros s1 s2 s3 H1 H2. congruence.
Qed.

Context (R : relation S) `{!PreOrder R}.

Lemma Steps_ret {A} (a : A) : Steps R (ret a).
Proof. by intros s. Qed.

Lemma Steps_throw {A} e : Steps R (throw (A:=A) e).
Proof. by intros s. Qed.

Lemma Steps_gets {A} (g : S → A) : Steps R (gets g).
Proof. by intros s. Qed.

Lemma Steps_modify (g : S → S) : (∀ s, R s (g s)) → Steps R (modify g).
Proof. intros H s. apply H. Qed.

(** The continuation may use that its argument is what [m] returned. *)
Lemma Steps_bind_val {A B} (m : M S A) (k : A → M S B) :
  Steps R m →
  (∀ s a, (m s).1 = Ok a → R (m s).2 (k a (m s).2).2) →
  Steps R (bind m k).
Proof.
  intros Hm Hk s. unfold bind. specialize (Hm s). specialize (Hk s).
  destruct (m s) as [[a|e] s']; simpl in *; [|done].
  etrans; [done|]. by apply Hk.
Qed.

Lemma Steps_bind {A B} (m : M S A) (k : A → M S B) :
  Steps R m → (∀ a, Steps R (k a)) → Steps R (bind m k).
Proof. intros Hm Hk. apply Steps_bind_val; [done|]. intros s a _. apply Hk. Qed.

Lemma Steps_try_catch {A} (m : M S A) h :
  Steps R m → (∀ e, Steps R (h e)) → Steps R (try_catch m h).
Proof.
  intros Hm Hh s. unfold try_catch. specialize (Hm s).
  destruct (m s) as [[a|e] s']; simpl in *; [done|].
  etrans; [done|]. apply Hh.
Qed.

Lemma Steps_mapM {A B} (g : A → M S B) xs :
  (∀ x, Steps R (g x)) → Steps R (mapM g xs).
Proof.
  intros Hg. induction xs as [|x xs IH]; simpl.
  - apply Steps_ret.
  - apply Steps_bind; [done|]. intros y.
    apply Steps_bind; [done|]. intros ys. apply Steps_ret.
Qed.

Lemma Steps_forM_ {A} xs (g : A → M S unit) :
  (∀ x, Steps R (g x)) → Steps R (forM_ xs g).
Proof.
  intros Hg. induction xs as [|x xs IH]; simpl.
  - apply Steps_ret.
  - apply Steps_bind; [done|]. by intros _.
Qed.
End Promises.

(** One step of a proof in the logic: split the computation at its head. *)
Ltac steps_step :=
  match goal with
  | |- Steps _ (bind _ _) => apply Steps_bind; [try apply _| |intros ?]
  | |- Steps _ (try_catch _ _) =>
      apply Steps_try_catch; [try apply _| |intros ?]
  | |- Steps _ (mapM _ _) => apply Steps_mapM; [try apply _|intros ?]
  | |- Steps _ (forM_ _ _) => apply Steps_forM_; [try apply _|intros ?]
  | |- Steps _ (ret _) => apply Steps_ret; try apply _
  | |- Steps _ (throw _) => apply Steps_throw; try apply _
  | |- Steps _ (gets _) => apply Steps_gets; try apply _
  | |- Steps _ (modify _) => apply Steps_modify; intros ?
  | |- Steps _ (match ?x with _ => _ end) => destruct x
  | |- Steps _ (let '(_, _) := ?x in _) => destruct x
  end.

Ltac steps := repeat steps_step.

(** ** The use cases step along whatever the unit of work steps along *)

Section UseCasesStep.
Context {S : Type} (R : relation S) `{!PreOrder R}.
Variable uow : UnitOfWork S.
Variable emit : ChatEvent → M S unit.
Variable env : Env.
Hypothesis Huow : StepsUow R uow.
Hypothesis Hemit : ∀ e, Steps R (emit e).

Lemma Steps_messageToDTO m : Steps R (useCases.messageToDTO uow m).
Proof. unfold useCases.messageToDTO. steps; apply Huow. Qed.

Lemma Steps_getOrCreateUser n :
  Steps R (useCases.getOrCreateUser uow env n).
Proof. unfold useCases.getOrCreateUser. steps; apply Huow. Qed.

Lemma Steps_joinRoom r n : Steps R (useCases.joinRoom uow emit env r n).
Proof.
  unfold useCases.joinRoom, useCases.getRoomMessagesWithAuthors,
    useCases.getOnlineParticipants, useCases.emitJoinEvents.
  steps; try apply Huow; try apply Hemit;
    auto using Steps_getOrCreateUser, Steps_messageToDTO.
Qed.

Lemma Steps_leaveRoom r u : Steps R (useCases.leaveRoom uow emit r u).
Proof. unfold useCases.leaveRoom. steps; try apply Huow; apply Hemit. Qed.

Lemma Steps_sendMessage r a c rt :
  Steps R (useCases.sendMessage uow emit env r a c rt).
Proof.
  unfold useCases.sendMessage.
  steps; try apply Huow; try apply Hemit; apply Steps_messageToDTO.
Qed.

Lemma Steps_editMessage i u c :
  Steps R (useCases.editMessage uow emit env i u c).
Proof. unfold useCases.editMessage. steps; try apply Huow; apply Hemit. Qed.

Lemma Steps_deleteMessage i u :
  Steps R (useCases.deleteMessage uow emit i u).
Proof. unfold useCases.deleteMessage. steps; try apply Huow; apply Hemit. Qed.

Lemma Steps_updateUserStatus u st :
  Steps R (useCases.updateUserStatus uow emit u st).
Proof.
  unfold useCases.updateUserStatus. steps; try apply Huow; apply Hemit.
Qed.

Lemma Steps_getRooms : Steps R (useCases.getRooms uow).
Proof. unfold useCases.getRooms. steps; apply Huow. Qed.
End UseCasesStep.

(** ** What the manager's helpers step along *)

Section ManagerSteps.
Context {S : Type}.
Implicit Type w : World S.

#[global] Instance sends_preorder (P : nat * ServerEvent → Prop) :
  PreOrder (sends (S:=S) P).
Proof.
  split.
  - intros w. exists []. by rewrite app_nil_r.
  - intros w1 w2 w3 (l1 & H1 & F1) (l2 & H2 & F2). exists (l1 ++ l2).
    split; [by rewrite H2, H1, app_assoc|]. by apply Forall_app.
Qed.

Lemma sends_Quiet P : Quiet (sends (S:=S) P).
Proof. split; intros; exists []; by rewrite app_nil_r. Qed.

Lemma sends_Accepts P : Accepts (sends (S:=S) P) P.
Proof. intros w x Hx. exists [x]. split; [done|]. by constructor. Qed.

Context (R : relation (World S)) `{!PreOrder R}.
Context (P : nat * ServerEvent → Prop).
Hypothesis HQ : Quiet R.
Hypothesis HA : Accepts R P.

Lemma Steps_lift {A} (m : M S A) : Steps R (lift m).
Proof.
  intros w. unfold lift. destruct (m (store w)) as [r s]. apply HQ.
Qed.

Lemma StepsUow_lift (u : UnitOfWork S) : StepsUow R (liftUow u).
Proof. split; intros; simpl; apply Steps_lift. Qed.

Lemma Steps_console_error line :
  Steps R (ConnectionManager.console_error (S:=S) line).
Proof. apply Steps_modify. intros w. apply HQ. Qed.

Lemma Steps_send ws ev :
  P (ws, ev) → Steps R (ConnectionManager.send (S:=S) ws ev).
Proof.
  intros HP. unfold ConnectionManager.send. apply Steps_try_catch; [done| |].
  - intros w. unfold ConnectionManager.ws_send. case_decide; simpl; [done|].
    by apply HA.
  - intros e. apply Steps_console_error.
Qed.

Lemma Steps_broadcastToRoom r ev ex :
  (∀ ws, P (ws, ev)) →
  Steps R (ConnectionManager.broadcastToRoom (S:=S) r ev ex).
Proof.
  intros HP. unfold ConnectionManager.broadcastToRoom. steps.
  by apply Steps_send.
Qed.

Lemma Steps_emit store0 ev :
  (∀ ws u st, P (ws, USER_STATUS_CHANGED u st)) →
  Steps R (ConnectionManager.emit store0 ev).
Proof.
  intros HP. unfold ConnectionManager.emit, ConnectionManager.getRoomsForUser.
  apply Steps_bind; [done| |].
  { apply Steps_modify. intros w. apply HQ. }
  intros _. destruct ev; steps; simpl;
    try (by apply Steps_broadcastToRoom); apply Steps_lift.
Qed.
End ManagerSteps.

(** ** Sending a frame *)

Section Send.
Context {S : Type}.
Implicit Type w : World S.

Lemma send_eq ws ev w :
  ConnectionManager.send ws ev w =
  (Ok tt,
   if decide (ws ∈ broken w)
   then set_console
          (console w ++ ["Failed to send message: socket is not writable"]) w
   else set_sent (sent w ++ [(ws, ev)]) w).
Proof.
  unfold ConnectionManager.send, try_catch, ConnectionManager.ws_send.
  by case_decide.
Qed.

Lemma world_eta w :
  mkWorld (store w) (heap w) (broken w) (connections w) (userConnections w)
    (roomSubscriptions w) (timers w) (nextTimer w) (sent w) (emitted w)
    (console w) = w.
Proof. by destruct w. Qed.
End Send.

(** ** C8: the authorization gate *)

(** C8.  A SEND_MESSAGE, EDIT_MESSAGE, DELETE_MESSAGE, TYPING_START or
    TYPING_STOP frame on a connection whose session has no user never
    reaches the use cases: the handler returns, the store and the emitted
    events are untouched, the registry is untouched, and the outcome is the
    same whatever the storage adapter and the environment are.
    SEND_MESSAGE is answered with one UNAUTHORIZED error frame to the
    sender; the other four are ignored without a frame. *)
Theorem C8_unauthorized_frames_stop_at_the_gate
    {S} (store0 : UnitOfWork S) (env : Env) (cid : string) (ws : nat)
    (w : World S) (event : ClientEvent) :
  connections w !! cid = Some ws →
  truthy (userId (stateOf w ws)) = false →
  gated event = true →
  ∃ w',
    ConnectionManager.handleMessage store0 env cid (Valid event) w
      = (Ok tt, w')
    ∧ store w' = store w
    ∧ emitted w' = emitted w
    ∧ registry w' = registry w
    ∧ sent w' = sent w ++
        match event with
        | SEND_MESSAGE _ _ _ =>
            if decide (ws ∈ broken w) then []
            else [(ws, ERROR "UNAUTHORIZED" "Must join a room first")]
        | _ => []
        end
    ∧ (match event with SEND_MESSAGE _ _ _ => True | _ => w' = w end)
    ∧ ∀ (store0' : UnitOfWork S) (env' : Env),
        ConnectionManager.handleMessage store0' env' cid (Valid event) w
          = (Ok tt, w').
Proof.
  intros Hconn Hno Hgated.
  unfold ConnectionManager.handleMessage, bind, gets. rewrite Hconn.
  destruct event; try discriminate Hgated; simpl.
  - (* SEND_MESSAGE *)
    unfold ConnectionManager.handleSendMessage,
      ConnectionManager.validateUserAuthorized, ConnectionManager.sendError,
      ConnectionManager.getState, bind, gets.
    rewrite Hno. simpl. rewrite send_eq. simpl.
    eexists. split; [reflexivity|].
    case_decide; simpl; rewrite ?app_nil_r; repeat split; done.
  - (* EDIT_MESSAGE *)
    unfold ConnectionManager.handleEditMessage, ConnectionManager.getState,
      bind, gets. rewrite Hno. simpl.
    exists w. rewrite app_nil_r. repeat split; done.
  - (* DELETE_MESSAGE *)
    unfold ConnectionManager.handleDeleteMessage, ConnectionManager.getState,
      bind, gets. rewrite Hno. simpl.
    exists w. rewrite app_nil_r. repeat split; done.
  - (* TYPING_START *)
    unfold ConnectionManager.handleTypingStart, ConnectionManager.getState,
      bind, gets. rewrite Hno. simpl.
    exists w. rewrite app_nil_r. repeat split; done.
  - (* TYPING_STOP *)
    unfold ConnectionManager.handleTypingStop, ConnectionManager.getState,
      bind, gets. rewrite Hno. simpl.
    exists w. rewrite app_nil_r. repeat split; done.
Qed.

(** ** C1: the rate limiter *)

(** The verdict and the state after one attempt, from the count and the
    stamp before it. *)
Lemma checkRateLimit_eq now st :
  checkRateLimit now st =
  if (lastMessageTime st <? now - 60000)%Z
  then (true,
        mkState (userId st) (roomId st) (username st) (typingTimeout st)
                now 1)
  else ((messageCount st + 1 <=? 30)%Z,
        mkState (userId st) (roomId st) (username st) (typingTimeout st)
                now (messageCount st + 1)).
Proof.
  unfold checkRateLimit, CONSTANTS.RATE_LIMIT_MESSAGES_PER_MINUTE.
  by destruct (lastMessageTime st <? now - 60000)%Z.
Qed.

Lemma checkRateLimit_inWindow t1 k now st :
  (t1 ≤ now < t1 + 60000)%Z →
  inWindow t1 k st →
  (checkRateLimit now st).1 = bool_decide (k < 30)
  ∧ inWindow t1 (Datatypes.S k) (checkRateLimit now st).2.
Proof.
  intros Hnow Hin. rewrite checkRateLimit_eq.
  destruct (lastMessageTime st <? now - 60000)%Z eqn:E.
  - apply Z.ltb_lt in E. destruct k as [|k]; [|destruct Hin; lia].
    split; [done|]. split; simpl; lia.
  - apply Z.ltb_ge in E.
    assert (messageCount st = Z.of_nat k) as Hk.
    { destruct k; [|by destruct Hin]. destruct Hin; lia. }
    cbn [fst snd]. split.
    + case_bool_decide.
      * apply Z.leb_le. lia.
      * apply Z.leb_gt. lia.
    + split; simpl; lia.
Qed.

Lemma checkRateLimit_user now st :
  userId (checkRateLimit now st).2 = userId st
  ∧ username (checkRateLimit now st).2 = username st.
Proof.
  rewrite checkRateLimit_eq. by destruct (lastMessageTime st <? _)%Z.
Qed.

(** ** Observations that the use cases and the router cannot change *)

Section BlindObservations.
Context {S X : Type} (f : World S → X).
Hypothesis Hf : Blind f.

Lemma Blind_Quiet : Quiet (same f).
Proof. split; intros; apply Hf. Qed.

Lemma Blind_Accepts : Accepts (same f) (λ _, True).
Proof. intros w x _. apply Hf. Qed.

Lemma same_send ws ev : Steps (same f) (ConnectionManager.send ws ev).
Proof.
  eapply Steps_send; [apply _|apply Blind_Quiet|apply Blind_Accepts|done].
Qed.

Lemma same_broadcastToRoom r ev ex :
  Steps (same f) (ConnectionManager.broadcastToRoom r ev ex).
Proof.
  eapply Steps_broadcastToRoom;
    [apply _|apply Blind_Quiet|apply Blind_Accepts|done].
Qed.

Lemma same_emit store0 ev : Steps (same f) (ConnectionManager.emit store0 ev).
Proof.
  eapply Steps_emit; [apply _|apply Blind_Quiet|apply Blind_Accepts|done].
Qed.

Lemma same_uow store0 : StepsUow (same f) (liftUow store0).
Proof. apply StepsUow_lift, Blind_Quiet. Qed.
End BlindObservations.

Create HintDb blind.
#[export] Hint Resolve same_send same_broadcastToRoom same_emit same_uow
  : blind.

Section SendMessage.
Context {S : Type}.
Implicit Type w : World S.

Lemma stateOf_set_heap_eq w ws st :
  stateOf (set_heap (<[ws := st]> (heap w)) w) ws = st.
Proof. unfold stateOf. simpl. by rewrite lookup_insert_eq. Qed.

Lemma stateOf_set_heap_ne w ws ws' st :
  ws ≠ ws' → stateOf (set_heap (<[ws := st]> (heap w)) w) ws' = stateOf w ws'.
Proof. intros. unfold stateOf. simpl. by rewrite lookup_insert_ne. Qed.

Lemma rateView_Blind ws : Blind (rateView (S:=S) ws).
Proof. by split. Qed.

(** Clearing a typing timer does not touch the rate window. *)
Lemma Steps_handleTypingStop_rateView ws cid ws' r :
  Steps (same (rateView ws))
    (ConnectionManager.handleTypingStop (S:=S) cid ws' r).
Proof.
  pose proof (rateView_Blind ws) as HB.
  unfold ConnectionManager.handleTypingStop, ConnectionManager.getState,
    ConnectionManager.clearTimeout, ConnectionManager.setState.
  steps; try reflexivity; auto with blind.
  unfold same, rateView. destruct (decide (ws' = ws)) as [->|Hne].
  - rewrite stateOf_set_heap_eq. reflexivity.
  - rewrite stateOf_set_heap_ne by done. reflexivity.
Qed.

Variable store0 : UnitOfWork S.
Variable env : Env.

Lemma validateUserAuthorized_true ws w :
  authorized (stateOf w ws) = true →
  ConnectionManager.validateUserAuthorized ws w = (Ok true, w).
Proof.
  unfold authorized, ConnectionManager.validateUserAuthorized,
    ConnectionManager.getState, bind, gets.
  intros [-> ->]%andb_true_iff. done.
Qed.

Lemma validateRateLimit_eq ws w :
  ConnectionManager.validateRateLimit env ws w =
  if (checkRateLimit (now env) (stateOf w ws)).1
  then (Ok true, counted env ws w)
  else (Ok false, (ConnectionManager.send ws (RATE_LIMITED_frame ws).2
                     (counted env ws w)).2).
Proof.
  unfold ConnectionManager.validateRateLimit, ConnectionManager.getState,
    ConnectionManager.setState, ConnectionManager.sendError, counted,
    bind, gets, modify.
  destruct (checkRateLimit (now env) (stateOf w ws)) as [[|] st'];
    simpl; [done|].
  by rewrite send_eq.
Qed.

Lemma handleSendMessage_rejected cid ws r c rt w :
  authorized (stateOf w ws) = true →
  (checkRateLimit (now env) (stateOf w ws)).1 = false →
  ConnectionManager.handleSendMessage store0 env cid ws r c rt w =
  (Ok tt, (ConnectionManager.send ws (RATE_LIMITED_frame ws).2
             (counted env ws w)).2).
Proof.
  intros Hauth Hrate. unfold ConnectionManager.handleSendMessage.
  erewrite bind_Ok by by apply validateUserAuthorized_true. simpl.
  unfold bind at 1. rewrite validateRateLimit_eq, Hrate. done.
Qed.

Lemma handleSendMessage_rateView cid ws r c rt w :
  authorized (stateOf w ws) = true →
  rateView ws
    (ConnectionManager.handleSendMessage store0 env cid ws r c rt w).2
  = rateView ws (counted env ws w).
Proof.
  intros Hauth. unfold ConnectionManager.handleSendMessage.
  erewrite bind_Ok by by apply validateUserAuthorized_true. simpl.
  unfold bind at 1. rewrite validateRateLimit_eq.
  destruct (checkRateLimit (now env) (stateOf w ws)).1; simpl.
  - match goal with |- rateView ws (?m _).2 = _ =>
      assert (Steps (same (rateView ws)) m) as Hm end; [|apply Hm].
    pose proof (rateView_Blind ws) as HB.
    unfold ConnectionManager.sendError, ConnectionManager.getState.
    steps; auto with blind.
    + apply Steps_sendMessage; [apply _| |]; auto with blind.
    + apply Steps_handleTypingStop_rateView.
  - by rewrite send_eq; case_decide.
Qed.
End SendMessage.

Section RateWindow.
Context {S : Type}.
Variable adapter : Z → UnitOfWork S.
Variables (cid : string) (ws : nat) (t1 : Z).
Implicit Type w : World S.

Lemma exec_send env task w :
  connections w !! cid = Some ws →
  isSendOn cid task →
  ∃ r c rt,
    runTask adapter env task w =
    ConnectionManager.handleSendMessage (adapter (now env)) env cid ws r c rt w.
Proof.
  intros Hconn (r & c & rt & ->). exists r, c, rt. simpl.
  unfold ConnectionManager.handleMessage, bind, gets. by rewrite Hconn.
Qed.

Lemma inWindow_ext k st st' :
  lastMessageTime st' = lastMessageTime st →
  messageCount st' = messageCount st →
  inWindow t1 k st → inWindow t1 k st'.
Proof. unfold inWindow. intros -> ->. done. Qed.

Lemma attempted_step k env task w :
  attempted cid ws t1 k w →
  attemptInWindow cid t1 (env, task) →
  attempted cid ws t1 (Datatypes.S k) (exec adapter env task w).
Proof.
  intros (Hconn & Hauth & Hin) [Hsend Hnow]. simpl in *.
  destruct (exec_send env task w Hconn Hsend) as (r & c & rt & Hrun).
  unfold exec. rewrite Hrun.
  pose proof (handleSendMessage_rateView (adapter (now env)) env cid ws r c rt
                w Hauth) as Hview.
  set (w' := (ConnectionManager.handleSendMessage _ _ _ _ _ _ _ w).2) in *.
  unfold rateView in Hview. unfold counted in Hview at 2 3 4 5.
  rewrite !stateOf_set_heap_eq in Hview.
  destruct (checkRateLimit_user (now env) (stateOf w ws)) as [Hu Hn].
  destruct (checkRateLimit_inWindow t1 k (now env) (stateOf w ws) Hnow Hin)
    as [_ Hin'].
  generalize dependent (checkRateLimit (now env) (stateOf w ws)).2.
  intros st' Hview Hu Hn Hin'.
  injection Hview as Hc Hu' Hn' Hl Hm.
  split; [|split].
  - by rewrite Hc.
  - unfold authorized. rewrite Hu', Hn', Hu, Hn. apply Hauth.
  - by eapply inWindow_ext.
Qed.

Lemma attempted_execAll tasks : ∀ k w,
  attempted cid ws t1 k w →
  Forall (attemptInWindow cid t1) tasks →
  attempted cid ws t1 (k + length tasks) (execAll adapter tasks w).
Proof.
  induction tasks as [|[env task] tasks IH]; intros k w Hw Hall; simpl.
  - by rewrite Nat.add_0_r.
  - apply Forall_cons in Hall as [Hhd Htl].
    replace (k + Datatypes.S (length tasks))
      with (Datatypes.S k + length tasks) by lia.
    apply IH; [|done]. by apply attempted_step.
Qed.
End RateWindow.

(** C1.  On an authorized connection, let SEND_MESSAGE frames arrive inside
    one 60-second window that the first of them opens.  After the attempt
    number [k + 1] the counter of the connection is [k + 1]: it is
    incremented on every attempt, rejected or not.  Attempts 1 to 30 pass
    the rate limiter.  Attempt 31 and every later one is rejected: the
    handler returns after handing one RATE_LIMITED error frame to the
    sender's socket, the store is as before (no message is persisted), no
    event is emitted and no other frame (so no MESSAGE_RECEIVED) is sent. *)
Theorem C1_attempt_31_is_rejected_and_counted
    {S} (adapter : Z → UnitOfWork S) (cid : string) (ws : nat)
    (w0 : World S) (t1 : Z) (tasks : list (Env * Task))
    (k : nat) (env : Env) (task : Task) :
  connections w0 !! cid = Some ws →
  authorized (stateOf w0 ws) = true →
  inWindow t1 0 (stateOf w0 ws) →
  Forall (attemptInWindow cid t1) tasks →
  tasks !! k = Some (env, task) →
  let before := execAll adapter (take k tasks) w0 in
  let after := exec adapter env task before in
  messageCount (stateOf after ws) = Z.of_nat (k + 1)
  ∧ if decide (k < 30)
    then (ConnectionManager.validateRateLimit env ws before).1 = Ok true
    else runTask adapter env task before = (Ok tt, after)
         ∧ store after = store before
         ∧ emitted after = emitted before
         ∧ roomSubscriptions after = roomSubscriptions before
         ∧ sent after = sent before ++
             if decide (ws ∈ broken before) then []
             else [RATE_LIMITED_frame ws].
Proof.
  intros Hconn Hauth Hin Hall Hk before after.
  assert (attempted cid ws t1 k before) as Hbefore.
  { pose proof (attempted_execAll adapter cid ws t1 (take k tasks) 0 w0) as H.
    rewrite length_take_le in H
      by (apply lookup_lt_Some in Hk; lia).
    apply H; [done|]. by apply Forall_take. }
  assert (attemptInWindow cid t1 (env, task)) as Hthis.
  { eapply Forall_lookup_1 in Hall; [|done]. done. }
  pose proof (attempted_step adapter cid ws t1 k env task before
                Hbefore Hthis) as (_ & _ & Hafter).
  destruct Hbefore as (Hconn' & Hauth' & Hin').
  destruct Hthis as [Hsend Hnow]. simpl in Hsend, Hnow.
  destruct (checkRateLimit_inWindow t1 k (now env) (stateOf before ws)
              Hnow Hin') as [Hverdict _].
  split.
  { fold after in Hafter. destruct Hafter as [-> _]. lia. }
  case_decide as Hlt.
  - rewrite validateRateLimit_eq, Hverdict.
    by rewrite bool_decide_eq_true_2.
  - rewrite bool_decide_eq_false_2 in Hverdict by done.
    destruct (exec_send adapter cid ws env task before Hconn' Hsend)
      as (r & c & rt & Hrun).
    unfold after, exec. rewrite Hrun.
    rewrite (handleSendMessage_rejected _ _ _ _ _ _ _ _ Hauth' Hverdict).
    rewrite send_eq. simpl.
    case_decide; simpl; rewrite ?app_nil_r; done.
Qed.

(** ** C2: when the rate window rolls over *)

Lemma rateState_fields times : ∀ st,
  userId (rateState times st) = userId st
  ∧ roomId (rateState times st) = roomId st
  ∧ username (rateState times st) = username st
  ∧ typingTimeout (rateState times st) = typingTimeout st
  ∧ lastMessageTime (rateState times st)
    = default (lastMessageTime st) (last times).
Proof.
  induction times as [|t times IH]; intros st; [done|].
  change (rateState (t :: times) st)
    with (rateState times (checkRateLimit t st).2).
  destruct (IH (checkRateLimit t st).2) as (-> & -> & -> & -> & ->).
  rewrite checkRateLimit_eq.
  destruct (lastMessageTime st <? t - 60000)%Z; simpl;
    (repeat split; try done); rewrite last_cons; by destruct (last times).
Qed.

(** C2, refuted as stated: the window is not measured from its start.  A
    fresh connection attempts 31 times between 100 s and 130 s, then once
    more at 165 s, which is 65 s after the window began.  The limiter as
    the claim words it admits that attempt; the code rejects it, and its
    counter stands at 32. *)
Lemma C2_attempt_65s_after_window_start_is_rejected :
  head burst_then_wait = Some 100000%Z
  ∧ (60000 ≤ 165000 - 100000)%Z
  ∧ spec_rateVerdicts burst_then_wait (mkRateWindow 0 0) !! 31%nat
    = Some true
  ∧ rateVerdicts burst_then_wait initialState !! 31%nat = Some false
  ∧ messageCount (rateState burst_then_wait initialState) = 32%Z.
Proof. repeat split; try lia; vm_compute; reflexivity. Qed.

Lemma rateState_snoc times t : ∀ st,
  rateState (times ++ [t]) st = (checkRateLimit t (rateState times st)).2.
Proof.
  induction times as [|t' times IH]; intros st; [done|].
  change (rateState ((t' :: times) ++ [t]) st)
    with (rateState (times ++ [t]) (checkRateLimit t' st).2).
  by rewrite IH.
Qed.

(** C2, amended.  The window is measured from the previous attempt.  Every
    attempt, admitted or rejected, stamps the session with its time.  An
    attempt finds the window expired exactly when it comes more than 60 s
    after the previous attempt (however many attempts there were, and
    whenever the window began): then the count is reset and the attempt is
    admitted as the first of a new window.  Otherwise the count is not
    reset: it goes up by one, and the attempt is admitted exactly when the
    count before it was below 30. *)
Theorem C2_window_rolls_over_60s_after_the_previous_attempt
    (times : list Z) (state : ConnectionState) (t : Z) :
  checkRateLimit t (rateState times state)
  = (if decide (60000 < t - default (lastMessageTime state) (last times))%Z
     then (true,
           mkState (userId state) (roomId state) (username state)
                   (typingTimeout state) t 1)
     else (bool_decide (messageCount (rateState times state) < 30)%Z,
           mkState (userId state) (roomId state) (username state)
                   (typingTimeout state) t
                   (messageCount (rateState times state) + 1)))
  ∧ lastMessageTime (rateState (times ++ [t]) state) = t
  ∧ messageCount (rateState (times ++ [t]) state)
    = (if decide (60000 < t - default (lastMessageTime state) (last times))%Z
       then 1
       else messageCount (rateState times state) + 1)%Z.
Proof.
  destruct (rateState_fields times state) as (Hu & Hr & Hn & Ht & Hl).
  assert (checkRateLimit t (rateState times state)
          = (if decide (60000 < t - default (lastMessageTime state)
                                      (last times))%Z
             then (true,
                   mkState (userId state) (roomId state) (username state)
                           (typingTimeout state) t 1)
             else (bool_decide (messageCount (rateState times state) < 30)%Z,
                   mkState (userId state) (roomId state) (username state)
                           (typingTimeout state) t
                           (messageCount (rateState times state) + 1))))
    as Hcheck.
  { rewrite checkRateLimit_eq, Hu, Hr, Hn, Ht, Hl.
    destruct (_ <? _)%Z eqn:E.
    - apply Z.ltb_lt in E. by rewrite decide_True by lia.
    - apply Z.ltb_ge in E. rewrite decide_False by lia.
      f_equal. case_bool_decide as Hc.
      + apply Z.leb_le. lia.
      + apply Z.leb_gt. lia. }
  split; [exact Hcheck|].
  rewrite rateState_snoc, Hcheck.
  by case_decide.
Qed.

(** After the burst and the attempt at 165 s (32 attempts), an attempt at
    300 s opens a new window and is admitted; an attempt at 200 s, which is
    100 s after the window began and 35 s after the previous attempt, is
    rejected and counted as the 33rd. *)
Lemma C2_window_rolls_over_witness :
  checkRateLimit 300000 (rateState burst_then_wait initialState)
  = (true, mkState None None None None 300000 1)
  ∧ checkRateLimit 200000 (rateState burst_then_wait initialState)
    = (false, mkState None None None None 200000 33).
Proof.
  split.
  - destruct (C2_window_rolls_over_60s_after_the_previous_attempt
                burst_then_wait initialState 300000) as [H _].
    rewrite decide_True in H by (vm_compute; reflexivity). exact H.
  - destruct (C2_window_rolls_over_60s_after_the_previous_attempt
                burst_then_wait initialState 200000) as [H _].
    rewrite decide_False in H by (vm_compute; discriminate).
    rewrite H. vm_compute. reflexivity.
Defined.

(** ** C3 and C6: tearing a connection down *)

Section Teardown.
Context {S : Type}.
Implicit Type w : World S.

Lemma forM_send_Ok (xs : list string) (g : string → M (World S) unit) :
  (∀ x w, (g x w).1 = Ok tt) → ∀ w, (forM_ xs g w).1 = Ok tt.
Proof.
  intros Hg. induction xs as [|x xs IH]; intros w; simpl; [done|].
  unfold bind. specialize (Hg x w).
  destruct (g x w) as [[[]|e] w']; simpl in *; [apply IH|done].
Qed.

(** The router never throws: a failed push is caught and logged. *)
Lemma broadcastToRoom_Ok r ev ex w :
  (ConnectionManager.broadcastToRoom r ev ex w).1 = Ok tt.
Proof.
  unfold ConnectionManager.broadcastToRoom, bind, gets.
  destruct (roomSubscriptions w !! r) as [subs|]; [|done].
  apply forM_send_Ok. intros x w'. case_decide; [done|].
  destruct (connections w' !! x); [|done]. by rewrite send_eq.
Qed.

Lemma emit_other_Ok store0 uid w :
  ConnectionManager.emit store0 (user_disconnected uid) w
  = (Ok tt, set_emitted (emitted w ++ [user_disconnected uid]) w).
Proof. done. Qed.

Lemma pair_eta {A B} (p : A * B) : p = (p.1, p.2).
Proof. by destruct p. Qed.

Variable store0 : UnitOfWork S.

Lemma removeConnection_unregistered id w :
  connections w !! id = None →
  ConnectionManager.removeConnection store0 id w = (Ok tt, w).
Proof.
  intros Hnone. unfold ConnectionManager.removeConnection, bind, gets, modify.
  rewrite Hnone. simpl. rewrite delete_id by done. by destruct w.
Qed.
End Teardown.

(** C3, refuted as stated: alice and bob are in "general" and the database
    file is locked by another process when alice's socket closes.  The
    departure is broadcast to bob, then [updateStatus] throws and so does
    [removeConnection]: nothing is logged, alice's connection stays
    registered and no "user:disconnected" event is emitted. *)
Lemma C3_locked_database_makes_removeConnection_throw :
  let w := lockFile twoInGeneral in
  let out := ConnectionManager.removeConnection (sqliteServer 5000) "c1" w in
  out.1 = Throw "database is locked"
  ∧ console out.2 = console w
  ∧ connections out.2 !! "c1" = Some 1
  ∧ emitted out.2 = emitted w
  ∧ sent out.2 = sent w ++ [(2, USER_LEFT (Some "u-alice") "general")].
Proof. vm_compute. repeat split; reflexivity. Qed.

Section TeardownOutcome.
Context {S : Type}.
Implicit Type w : World S.
Variable store0 : UnitOfWork S.

(** Name the world a broadcast leaves, knowing that it returns. *)
Ltac broadcast_returns :=
  repeat match goal with
  | |- context [ConnectionManager.broadcastToRoom ?r ?ev ?ex ?w'] =>
      let Hb := fresh "Hb" in
      pose proof (broadcastToRoom_Ok r ev ex w') as Hb;
      destruct (ConnectionManager.broadcastToRoom r ev ex w')
        as [[[]|?] ?]; simpl in Hb; [clear Hb|discriminate Hb]
  end.

(** The outcome of [removeConnection], step by step. *)
Lemma removeConnection_registered id ws w :
  connections w !! id = Some ws →
  let state := stateOf w ws in
  let mid := departed id w in
  let uid := ConnectionManager.asString (userId state) in
  ConnectionManager.removeConnection store0 id w =
  if truthy (userId state) then
    match users_updateStatus (users store0) uid offline (store mid) with
    | (Throw e, s) => (Throw e, set_store s mid)
    | (Ok _, s) =>
        match users_updateLastSeen (users store0) uid s with
        | (Throw e, s') => (Throw e, set_store s' mid)
        | (Ok _, s') =>
            (Ok tt,
             set_connections (delete id (connections mid))
               (set_emitted (emitted mid ++ [user_disconnected uid])
                  (set_store s' mid)))
        end
    end
  else (Ok tt, set_connections (delete id (connections mid)) mid).
Proof.
  intros Hconn state mid uid. subst mid. unfold departed.
  unfold ConnectionManager.removeConnection, ConnectionManager.getState,
    ConnectionManager.clearTimeout, bind, gets, modify, ret.
  rewrite Hconn. fold state. simpl.
  destruct (typingTimeout state), (truthy (roomId state)); simpl;
    broadcast_returns; simpl.
  all: destruct (truthy (userId state)); [|done].
  all: unfold lift; simpl; fold uid.
  all: destruct (users_updateStatus (users store0) uid offline _)
         as [[[]|e1] s1]; [|done].
  all: simpl; destruct (users_updateLastSeen (users store0) uid s1)
         as [[[]|e2] s2]; done.
Qed.
End TeardownOutcome.

Section Departure.
Context {S : Type}.
Implicit Type w : World S.

Lemma leaveRoom_not_subscribed id r w :
  set_has id (subscribers (ConnectionManager.leaveRoom id r w).2 r) = false.
Proof.
  unfold ConnectionManager.leaveRoom, modify, subscribers, set_has.
  cbn [snd]. apply bool_decide_eq_false.
  destruct (roomSubscriptions w !! r) as [subs|] eqn:E.
  - case_decide; cbn [roomSubscriptions set_roomSubscriptions].
    + rewrite lookup_delete_eq. apply not_elem_of_nil.
    + rewrite lookup_insert_eq. simpl. unfold set_delete.
      intros Hin%list_elem_of_filter. tauto.
  - simpl. rewrite E. apply not_elem_of_nil.
Qed.

Lemma broadcastToRoom_roomSubscriptions r ev ex w :
  roomSubscriptions (ConnectionManager.broadcastToRoom r ev ex w).2
  = roomSubscriptions w.
Proof.
  assert (Blind (roomSubscriptions (S:=S))) as HB by by split.
  apply (same_broadcastToRoom _ HB).
Qed.

Lemma departed_not_subscribed id ws w :
  connections w !! id = Some ws →
  truthy (roomId (stateOf w ws)) = true →
  set_has id
    (subscribers (departed id w)
       (ConnectionManager.asString (roomId (stateOf w ws)))) = false.
Proof.
  intros Hconn Hroom. unfold departed. rewrite Hconn. simpl. rewrite Hroom.
  set (r := ConnectionManager.asString _).
  assert (∀ w1, set_has id (subscribers
            ((ConnectionManager.leaveRoom id r ;;;
              ConnectionManager.broadcastToRoom r
                (USER_LEFT (userId (stateOf w ws)) r) (Some id)) w1).2 r)
          = false) as Hafter.
  { intros w1. unfold bind.
    change (ConnectionManager.leaveRoom id r w1)
      with (Ok tt, (ConnectionManager.leaveRoom id r w1).2).
    cbv iota beta.
    unfold subscribers. rewrite broadcastToRoom_roomSubscriptions.
    apply leaveRoom_not_subscribed. }
  destruct (typingTimeout (stateOf w ws)) as [h|]; apply Hafter.
Qed.
End Departure.

(** C3, amended.  [removeConnection] rejects only with the error of a
    storage call: [updateStatus] or, after it, [updateLastSeen].  The
    failure is not logged; the connection then stays registered and
    "user:disconnected" is not emitted.  When the storage calls return, or
    the session has no user, or the connection is unknown, it returns and
    the connection is no longer registered.  In every case the departure
    made before the storage calls stands: the subscriptions, the frames
    sent and the console are those of the world after the departure, in
    which the connection is not subscribed to the room of its session. *)
Theorem C3_removeConnection_rejects_only_with_a_storage_failure
    {S} (store0 : UnitOfWork S) (id : string) (w : World S) :
  let out := ConnectionManager.removeConnection store0 id w in
  let mid := departed id w in
  roomSubscriptions out.2 = roomSubscriptions mid
  ∧ sent out.2 = sent mid
  ∧ console out.2 = console mid
  ∧ match connections w !! id with
    | Some ws =>
        if truthy (roomId (stateOf w ws))
        then set_has id
               (subscribers out.2
                  (ConnectionManager.asString (roomId (stateOf w ws))))
             = false
        else True
    | None => True
    end
  ∧ (out.1 = Ok tt ∧ connections out.2 !! id = None
     ∨ ∃ e ws uid,
         out.1 = Throw e
         ∧ connections w !! id = Some ws
         ∧ userId (stateOf w ws) = Some uid
         ∧ ((users_updateStatus (users store0) uid offline (store mid)).1
              = Throw e
            ∨ ∃ s,
                users_updateStatus (users store0) uid offline (store mid)
                  = (Ok tt, s)
                ∧ (users_updateLastSeen (users store0) uid s).1 = Throw e)
         ∧ connections out.2 !! id = Some ws
         ∧ emitted out.2 = emitted mid).
Proof.
  intros out mid. subst out.
  destruct (connections w !! id) as [ws|] eqn:Hconn.
  2: { rewrite removeConnection_unregistered by done.
       subst mid. unfold departed. rewrite Hconn. simpl.
       repeat split; try done. by left. }
  assert (connections mid = connections w) as Hcm.
  { subst mid. unfold departed. rewrite Hconn. simpl.
    assert (Steps (same (connections (S:=S)))
      (match typingTimeout (stateOf w ws) with
       | Some handle => ConnectionManager.clearTimeout handle
       | None => ret tt
       end ;;;
       if truthy (roomId (stateOf w ws)) then
         ConnectionManager.leaveRoom id
           (ConnectionManager.asString (roomId (stateOf w ws))) ;;;
         ConnectionManager.broadcastToRoom
           (ConnectionManager.asString (roomId (stateOf w ws)))
           (USER_LEFT (userId (stateOf w ws))
              (ConnectionManager.asString (roomId (stateOf w ws))))
           (Some id)
       else ret tt)) as Hs; [|apply Hs].
    assert (Blind (connections (S:=S))) as HB by by split.
    unfold ConnectionManager.clearTimeout, ConnectionManager.leaveRoom.
    steps; auto with blind; try reflexivity.
    unfold same. by repeat case_match. }
  pose proof (departed_not_subscribed id ws w Hconn) as Hns.
  rewrite (removeConnection_registered store0 id ws w Hconn). fold mid.
  destruct (userId (stateOf w ws)) as [uid|] eqn:Huid; simpl.
  2: { repeat split; try done.
       - by destruct (truthy (roomId (stateOf w ws))); [apply Hns|].
       - left. split; [done|]. simpl. apply lookup_delete_eq. }
  destruct (negb (uid =? ""))%string eqn:Htruthy; simpl.
  2: { repeat split; try done.
       - by destruct (truthy (roomId (stateOf w ws))); [apply Hns|].
       - left. split; [done|]. simpl. apply lookup_delete_eq. }
  unfold ConnectionManager.asString. simpl.
  destruct (users_updateStatus (users store0) uid offline (store mid))
    as [[[]|e1] s1] eqn:E1.
  - destruct (users_updateLastSeen (users store0) uid s1)
      as [[[]|e2] s2] eqn:E2; simpl.
    + repeat split; try done.
      * by destruct (truthy (roomId (stateOf w ws))); [apply Hns|].
      * left. split; [done|]. apply lookup_delete_eq.
    + repeat split; try done.
      * by destruct (truthy (roomId (stateOf w ws))); [apply Hns|].
      * right. exists e2, ws, uid. repeat split; try done.
        -- right. exists s1. by rewrite E1, E2.
        -- by rewrite Hcm.
  - simpl. repeat split; try done.
    + by destruct (truthy (roomId (stateOf w ws))); [apply Hns|].
    + right. exists e1, ws, uid. repeat split; try done.
      * left. by rewrite E1.
      * by rewrite Hcm.
Qed.

(** C6, refuted as stated: with the database file locked, the first call
    for alice's connection broadcasts her departure and throws; the
    connection is still registered, so the second call broadcasts the
    departure to bob once more and throws again. *)
Lemma C6_second_call_after_a_failed_first_broadcasts_again :
  let w := lockFile twoInGeneral in
  let first := ConnectionManager.removeConnection (sqliteServer 5000) "c1" w in
  let second :=
    ConnectionManager.removeConnection (sqliteServer 5001) "c1" first.2 in
  first.1 = Throw "database is locked"
  ∧ sent first.2 = sent w ++ [(2, USER_LEFT (Some "u-alice") "general")]
  ∧ second.1 = Throw "database is locked"
  ∧ sent second.2
    = sent first.2 ++ [(2, USER_LEFT (Some "u-alice") "general")].
Proof. vm_compute. repeat split; reflexivity. Qed.

(** C6, amended.  When the first [removeConnection] of a connection id
    returns, a second call with the same id (whatever the storage adapter
    does by then) returns and leaves the world as it is: no frame, no
    storage update, no event, no console line. *)
Theorem C6_removeConnection_again_is_a_no_op
    {S} (store0 store0' : UnitOfWork S) (id : string) (w w' : World S) :
  ConnectionManager.removeConnection store0 id w = (Ok tt, w') →
  ConnectionManager.removeConnection store0' id w' = (Ok tt, w').
Proof.
  intros Hfirst. apply removeConnection_unregistered.
  destruct (connections w !! id) as [ws|] eqn:Hconn.
  - rewrite (removeConnection_registered store0 id ws w Hconn) in Hfirst.
    repeat case_match; simplify_eq; apply lookup_delete_eq.
  - rewrite removeConnection_unregistered in Hfirst by done.
    by simplify_eq.
Qed.

Lemma C6_removeConnection_again_witness :
  let first :=
    ConnectionManager.removeConnection (sqliteServer 5000) "c1" twoInGeneral in
  ConnectionManager.removeConnection (sqliteServer 5001) "c1" first.2
  = (Ok tt, first.2).
Proof.
  intros first.
  apply (C6_removeConnection_again_is_a_no_op
           (sqliteServer 5000) (sqliteServer 5001) "c1" twoInGeneral first.2).
  vm_compute. reflexivity.
Defined.

(** ** C9: deleting a message that has replies *)

(** C9, refuted as stated: bob replied to alice's message.  Before the
    deletion the DTO of the reply names "alice" and previews "hello".  After
    alice's DELETE_MESSAGE the row of her message is still in the table,
    flagged deleted, and the reply still points at it; but the DTO of the
    reply carries no reply info any more. *)
Lemma C9_reply_info_is_lost_when_the_target_is_deleted :
  let before := withReply in
  let after :=
    exec sqliteServer (mkEnv 7000 "")
      (ws_message "c1" (Valid (DELETE_MESSAGE "m1"))) before in
  (sqlite.message_findById "m2" (store before)).1 = Ok (Some bobsReply)
  ∧ replyInfoOf
      (useCases.messageToDTO (sqliteServer 7001) bobsReply (store before))
    = Some (Some (ReplyInfo.mk "m1" "alice" "hello"))
  ∧ sent after = sent before ++ [(1, MESSAGE_DELETED "m1");
                                  (2, MESSAGE_DELETED "m1")]
  ∧ (sqlite.MessageRow.id <$> sqlite.t_messages (store after),
     sqlite.MessageRow.is_deleted <$> sqlite.t_messages (store after))
    = (["m1"; "m2"], [1%Z; 0%Z])
  ∧ (sqlite.message_findById "m2" (store after)).1 = Ok (Some bobsReply)
  ∧ replyInfoOf
      (useCases.messageToDTO (sqliteServer 7001) bobsReply (store after))
    = Some None.
Proof. vm_compute. repeat split; reflexivity. Qed.

Section SoftDelete.
Import sqlite.

Lemma filter_fmap_nil {A B} (P : B → Prop) `{!∀ x, Decision (P x)}
    (f : A → B) (l : list A) :
  (∀ x, x ∈ l → ¬ P (f x)) → filter P (f <$> l) = [].
Proof.
  induction l as [|x l IH]; intros Hall; [done|].
  rewrite fmap_cons, filter_cons_False by (apply Hall; left).
  apply IH. intros y Hy. apply Hall. by right.
Qed.

Lemma message_delete_eq now id db :
  locked db = false →
  message_delete now id db =
  (Ok tt,
   mkDatabase false (t_users db) (t_rooms db) (t_room_participants db)
     ((λ r, if decide (MessageRow.id r = id)
            then MessageRow.mk (MessageRow.id r) (MessageRow.room_id r)
                   (MessageRow.author_id r) (MessageRow.content r)
                   (MessageRow.reply_to_id r) 1 (MessageRow.created_at r)
                   (MessageRow.edited_at r) now
            else r) <$> t_messages db)).
Proof. intros H. unfold message_delete, write. by rewrite H. Qed.

Lemma message_findById_deleted now id db :
  locked db = false →
  message_findById id (message_delete now id db).2
  = (Ok None, (message_delete now id db).2).
Proof.
  intros H. rewrite message_delete_eq by done.
  unfold message_findById, gets. simpl.
  rewrite filter_fmap_nil; [done|].
  intros r _. case_decide; simpl; [lia|tauto].
Qed.
End SoftDelete.

(** C9, amended.  Deleting a message in the SQLite repository is a soft
    delete: every row stays, with its id and with the reference it holds to
    the message it replies to, and the rows of the deleted id are flagged.
    But the deleted message is no longer resolvable: [findById] does not
    return it, so the DTO built afterwards for a message that replies to it
    carries no reply info (no author name, no preview). *)
Theorem C9_soft_deleted_message_is_not_resolvable
    (now now' : Z) (db : sqlite.Database) (id : string)
    (reply : Message.t) :
  sqlite.locked db = false →
  Message.replyTo reply = Some id →
  let db' := (sqlite.message_delete now id db).2 in
  sqlite.MessageRow.id <$> sqlite.t_messages db'
    = sqlite.MessageRow.id <$> sqlite.t_messages db
  ∧ sqlite.MessageRow.reply_to_id <$> sqlite.t_messages db'
    = sqlite.MessageRow.reply_to_id <$> sqlite.t_messages db
  ∧ Forall (λ r, sqlite.MessageRow.id r = id
                 → sqlite.MessageRow.is_deleted r = 1%Z)
           (sqlite.t_messages db')
  ∧ sqlite.message_findById id db' = (Ok None, db')
  ∧ (replyInfoOf (useCases.messageToDTO (sqliteServer now') reply db')
       = Some None
     ∨ ∃ e, (useCases.messageToDTO (sqliteServer now') reply db').1
            = Throw e
            ∧ (sqlite.user_findById (Message.authorId reply) db').1
              = Ok None).
Proof.
  intros Hunlocked Hreply db'.
  pose proof (message_findById_deleted now id db Hunlocked) as Hfind.
  fold db' in Hfind.
  assert (sqlite.t_messages db' = sqlite.t_messages
            (sqlite.message_delete now id db).2) as Hrows by done.
  rewrite message_delete_eq in Hrows by done. simpl in Hrows.
  clearbody db'. rewrite Hrows.
  split; [|split; [|split; [|split]]].
  - rewrite <- list_fmap_compose. apply list_fmap_ext.
    intros i r _. simpl. by case_decide.
  - rewrite <- list_fmap_compose. apply list_fmap_ext.
    intros i r _. simpl. by case_decide.
  - apply Forall_fmap, Forall_forall. intros r _. simpl.
    by case_decide.
  - done.
  - unfold useCases.messageToDTO, replyInfoOf, sqliteServer. simpl.
    unfold bind at 1.
    destruct (sqlite.user_findById (Message.authorId reply) db')
      as [[[author|]|e] d'] eqn:Eauthor.
    + unfold sqlite.user_findById, gets in Eauthor. simplify_eq.
      left. rewrite Hreply. simpl.
      destruct (negb (id =? ""))%string; [|done].
      unfold bind at 1. rewrite (bind_Ok _ _ _ _ _ Hfind). done.
    + right. eexists. split.
      * unfold bind. rewrite Eauthor. reflexivity.
      * unfold sqlite.user_findById, gets in Eauthor. congruence.
    + unfold sqlite.user_findById, gets in Eauthor. simplify_eq.
Qed.

Lemma C9_soft_deleted_message_witness :
  let db' := (sqlite.message_delete 7000 "m1" (store withReply)).2 in
  sqlite.MessageRow.id <$> sqlite.t_messages db'
    = sqlite.MessageRow.id <$> sqlite.t_messages (store withReply)
  ∧ sqlite.MessageRow.reply_to_id <$> sqlite.t_messages db'
    = sqlite.MessageRow.reply_to_id <$> sqlite.t_messages (store withReply)
  ∧ Forall (λ r, sqlite.MessageRow.id r = "m1"
                 → sqlite.MessageRow.is_deleted r = 1%Z)
           (sqlite.t_messages db')
  ∧ sqlite.message_findById "m1" db' = (Ok None, db')
  ∧ (replyInfoOf (useCases.messageToDTO (sqliteServer 7001) bobsReply db')
       = Some None
     ∨ ∃ e, (useCases.messageToDTO (sqliteServer 7001) bobsReply db').1
            = Throw e
            ∧ (sqlite.user_findById (Message.authorId bobsReply) db').1
              = Ok None).
Proof.
  apply (C9_soft_deleted_message_is_not_resolvable
           7000 7001 (store withReply) "m1" bobsReply);
    vm_compute; reflexivity.
Defined.

(** ** C4: joining a second room *)

(** C4, evaluated: a connection subscribed to "general" sends JOIN_ROOM for
    "random".  The handler overwrites the room of the session and subscribes
    the connection to "random" without leaving "general": the connection is
    in both subscriber sets.  When the socket closes only "random" is left,
    so the closed connection stays in the subscriber set of "general". *)
Lemma C4_second_join_leaves_the_connection_in_both_rooms :
  let w := joinedTwice in
  let closed := exec sqliteServer (mkEnv 9000 "") (ws_close "c1") w in
  subscribers w "general" = ["c1"]
  ∧ subscribers w "random" = ["c1"]
  ∧ roomId (stateOf w 1) = Some "random"
  ∧ connections closed !! "c1" = None
  ∧ subscribers closed "general" = ["c1"]
  ∧ subscribers closed "random" = [].
Proof. vm_compute. repeat split; reflexivity. Qed.

(** ** C5: a LEAVE_ROOM the use case refuses *)

(** C5, evaluated: alice, in "general", sends LEAVE_ROOM for a room that
    does not exist.  The use case returns the failure ROOM_NOT_FOUND; the
    handler drops that result, sends no ERROR frame to alice, and goes on
    to the unsubscription and the USER_LEFT broadcast (which finds no
    subscriber here). *)
Lemma C5_failed_leave_is_not_answered_with_an_error_frame :
  let w := twoInGeneral in
  let env := mkEnv 5000 "" in
  let out :=
    ConnectionManager.handleMessage (sqliteServer 5000) env "c1"
      (Valid (LEAVE_ROOM "nowhere")) w in
  (useCases.leaveRoom (liftUow (sqliteServer 5000))
     (ConnectionManager.emit (sqliteServer 5000)) "nowhere" "u-alice" w).1
  = Ok (failure (UseCaseError.mk "Room not found" "ROOM_NOT_FOUND"))
  ∧ out.1 = Ok tt
  ∧ sent out.2 = sent w
  ∧ filter (λ x, is_ERROR "ROOM_NOT_FOUND" x.2 = true) (sent out.2) = [].
Proof. vm_compute. repeat split; reflexivity. Qed.

(** ** C7: typing timers *)

(** C7, refuted as stated: alice's session is in "general" (with bob) and
    she sent TYPING_START for "random" (where carol is).  When the timer
    fires, the stop goes to the room the TYPING_START named: carol is told.
    An inbound TYPING_STOP for the current room of alice's connection would
    tell bob instead. *)
Lemma C7_timer_stops_typing_in_the_room_that_armed_it :
  let w := typingElsewhere in
  let fired := exec sqliteServer (mkEnv 8000 "") (timer_fires 0) w in
  let stopped :=
    exec sqliteServer (mkEnv 8000 "")
      (ws_message "c1" (Valid (TYPING_STOP "general"))) w in
  roomId (stateOf w 1) = Some "general"
  ∧ timers w !! 0 = Some (mkTimer "c1" 1 "random" 8000)
  ∧ sent fired = sent w ++ [(3, USER_STOPPED_TYPING "u-alice" "random")]
  ∧ sent stopped = sent w ++ [(2, USER_STOPPED_TYPING "u-alice" "general")].
Proof. vm_compute. repeat split; reflexivity. Qed.

Section TimersOwned.
Context {S : Type}.
Implicit Type w : World S.

#[global] Instance keepsTimers_preorder : PreOrder (keepsTimers (S:=S)).
Proof. split; unfold keepsTimers; [by intros w|intros w1 w2 w3; tauto]. Qed.

Lemma timerView_Blind : Blind (timerView (S:=S)).
Proof. by split. Qed.

Lemma timersOwned_ext w w' :
  timerView w' = timerView w → timersOwned w → timersOwned w'.
Proof.
  unfold timerView, timersOwned, stateOf. intros [= Hh Ht Hn].
  by rewrite Hh, Ht, Hn.
Qed.

Lemma Steps_weaken {A} (R R' : relation (World S)) (m : M (World S) A) :
  (∀ w w', R w w' → R' w w') → Steps R m → Steps R' m.
Proof. intros HR Hm w. apply HR, Hm. Qed.

(** A computation that leaves sessions and timers alone keeps the
    invariant. *)
Lemma keepsTimers_same {A} (m : M (World S) A) :
  Steps (same timerView) m → Steps keepsTimers m.
Proof.
  apply Steps_weaken. intros w w' Hsame Hw. by eapply timersOwned_ext.
Qed.

Lemma stateOf_insert w ws ws' st :
  stateOf (set_heap (<[ws := st]> (heap w)) w) ws'
  = if decide (ws = ws') then st else stateOf w ws'.
Proof.
  case_decide as Heq.
  - subst. apply stateOf_set_heap_eq.
  - by apply stateOf_set_heap_ne.
Qed.

(** Writing a session without touching its [typingTimeout]. *)
Lemma keepsTimers_setState ws (f : ConnectionState → ConnectionState) :
  (∀ st, typingTimeout (f st) = typingTimeout st) →
  Steps keepsTimers (ConnectionManager.setState (S:=S) ws f).
Proof.
  intros Hf w [Hown Hfresh]. split; [|done].
  intros h t Ht. simpl in *. rewrite stateOf_insert.
  case_decide as Heq; [|by apply Hown].
  rewrite Hf, Heq. by apply Hown.
Qed.

Lemma keepsTimers_clearTimeout h :
  Steps keepsTimers (ConnectionManager.clearTimeout (S:=S) h).
Proof.
  intros w [Hown Hfresh]. split; simpl.
  - intros h' t Ht. apply lookup_delete_Some in Ht as [_ Ht].
    by apply Hown.
  - intros h' Hh'. apply lookup_delete_None. right. by apply Hfresh.
Qed.

Lemma keepsTimers_broadcastToRoom r ev ex :
  Steps keepsTimers (ConnectionManager.broadcastToRoom (S:=S) r ev ex).
Proof. apply keepsTimers_same, same_broadcastToRoom, timerView_Blind. Qed.

Lemma keepsTimers_send ws ev :
  Steps keepsTimers (ConnectionManager.send (S:=S) ws ev).
Proof. apply keepsTimers_same, same_send, timerView_Blind. Qed.

(** Stopping: the timer of the session is cancelled and forgotten. *)
Lemma keepsTimers_handleTypingStop cid ws r :
  Steps keepsTimers (ConnectionManager.handleTypingStop (S:=S) cid ws r).
Proof.
  intros w Hw.
  unfold ConnectionManager.handleTypingStop, ConnectionManager.getState,
    bind, gets.
  destruct (negb (truthy (userId (stateOf w ws)))); [done|].
  destruct (typingTimeout (stateOf w ws)) as [h|] eqn:Eh;
    cbn [ConnectionManager.clearTimeout ConnectionManager.setState modify ret];
    cbv iota beta; apply keepsTimers_broadcastToRoom; [|done].
  destruct Hw as [Hown Hfresh]. split; cbn [timers nextTimer set_timers
    set_heap].
  - intros h' t [Hne Ht]%lookup_delete_Some. rewrite stateOf_insert.
    case_decide as Heq; [|by apply Hown].
    (* the only timer the session may hold is the one just cancelled *)
    apply Hown in Ht. rewrite <- Heq, Eh in Ht. congruence.
  - intros h' Hh'. apply lookup_delete_None. right. by apply Hfresh.
Qed.

(** Starting: the old timer is cancelled before the new one is armed and
    stored in the session. *)
Lemma keepsTimers_handleTypingStart env cid ws r :
  Steps keepsTimers (ConnectionManager.handleTypingStart (S:=S) env cid ws r).
Proof.
  intros w Hw.
  unfold ConnectionManager.handleTypingStart, ConnectionManager.getState,
    bind, gets.
  destruct (negb (truthy (userId (stateOf w ws)))
            || negb (truthy (username (stateOf w ws)))); [done|].
  destruct Hw as [Hown Hfresh].
  destruct (typingTimeout (stateOf w ws)) as [h|] eqn:Eh;
    cbn [ConnectionManager.clearTimeout ConnectionManager.setState
         ConnectionManager.setTimeout modify ret];
    cbv iota beta; apply keepsTimers_broadcastToRoom.
  - split; cbn [timers nextTimer set_timers set_heap].
    + intros h' t Ht. rewrite stateOf_insert.
      apply lookup_insert_Some in Ht as [[<- <-]|[Hne Ht]]; simpl.
      * by rewrite decide_True.
      * apply lookup_delete_Some in Ht as [Hne' Ht].
        case_decide as Heq; [|by apply Hown].
        apply Hown in Ht. rewrite <- Heq in Ht. simpl in Ht. congruence.
    + intros h' Hh'. rewrite lookup_insert_ne by lia.
      apply lookup_delete_None. right. apply Hfresh. lia.
  - split; cbn [timers nextTimer set_timers set_heap].
    + intros h' t Ht. rewrite stateOf_insert.
      apply lookup_insert_Some in Ht as [[<- <-]|[Hne Ht]]; simpl.
      * by rewrite decide_True.
      * case_decide as Heq; [|by apply Hown].
        apply Hown in Ht. rewrite <- Heq in Ht. congruence.
    + intros h' Hh'. rewrite lookup_insert_ne by lia. apply Hfresh. lia.
Qed.
End TimersOwned.

Section TimersInvariant.
Context {S : Type}.
Implicit Type w : World S.

Lemma keepsTimers_Quiet : Quiet (keepsTimers (S:=S)).
Proof. split; intros w x Hw; exact Hw. Qed.

Lemma keepsTimers_Accepts : Accepts (keepsTimers (S:=S)) (λ _, True).
Proof. intros w x _ Hw. exact Hw. Qed.

Lemma keepsTimers_uow store0 : StepsUow keepsTimers (liftUow (S:=S) store0).
Proof. apply StepsUow_lift, keepsTimers_Quiet. Qed.

Lemma keepsTimers_emit store0 ev :
  Steps keepsTimers (ConnectionManager.emit (S:=S) store0 ev).
Proof.
  eapply Steps_emit;
    [apply _|apply keepsTimers_Quiet|apply keepsTimers_Accepts|done].
Qed.

Variable store0 : UnitOfWork S.
Variable env : Env.

Create HintDb timers.
Hint Resolve keepsTimers_uow keepsTimers_emit keepsTimers_send
  keepsTimers_broadcastToRoom keepsTimers_clearTimeout
  keepsTimers_handleTypingStop keepsTimers_handleTypingStart : timers.

Lemma keepsTimers_handleJoinRoom cid ws r n :
  Steps keepsTimers (ConnectionManager.handleJoinRoom store0 env cid ws r n).
Proof.
  unfold ConnectionManager.handleJoinRoom, ConnectionManager.joinRoom.
  steps; auto with timers; try (intros Hw; exact Hw).
  - apply Steps_joinRoom; auto with timers; apply _.
  - by apply keepsTimers_setState.
  - apply Steps_getRooms; auto with timers; apply _.
Qed.

Lemma keepsTimers_handleLeaveRoom cid ws r :
  Steps keepsTimers (ConnectionManager.handleLeaveRoom store0 cid ws r).
Proof.
  unfold ConnectionManager.handleLeaveRoom, ConnectionManager.getState,
    ConnectionManager.leaveRoom.
  steps; auto with timers.
  - apply Steps_leaveRoom; auto with timers; apply _.
  - intros Hw. eapply timersOwned_ext; [|exact Hw]. by repeat case_match.
Qed.

Lemma timersOwned_counted ws w :
  timersOwned w → timersOwned (counted env ws w).
Proof.
  intros [Hown Hfresh]. split; [|done]. intros h t Ht.
  unfold counted. rewrite stateOf_insert. case_decide as Heq; [|by apply Hown].
  rewrite checkRateLimit_eq, Heq.
  destruct (_ <? _)%Z; simpl; by apply Hown.
Qed.

Lemma keepsTimers_validateRateLimit ws :
  Steps keepsTimers (ConnectionManager.validateRateLimit (S:=S) env ws).
Proof.
  intros w Hw. rewrite validateRateLimit_eq.
  destruct (checkRateLimit (now env) (stateOf w ws)).1; simpl.
  - by apply timersOwned_counted.
  - by apply keepsTimers_send, timersOwned_counted.
Qed.

Lemma keepsTimers_handleSendMessage cid ws r c rt :
  Steps keepsTimers
    (ConnectionManager.handleSendMessage store0 env cid ws r c rt).
Proof.
  unfold ConnectionManager.handleSendMessage,
    ConnectionManager.validateUserAuthorized, ConnectionManager.sendError,
    ConnectionManager.getState.
  steps; auto using keepsTimers_validateRateLimit with timers.
  apply Steps_sendMessage; auto with timers; apply _.
Qed.

Lemma keepsTimers_handleEditMessage ws i c :
  Steps keepsTimers (ConnectionManager.handleEditMessage store0 env ws i c).
Proof.
  unfold ConnectionManager.handleEditMessage, ConnectionManager.getState.
  steps; auto with timers.
  apply Steps_editMessage; auto with timers; apply _.
Qed.

Lemma keepsTimers_handleDeleteMessage ws i :
  Steps keepsTimers (ConnectionManager.handleDeleteMessage store0 ws i).
Proof.
  unfold ConnectionManager.handleDeleteMessage, ConnectionManager.getState.
  steps; auto with timers.
  apply Steps_deleteMessage; auto with timers; apply _.
Qed.

Lemma keepsTimers_handleUpdateStatus ws st :
  Steps keepsTimers (ConnectionManager.handleUpdateStatus store0 ws st).
Proof.
  unfold ConnectionManager.handleUpdateStatus, ConnectionManager.getState.
  steps; auto with timers.
  apply Steps_updateUserStatus; auto with timers; apply _.
Qed.

Lemma keepsTimers_handleMessage cid raw :
  Steps keepsTimers (ConnectionManager.handleMessage store0 env cid raw).
Proof.
  unfold ConnectionManager.handleMessage, ConnectionManager.routeEvent,
    ConnectionManager.sendError, ConnectionManager.console_error.
  steps; auto using keepsTimers_handleJoinRoom, keepsTimers_handleLeaveRoom,
    keepsTimers_handleSendMessage, keepsTimers_handleEditMessage,
    keepsTimers_handleDeleteMessage, keepsTimers_handleUpdateStatus
    with timers.
  intros Hw; exact Hw.
Qed.

Lemma keepsTimers_removeConnection id :
  Steps keepsTimers (ConnectionManager.removeConnection store0 id).
Proof.
  unfold ConnectionManager.removeConnection, ConnectionManager.getState,
    ConnectionManager.leaveRoom.
  steps; auto with timers; try (intros Hw; exact Hw).
  - intros Hw. eapply timersOwned_ext; [|exact Hw]. by repeat case_match.
  - apply keepsTimers_uow.
  - apply keepsTimers_uow.
Qed.

Lemma keepsTimers_fireTimer h :
  Steps keepsTimers (ConnectionManager.fireTimer (S:=S) h).
Proof.
  unfold ConnectionManager.fireTimer. steps; auto with timers.
Qed.
End TimersInvariant.

Section Reachable.
Context {S : Type}.
Variable adapter : Z → UnitOfWork S.

Lemma keepsTimers_runTask env task :
  Steps keepsTimers (runTask adapter env task).
Proof.
  destruct task; simpl.
  - apply Steps_modify. intros w Hw. exact Hw.
  - apply keepsTimers_handleMessage.
  - apply keepsTimers_removeConnection.
  - steps; auto using keepsTimers_fireTimer.
Qed.

(** In every state the server can reach, every pending typing timer is the
    one its session holds. *)
Lemma reachable_timersOwned w : reachable adapter w → timersOwned w.
Proof.
  induction 1 as [s|w env task _ IH|w s b _ IH].
  - split; [intros h t Ht|intros h _]; by rewrite ?lookup_empty in *.
  - by apply keepsTimers_runTask.
  - exact IH.
Qed.
End Reachable.


Section PendingTimers.
Context {S : Type}.
Implicit Type w : World S.

Lemma elem_of_pendingTimers w ws h :
  h ∈ pendingTimers w ws ↔
  ∃ t, timers w !! h = Some t ∧ timer_state t = ws.
Proof.
  unfold pendingTimers. rewrite list_elem_of_fmap. split.
  - intros ([h' t] & -> & Hin). exists t.
    apply elem_of_map_to_list in Hin.
    by apply map_lookup_filter_Some in Hin.
  - intros (t & Ht & Hws). exists (h, t). split; [done|].
    apply elem_of_map_to_list. by apply map_lookup_filter_Some.
Qed.

Lemma NoDup_pendingTimers w ws : NoDup (pendingTimers w ws).
Proof. apply NoDup_fst_map_to_list. Qed.

(** A session has at most one pending timer. *)
Lemma pendingTimers_at_most_one w ws :
  timersOwned w → length (pendingTimers w ws) ≤ 1.
Proof.
  intros [Hown _].
  pose proof (NoDup_pendingTimers w ws) as Hnd.
  pose proof (elem_of_pendingTimers w ws) as Hin.
  destruct (pendingTimers w ws) as [|h1 [|h2 rest]]; simpl; [lia..|].
  exfalso.
  destruct (proj1 (Hin h1)) as (t1 & Ht1 & Hs1); [by left|].
  destruct (proj1 (Hin h2)) as (t2 & Ht2 & Hs2); [by right; left|].
  apply Hown in Ht1, Ht2. rewrite Hs1 in Ht1. rewrite Hs2 in Ht2.
  assert (h1 = h2) as -> by congruence.
  apply NoDup_cons in Hnd as [Hnotin _]. apply Hnotin. by left.
Qed.

Lemma pendingTimers_singleton w ws h t :
  timersOwned w → timers w !! h = Some t → timer_state t = ws →
  pendingTimers w ws = [h].
Proof.
  intros Hw Ht Hws.
  pose proof (pendingTimers_at_most_one w ws Hw) as Hlen.
  assert (h ∈ pendingTimers w ws) as Hin
    by (apply elem_of_pendingTimers; eauto).
  destruct (pendingTimers w ws) as [|h1 [|h2 rest]]; simpl in *.
  - by apply elem_of_nil in Hin.
  - apply list_elem_of_singleton in Hin. by subst.
  - lia.
Qed.
End PendingTimers.

Section TypingStart.
Context {S : Type}.
Variable adapter : Z → UnitOfWork S.
Implicit Type w : World S.

Lemma execAll_app tasks1 tasks2 w :
  execAll adapter (tasks1 ++ tasks2) w
  = execAll adapter tasks2 (execAll adapter tasks1 w).
Proof.
  revert w. induction tasks1 as [|[env task] tasks1 IH]; intros w; [done|].
  simpl. apply IH.
Qed.

Lemma reachable_execAll tasks w :
  reachable adapter w → reachable adapter (execAll adapter tasks w).
Proof.
  revert w. induction tasks as [|[env task] tasks IH]; intros w Hw; [done|].
  simpl. apply IH. by constructor.
Qed.

(** What TYPING_START does on an authorized connection. *)
Lemma handleTypingStart_authorized env cid ws r w :
  authorized (stateOf w ws) = true →
  let w' := (ConnectionManager.handleTypingStart env cid ws r w).2 in
  timers w' !! nextTimer w
    = Some (mkTimer cid ws r (now env + CONSTANTS.TYPING_TIMEOUT_MS))
  ∧ connections w' = connections w
  ∧ authorized (stateOf w' ws) = true
  ∧ sends (λ x, is_USER_STOPPED_TYPING x.2 = false) w w'.
Proof.
  intros Hauth.
  pose proof Hauth as [Hu Hn]%andb_true_iff.
  unfold ConnectionManager.handleTypingStart, ConnectionManager.getState,
    bind, gets.
  rewrite Hu, Hn.
  set (P := λ x : nat * ServerEvent, is_USER_STOPPED_TYPING x.2 = false).
  assert (∀ r' ev ex w1,
    (∀ ws', P (ws', ev)) →
    let w2 := (ConnectionManager.broadcastToRoom r' ev ex w1).2 in
    timers w2 = timers w1 ∧ connections w2 = connections w1
    ∧ stateOf w2 ws = stateOf w1 ws ∧ sends P w1 w2) as Hb.
  { intros r' ev ex w1 HP w2. subst w2.
    assert (Blind (λ w : World S, (timers w, connections w, stateOf w ws)))
      as HB by by split.
    pose proof (same_broadcastToRoom _ HB r' ev ex w1) as [= -> -> ->].
    repeat split.
    eapply Steps_broadcastToRoom;
      [apply _|apply sends_Quiet|apply sends_Accepts|done]. }
  destruct (typingTimeout (stateOf w ws)) as [h|];
    cbn [negb orb ConnectionManager.clearTimeout ConnectionManager.setState
         ConnectionManager.setTimeout modify ret];
    cbv iota beta;
    match goal with
    | |- context [ConnectionManager.broadcastToRoom ?r' ?ev ?ex ?w1] =>
        set (W1 := w1);
        destruct (Hb r' ev ex W1) as (Ht & Hc & Hh & Hs); [done|]
    end;
    rewrite Ht, Hc, Hh; subst W1;
    rewrite stateOf_set_heap_eq;
    cbn [timers connections set_heap set_timers nextTimer authorized
         userId username];
    rewrite lookup_insert_eq;
    (repeat split; try done); try (by rewrite Hu, Hn);
    destruct Hs as (l & Hl & HP); exists l; split; done.
Qed.
End TypingStart.

Section TypingTimers.
Context {S : Type}.
Variable adapter : Z → UnitOfWork S.
Implicit Type w : World S.

Lemma exec_typing_start env cid ws r w :
  connections w !! cid = Some ws →
  exec adapter env (ws_message cid (Valid (TYPING_START r))) w
  = (ConnectionManager.handleTypingStart env cid ws r w).2.
Proof.
  intros Hconn. unfold exec. simpl.
  unfold ConnectionManager.handleMessage, bind, gets. by rewrite Hconn.
Qed.

Lemma starts_keep_typing cid ws starts : ∀ w,
  connections w !! cid = Some ws →
  authorized (stateOf w ws) = true →
  Forall (isTypingStartOn cid) starts →
  let w' := execAll adapter starts w in
  connections w' !! cid = Some ws
  ∧ authorized (stateOf w' ws) = true
  ∧ sends (λ x, is_USER_STOPPED_TYPING x.2 = false) w w'.
Proof.
  induction starts as [|[env task] starts IH]; intros w Hconn Hauth Hall.
  - simpl. repeat split; [done..|reflexivity].
  - apply Forall_cons in Hall as [[r Hr] Hall]. simpl in Hr. subst task.
    simpl. rewrite (exec_typing_start env cid ws r w Hconn).
    destruct (handleTypingStart_authorized env cid ws r w Hauth)
      as (_ & Hc & Ha & Hs).
    destruct (IH _ (eq_trans (f_equal (.!! cid) Hc) Hconn) Ha Hall)
      as (Hc' & Ha' & Hs').
    repeat split; [done..|]. by etrans.
Qed.

(** A due timer that fires does what an inbound TYPING_STOP for the room
    that armed it does. *)
Lemma fire_is_typing_stop env h t w :
  timersOwned w →
  timers w !! h = Some t →
  connections w !! timer_connectionId t = Some (timer_state t) →
  truthy (userId (stateOf w (timer_state t))) = true →
  (timer_due t ≤ now env)%Z →
  exec adapter env (timer_fires h) w
  = exec adapter env
      (ws_message (timer_connectionId t) (Valid (TYPING_STOP (timer_roomId t))))
      w.
Proof.
  intros [Hown _] Ht Hconn Huser Hdue.
  pose proof (Hown h t Ht) as Hheld.
  unfold exec. simpl.
  unfold ConnectionManager.handleMessage, ConnectionManager.fireTimer, bind,
    gets.
  rewrite Ht, Hconn. simpl.
  rewrite (proj2 (Z.leb_le _ _) Hdue), Ht. simpl.
  unfold ConnectionManager.handleTypingStop, ConnectionManager.getState,
    bind, gets. simpl.
  change (stateOf (set_timers _ _ w) (timer_state t))
    with (stateOf w (timer_state t)).
  rewrite Huser, Hheld. simpl. rewrite delete_delete_eq.
  done.
Qed.
End TypingTimers.

(** C7, amended.  In every state the server can reach, each session has at
    most one pending typing timer.  When TYPING_START frames arrive in a row
    on an authorized connection, exactly one timer is pending for it
    afterwards: the one the last frame armed, due 3000 ms after it, for the
    room that frame named; and none of the frames handed to sockets
    meanwhile is a USER_STOPPED_TYPING.  A due timer that fires, its
    connection still registered and authorized, leaves the world exactly as
    an inbound TYPING_STOP naming the room of the TYPING_START that armed
    it. *)
Theorem C7_one_pending_typing_timer_per_session
    {S} (adapter : Z → UnitOfWork S) (w : World S) (cid : string) (ws : nat)
    (starts : list (Env * Task)) (env_last : Env) (room_last : string) :
  reachable adapter w →
  connections w !! cid = Some ws →
  authorized (stateOf w ws) = true →
  Forall (isTypingStartOn cid) starts →
  last starts
    = Some (env_last, ws_message cid (Valid (TYPING_START room_last))) →
  let w' := execAll adapter starts w in
  (∀ v ws', reachable adapter v → length (pendingTimers v ws') ≤ 1)
  ∧ (∃ h, pendingTimers w' ws = [h]
          ∧ timers w' !! h
            = Some (mkTimer cid ws room_last (now env_last + 3000)))
  ∧ (∃ frames, sent w' = sent w ++ frames
               ∧ Forall (λ x, is_USER_STOPPED_TYPING x.2 = false) frames)
  ∧ (∀ v env h t,
       reachable adapter v →
       timers v !! h = Some t →
       connections v !! timer_connectionId t = Some (timer_state t) →
       truthy (userId (stateOf v (timer_state t))) = true →
       (timer_due t ≤ now env)%Z →
       exec adapter env (timer_fires h) v
       = exec adapter env
           (ws_message (timer_connectionId t)
              (Valid (TYPING_STOP (timer_roomId t)))) v).
Proof.
  intros Hreach Hconn Hauth Hall Hlast w'.
  split; [|split; [|split]].
  - intros v ws' Hv.
    by apply pendingTimers_at_most_one, (reachable_timersOwned adapter).
  - apply last_Some in Hlast as [init ->].
    apply Forall_app in Hall as [Hinit _].
    subst w'. rewrite execAll_app. simpl.
    set (mid := execAll adapter init w).
    destruct (starts_keep_typing adapter cid ws init w Hconn Hauth Hinit)
      as (Hc & Ha & _). fold mid in Hc, Ha.
    rewrite (exec_typing_start adapter env_last cid ws room_last mid Hc).
    destruct (handleTypingStart_authorized env_last cid ws room_last mid Ha)
      as (Ht & _).
    exists (nextTimer mid). split; [|exact Ht].
    eapply pendingTimers_singleton; [|exact Ht|done].
    rewrite <- (exec_typing_start adapter env_last cid ws room_last mid Hc).
    apply (reachable_timersOwned adapter). constructor.
    by apply reachable_execAll.
  - by destruct (starts_keep_typing adapter cid ws starts w Hconn Hauth Hall)
      as (_ & _ & Hs).
  - intros v env h t Hv.
    by apply fire_is_typing_stop, (reachable_timersOwned adapter).
Qed.

Lemma C7_one_pending_typing_timer_witness :
  let w' := execAll sqliteServer threeStarts twoInGeneral in
  (∀ v ws', reachable sqliteServer v → length (pendingTimers v ws') ≤ 1)
  ∧ (∃ h, pendingTimers w' 1 = [h]
          ∧ timers w' !! h = Some (mkTimer "c1" 1 "general" (7000 + 3000)))
  ∧ (∃ frames, sent w' = sent twoInGeneral ++ frames
               ∧ Forall (λ x, is_USER_STOPPED_TYPING x.2 = false) frames)
  ∧ (∀ v env h t,
       reachable sqliteServer v →
       timers v !! h = Some t →
       connections v !! timer_connectionId t = Some (timer_state t) →
       truthy (userId (stateOf v (timer_state t))) = true →
       (timer_due t ≤ now env)%Z →
       exec sqliteServer env (timer_fires h) v
       = exec sqliteServer env
           (ws_message (timer_connectionId t)
              (Valid (TYPING_STOP (timer_roomId t)))) v).
Proof.
  apply (C7_one_pending_typing_timer_per_session sqliteServer twoInGeneral
           "c1" 1 threeStarts (mkEnv 7000 "") "general").
  - apply reachable_execAll. constructor.
  - vm_compute. reflexivity.
  - vm_compute. reflexivity.
  - repeat constructor; eexists; reflexivity.
  - reflexivity.
Defined.

(** ** C10: what LEAVE_ROOM leaves behind *)

Section Lifting.
Context {S : Type}.
Implicit Type w : World S.

Lemma set_store_id w : set_store (store w) w = w.
Proof. by destruct w. Qed.

Lemma lift_Ok {A} (m : M S A) w a s :
  m (store w) = (Ok a, s) → lift m w = (Ok a, set_store s w).
Proof. intros H. unfold lift. by rewrite H. Qed.

Lemma lift_read {A} (m : M S A) w a :
  m (store w) = (Ok a, store w) → lift m w = (Ok a, w).
Proof. intros H. rewrite (lift_Ok _ _ _ _ H). by rewrite set_store_id. Qed.

(** Converting a message only reads: over the lifted unit of work it is the
    lifted conversion. *)
Lemma messageToDTO_lift (u : UnitOfWork S) m w :
  useCases.messageToDTO (liftUow u) m w = lift (useCases.messageToDTO u m) w.
Proof.
  unfold useCases.messageToDTO, lift, bind. simpl. unfold lift.
  destruct (users_findById (users u) _ (store w)) as [[[author|]|e] s1];
    simpl; try done.
  destruct (truthy (Message.replyTo m)); simpl; [|done].
  unfold bind, lift. simpl.
  destruct (messages_findById (messages u) _ s1) as [[[reply|]|e] s2];
    simpl; try done.
  unfold bind, lift. simpl.
  by destruct (users_findById (users u) _ s2) as [[ra|e] s3].
Qed.
End Lifting.

Section SqliteFacts.
Import sqlite.

Lemma head_filter_Exists {A} (P : A → Prop) `{!∀ x, Decision (P x)} l :
  Exists P l → ∃ x, head (filter P l) = Some x ∧ P x.
Proof.
  induction 1 as [x l Hx|x l _ IH].
  - exists x. by rewrite filter_cons_True.
  - destruct (decide (P x)).
    + exists x. by rewrite filter_cons_True.
    + by rewrite filter_cons_False.
Qed.

Lemma room_findById_hasRoom r db :
  hasRoom r db → ∃ room, room_findById r db = (Ok (Some room), db).
Proof.
  intros Hroom.
  destruct (head_filter_Exists (λ row, RoomRow.id row = r) _ Hroom)
    as (row & Hrow & _).
  unfold room_findById, bind, gets. rewrite Hrow. simpl. eauto.
Qed.

Lemma user_findById_hasUser u db :
  hasUser u db →
  ∃ user, user_findById u db = (Ok (Some user), db) ∧ User.id user = u.
Proof.
  intros Huser.
  destruct (head_filter_Exists (λ row, UserRow.id row = u) _ Huser)
    as (row & Hrow & Hid).
  unfold user_findById, gets. rewrite Hrow. simpl. eauto.
Qed.

Lemma dbKeeps_refl db : dbKeeps db db.
Proof. by repeat split. Qed.

Lemma dbKeeps_trans db1 db2 db3 :
  dbKeeps db1 db2 → dbKeeps db2 db3 → dbKeeps db1 db3.
Proof. unfold dbKeeps. intros (?&?&?&?) (?&?&?&?). repeat split; congruence. Qed.

Lemma dbKeeps_hasRoom db db' r : dbKeeps db db' → hasRoom r db → hasRoom r db'.
Proof. unfold hasRoom. by intros (_ & -> & _). Qed.

Lemma dbKeeps_hasMessage db db' m :
  dbKeeps db db' → hasMessage m db' ↔ hasMessage m db.
Proof. unfold hasMessage. by intros (_ & _ & -> & _). Qed.

Lemma dbKeeps_hasUser db db' u : dbKeeps db db' → hasUser u db → hasUser u db'.
Proof.
  unfold hasUser. intros (_ & _ & _ & Hids) Hu.
  apply Exists_exists in Hu as (row & Hin & Hid).
  assert (u ∈ UserRow.id <$> t_users db) as Hmem
    by (apply list_elem_of_fmap; eauto).
  rewrite <- Hids in Hmem. apply list_elem_of_fmap in Hmem as (row' & ? & ?).
  apply Exists_exists. eauto.
Qed.

Lemma room_removeParticipant_keeps r u db :
  locked db = false →
  ∃ db', room_removeParticipant r u db = (Ok tt, db') ∧ dbKeeps db db'.
Proof.
  intros H. unfold room_removeParticipant, write. rewrite H.
  eexists. split; [done|]. by repeat split.
Qed.

Lemma user_updateStatus_keeps t u st db :
  locked db = false →
  ∃ db', user_updateStatus t u st db = (Ok tt, db') ∧ dbKeeps db db'.
Proof.
  intros H. unfold user_updateStatus, write. rewrite H.
  eexists. split; [done|]. repeat split; simpl; try done.
  rewrite <- list_fmap_compose. apply list_fmap_ext. intros i row _. simpl.
  by case_decide.
Qed.

Lemma user_updateLastSeen_keeps t u db :
  locked db = false →
  ∃ db', user_updateLastSeen t u db = (Ok tt, db') ∧ dbKeeps db db'.
Proof.
  intros H. unfold user_updateLastSeen, write. rewrite H.
  eexists. split; [done|]. repeat split; simpl; try done.
  rewrite <- list_fmap_compose. apply list_fmap_ext. intros i row _. simpl.
  by case_decide.
Qed.

(** A message whose references hold is appended to the table. *)
Lemma message_save_appends t m db :
  locked db = false →
  ¬ hasMessage (Message.id m) db →
  hasRoom (Message.roomId m) db →
  hasUser (Message.authorId m) db →
  (∀ target, Message.replyTo m = Some target → hasMessage target db) →
  message_save t m db =
  (Ok tt,
   mkDatabase false (t_users db) (t_rooms db) (t_room_participants db)
     (t_messages db ++
        [MessageRow.mk (Message.id m) (Message.roomId m)
           (Message.authorId m) (Message.content m) (Message.replyTo m) 0
           (Message.createdAt m) None t])).
Proof.
  intros Hunlocked Hfresh Hroom Huser Hreply.
  unfold message_save, write. rewrite Hunlocked.
  rewrite bool_decide_eq_false_2 by done.
  rewrite (bool_decide_eq_true_2 _ Hroom), (bool_decide_eq_true_2 _ Huser).
  simpl. destruct (Message.replyTo m) as [target|]; [|done].
  by rewrite bool_decide_eq_true_2 by (right; by apply Hreply).
Qed.

(** On SQLite a message whose author is stored converts to a DTO. *)
Lemma messageToDTO_sqlite t m db :
  hasUser (Message.authorId m) db →
  ∃ dto,
    useCases.messageToDTO (sqliteServer t) m db = (Ok dto, db)
    ∧ MessageDTO.id dto = Message.id m
    ∧ MessageDTO.roomId dto = Message.roomId m
    ∧ Author.id (MessageDTO.author dto) = Message.authorId m
    ∧ MessageDTO.content dto = Message.content m.
Proof.
  intros (author & Hauthor & Hid)%user_findById_hasUser.
  unfold useCases.messageToDTO, sqliteServer. simpl.
  rewrite (bind_Ok _ _ _ _ _ Hauthor).
  destruct (truthy (Message.replyTo m)); simpl.
  - unfold bind at 1. unfold bind at 1.
    unfold message_findById at 1. unfold gets at 1.
    destruct (messageRowToEntity <$> _) as [reply|]; simpl.
    + unfold bind, user_findById, gets. simpl. eexists. by repeat split.
    + eexists. by repeat split.
  - eexists. by repeat split.
Qed.
End SqliteFacts.

Section SqliteServer.
Implicit Type w : World sqlite.Database.

(** One step of symbolic execution: the head of the computation returns. *)
Ltac returns H := rewrite (bind_Ok _ _ _ _ _ H).

(** The leave-room use case on a writable store that holds the room:
    it succeeds, and the store keeps its rooms, messages and user ids. *)
Lemma leaveRoom_sqlite t r u w :
  sqlite.locked (store w) = false →
  hasRoom r (store w) →
  ∃ db',
    useCases.leaveRoom (liftUow (sqliteServer t))
      (ConnectionManager.emit (sqliteServer t)) r u w
    = (Ok (success tt),
       set_emitted (emitted w ++ [room_user_left r u]) (set_store db' w))
    ∧ dbKeeps (store w) db'.
Proof.
  intros Hunlocked Hroom.
  destruct (room_findById_hasRoom r (store w) Hroom) as [room Hfind].
  destruct (room_removeParticipant_keeps r u (store w) Hunlocked)
    as (db1 & E1 & K1).
  assert (sqlite.locked db1 = false) as Hu1
    by (destruct K1 as [-> _]; done).
  destruct (user_updateStatus_keeps t u offline db1 Hu1) as (db2 & E2 & K2).
  assert (sqlite.locked db2 = false) as Hu2
    by (destruct K2 as [-> _]; done).
  destruct (user_updateLastSeen_keeps t u db2 Hu2) as (db3 & E3 & K3).
  exists db3. split; [|eauto using dbKeeps_trans].
  unfold useCases.leaveRoom.
  returns (lift_read (sqlite.room_findById r) w _ Hfind).
  returns (lift_Ok (sqlite.room_removeParticipant r u) w _ _ E1).
  returns (lift_Ok (sqlite.user_updateStatus t u offline)
             (set_store db1 w) _ _ E2).
  returns (lift_Ok (sqlite.user_updateLastSeen t u)
             (set_store db2 (set_store db1 w)) _ _ E3).
  done.
Qed.
End SqliteServer.

Section Routing.
Context {S : Type}.
Implicit Type w : World S.

Lemma bind_getState {B} ws (k : ConnectionState → M (World S) B) w :
  bind (ConnectionManager.getState ws) k w = k (stateOf w ws) w.
Proof. done. Qed.

Lemma bind_modify {B} (f : World S → World S) (k : unit → M (World S) B) w :
  bind (modify f) k w = k tt (f w).
Proof. done. Qed.

(** The loop of the router, from a world that differs from [w] in the
    frames sent and the console only: it returns such a world, and every
    registered, unbroken, not excluded subscriber it passes got the
    frame. *)
Lemma broadcast_loop ev ex w subs : ∀ l c,
  ∃ l' c',
    forM_ subs (λ connId,
      if decide (Some connId = ex) then ret tt
      else
        connection <- gets (λ w, connections w !! connId) ;;
        match connection with
        | Some connection => ConnectionManager.send connection ev
        | None => ret tt
        end) (set_console c (set_sent l w))
    = (Ok tt, set_console c' (set_sent (l ++ l') w))
    ∧ ∀ cid ws, cid ∈ subs → Some cid ≠ ex →
        connections w !! cid = Some ws → ws ∉ broken w → (ws, ev) ∈ l'.
Proof.
  induction subs as [|x subs IH]; intros l c.
  - exists [], c. rewrite app_nil_r. split; [done|].
    intros cid ws Hin. by apply elem_of_nil in Hin.
  - cbn [forM_].
    assert (∃ l1 c1,
      (if decide (Some x = ex) then ret tt
       else
         connection <- gets (λ w, connections w !! x) ;;
         match connection with
         | Some connection => ConnectionManager.send connection ev
         | None => ret tt
         end) (set_console c (set_sent l w))
      = (Ok tt, set_console c1 (set_sent (l ++ l1) w))
      ∧ ∀ ws, Some x ≠ ex → connections w !! x = Some ws →
          ws ∉ broken w → (ws, ev) ∈ l1) as (l1 & c1 & E1 & D1).
    { case_decide as Hex.
      - exists [], c. rewrite app_nil_r. split; [done|]. by intros ws Hne.
      - unfold bind, gets. cbn [connections set_console set_sent].
        destruct (connections w !! x) as [ws|] eqn:Hx.
        + rewrite send_eq. cbn [broken set_console set_sent sent console].
          case_decide as Hbroken.
          * eexists [], _. rewrite app_nil_r. split; [done|].
            intros ws' _ [= <-] Hnot. done.
          * exists [(ws, ev)], c. split; [done|].
            intros ws' _ [= <-] _. by left.
        + exists [], c. rewrite app_nil_r. split; [done|]. by intros ws _ ?. }
    rewrite (bind_Ok _ _ _ _ _ E1).
    destruct (IH (l ++ l1) c1) as (l2 & c2 & E2 & D2).
    exists (l1 ++ l2), c2. rewrite app_assoc. split; [done|].
    intros cid ws [->|Hin]%elem_of_cons Hne Hc Hb.
    + apply elem_of_app. left. by apply D1.
    + apply elem_of_app. right. by eapply D2.
Qed.

Lemma set_sent_console_id w :
  set_console (console w) (set_sent (sent w) w) = w.
Proof. by destruct w. Qed.

(** The router returns, changes the frames sent and the console only, and
    delivers to every registered, unbroken, not excluded subscriber. *)
Lemma broadcastToRoom_routes r ev ex w :
  ∃ l c,
    ConnectionManager.broadcastToRoom r ev ex w
    = (Ok tt, set_console c (set_sent (sent w ++ l) w))
    ∧ ∀ cid ws, cid ∈ subscribers w r → Some cid ≠ ex →
        connections w !! cid = Some ws → ws ∉ broken w → (ws, ev) ∈ l.
Proof.
  unfold ConnectionManager.broadcastToRoom, subscribers.
  rewrite bind_Ok with (a := roomSubscriptions w !! r) (s' := w) by done.
  destruct (roomSubscriptions w !! r) as [subs|]; simpl.
  - destruct (broadcast_loop ev ex w subs (sent w) (console w))
      as (l & c & E & D).
    rewrite set_sent_console_id in E. eauto.
  - exists [], (console w). rewrite app_nil_r, set_sent_console_id.
    split; [done|]. intros cid ws Hin. by apply elem_of_nil in Hin.
Qed.

(** Stopping the typing indicator returns; it touches the session, the
    timers, the frames sent and the console only. *)
Lemma handleTypingStop_routes cid ws r w :
  ∃ h tm l c,
    ConnectionManager.handleTypingStop cid ws r w
    = (Ok tt,
       set_console c
         (set_sent (sent w ++ l)
            (set_heap h (set_timers tm (nextTimer w) w)))).
Proof.
  unfold ConnectionManager.handleTypingStop. rewrite bind_getState.
  destruct (negb (truthy (userId (stateOf w ws)))).
  { exists (heap w), (timers w), [], (console w).
    rewrite app_nil_r. by destruct w. }
  destruct (typingTimeout (stateOf w ws)) as [handle|].
  - erewrite bind_Ok by reflexivity.
    match goal with |- context [ConnectionManager.broadcastToRoom ?r' ?e ?x ?w1]
      => destruct (broadcastToRoom_routes r' e x w1) as (l & c & -> & _)
    end.
    by eexists _, _, l, c.
  - rewrite bind_Ok with (a := tt) (s' := w) by done.
    destruct (broadcastToRoom_routes r
      (USER_STOPPED_TYPING (ConnectionManager.asString
         (userId (stateOf w ws))) r) (Some cid) w) as (l & c & -> & _).
    exists (heap w), (timers w), l, c. by destruct w.
Qed.
End Routing.

Section SqliteHandlers.
Implicit Type w : World sqlite.Database.

Ltac returns H := rewrite (bind_Ok _ _ _ _ _ H).

(** The send-message use case on a writable store that holds the room and
    the author, for a fresh message id and a reply target that exists: the
    message is appended to the table and converted. *)
Lemma sendMessage_sqlite env r uid content rt w :
  sqlite.locked (store w) = false →
  hasRoom r (store w) →
  hasUser uid (store w) →
  ¬ hasMessage (nanoid env) (store w) →
  (∀ target, truthy rt = true → rt = Some target →
             hasMessage target (store w)) →
  ∃ dto db',
    useCases.sendMessage (liftUow (sqliteServer (now env)))
      (ConnectionManager.emit (sqliteServer (now env))) env r uid content rt w
    = (Ok (success dto),
       set_emitted (emitted w ++ [message_sent (nanoid env) r uid])
         (set_store db' w))
    ∧ MessageDTO.id dto = nanoid env
    ∧ MessageDTO.roomId dto = r
    ∧ Author.id (MessageDTO.author dto) = uid
    ∧ MessageDTO.content dto = content
    ∧ sqlite.MessageRow.mk (nanoid env) r uid content
        (if truthy rt then rt else None) 0 (now env) None (now env)
      ∈ sqlite.t_messages db'.
Proof.
  intros Hunlocked Hroom Huser Hfresh Hreply.
  destruct (room_findById_hasRoom r (store w) Hroom) as [room Hfind].
  destruct (user_findById_hasUser uid (store w) Huser)
    as (author & Hauthor & _).
  set (message := MessageFactory.create env r uid content
                    (if truthy rt then rt else None)).
  assert (∀ target, Message.replyTo message = Some target →
                    hasMessage target (store w)) as Hfk.
  { simpl. destruct (truthy rt) eqn:Ert; [|done]. intros target.
    by apply Hreply. }
  pose proof (message_save_appends (now env) message (store w)
                Hunlocked Hfresh Hroom Huser Hfk) as Hsave.
  match type of Hsave with _ = (_, ?d) => set (db' := d) in * end.
  assert (hasUser (Message.authorId message) db') as Huser' by done.
  destruct (messageToDTO_sqlite (now env) message db' Huser')
    as (dto & Hdto & Hid & Hrm & Hau & Hco).
  exists dto, db'.
  split; [|repeat split; try done].
  - unfold useCases.sendMessage.
    returns (lift_read (sqlite.room_findById r) w _ Hfind).
    returns (lift_read (sqlite.user_findById uid) w _ Hauthor).
    fold message.
    returns (lift_Ok (sqlite.message_save (now env) message) w _ _ Hsave).
    erewrite bind_Ok by reflexivity.
    erewrite bind_Ok.
    2: { rewrite messageToDTO_lift. apply lift_read. exact Hdto. }
    done.
  - subst db'. simpl. apply elem_of_app. right. by left.
Qed.

Lemma after_broadcast r ev ex w (Q : World sqlite.Database → Prop) :
  (∀ l c, Q (set_console c (set_sent (sent w ++ l) w))) →
  ∃ w1, ConnectionManager.broadcastToRoom r ev ex w = (Ok tt, w1) ∧ Q w1.
Proof.
  intros HQ. destruct (broadcastToRoom_routes r ev ex w) as (l & c & -> & _).
  eauto.
Qed.

(** LEAVE_ROOM on the SQLite server, from a joined session. *)
Lemma leave_sqlite env cid ws r w :
  connections w !! cid = Some ws →
  truthy (userId (stateOf w ws)) = true →
  truthy (roomId (stateOf w ws)) = true →
  sqlite.locked (store w) = false →
  hasRoom r (store w) →
  ∃ w1,
    runTask sqliteServer env (ws_message cid (Valid (LEAVE_ROOM r))) w
    = (Ok tt, w1)
    ∧ dbKeeps (store w) (store w1)
    ∧ heap w1 = heap w
    ∧ connections w1 = connections w
    ∧ broken w1 = broken w
    ∧ subscribers w1 r = set_delete cid (subscribers w r).
Proof.
  intros Hconn Huser Hjoined Hunlocked Hroom. simpl.
  unfold ConnectionManager.handleMessage.
  rewrite bind_Ok with (a := Some ws) (s' := w)
    by (unfold gets; by rewrite Hconn).
  simpl. unfold ConnectionManager.handleLeaveRoom. rewrite bind_getState.
  rewrite Huser, Hjoined. simpl.
  destruct (leaveRoom_sqlite (now env) r
              (ConnectionManager.asString (userId (stateOf w ws))) w
              Hunlocked Hroom) as (db' & Hleave & Hkeeps).
  returns Hleave.
  unfold ConnectionManager.leaveRoom. rewrite bind_modify. cbv beta.
  apply after_broadcast. intros l c. unfold subscribers.
  change (roomSubscriptions (set_emitted _ (set_store db' w)))
    with (roomSubscriptions w).
  destruct (roomSubscriptions w !! r) as [subs|] eqn:Esubs.
  - case_decide as Hempty; (split; [exact Hkeeps|]);
      (repeat split; try done);
      cbn [roomSubscriptions set_roomSubscriptions set_console set_sent].
    + rewrite lookup_delete_eq. simpl.
      apply nil_length_inv in Hempty. by rewrite Hempty.
    + by rewrite lookup_insert_eq.
  - split; [exact Hkeeps|]. repeat split; try done.
    cbn [roomSubscriptions set_emitted set_store set_console set_sent].
    by rewrite Esubs.
Qed.
End SqliteHandlers.

Section SendGoesThrough.
Implicit Type w : World sqlite.Database.

Ltac returns H := rewrite (bind_Ok _ _ _ _ _ H).

(** SEND_MESSAGE on the SQLite server, from an authorized session under
    its rate limit: the message is persisted and handed to the socket of
    every registered, unbroken subscriber of the room named. *)
Lemma send_sqlite env cid ws uid r content rt w :
  connections w !! cid = Some ws →
  userId (stateOf w ws) = Some uid →
  authorized (stateOf w ws) = true →
  (checkRateLimit (now env) (stateOf w ws)).1 = true →
  sqlite.locked (store w) = false →
  hasRoom r (store w) →
  hasUser uid (store w) →
  ¬ hasMessage (nanoid env) (store w) →
  (∀ target, truthy rt = true → rt = Some target →
             hasMessage target (store w)) →
  let out :=
    runTask sqliteServer env
      (ws_message cid (Valid (SEND_MESSAGE r content rt))) w in
  out.1 = Ok tt
  ∧ ∃ dto,
      MessageDTO.id dto = nanoid env
      ∧ MessageDTO.roomId dto = r
      ∧ Author.id (MessageDTO.author dto) = uid
      ∧ MessageDTO.content dto = content
      ∧ sqlite.MessageRow.mk (nanoid env) r uid content
          (if truthy rt then rt else None) 0 (now env) None (now env)
        ∈ sqlite.t_messages (store out.2)
      ∧ ∀ cid' ws', cid' ∈ subscribers w r →
          connections w !! cid' = Some ws' → ws' ∉ broken w →
          (ws', MESSAGE_RECEIVED dto) ∈ sent out.2.
Proof.
  intros Hconn Huid Hauth Hrate Hunlocked Hroom Huser Hfresh Hreply out.
  subst out. simpl.
  unfold ConnectionManager.handleMessage.
  rewrite bind_Ok with (a := Some ws) (s' := w)
    by (unfold gets; by rewrite Hconn).
  simpl. unfold ConnectionManager.handleSendMessage.
  returns (validateUserAuthorized_true ws w Hauth). simpl.
  assert (ConnectionManager.validateRateLimit env ws w
          = (Ok true, counted env ws w)) as Hlimit
    by (by rewrite validateRateLimit_eq, Hrate).
  returns Hlimit. simpl. rewrite bind_getState.
  assert (userId (stateOf (counted env ws w) ws) = Some uid) as ->.
  { unfold counted. rewrite stateOf_set_heap_eq.
    destruct (checkRateLimit_user (now env) (stateOf w ws)) as [-> _]. done. }
  simpl.
  destruct (sendMessage_sqlite env r uid content
              (if truthy rt then rt else None) (counted env ws w))
    as (dto & db' & Hsend & Hid & Hrm & Hau & Hco & Hrow); try done.
  { intros target Ht Hrt. destruct (truthy rt) eqn:E; [|done]. by apply Hreply. }
  returns Hsend. simpl.
  match goal with
  | |- context [bind (ConnectionManager.handleTypingStop ?c ?s ?r') _ ?w1] =>
      destruct (handleTypingStop_routes c s r' w1)
        as (h & tm & l & co & Hstop)
  end.
  returns Hstop.
  match goal with |- context [ConnectionManager.broadcastToRoom ?r' ?e ?x ?w1]
    => destruct (broadcastToRoom_routes r' e x w1) as (l' & co' & -> & Hdel)
  end.
  split; [done|]. exists dto. repeat split; try done.
  - simpl. replace (if truthy (if truthy rt then rt else None)
                    then if truthy rt then rt else None else None)
      with (if truthy rt then rt else None) in Hrow
      by (by destruct (truthy rt) eqn:E; rewrite ?E).
    exact Hrow.
  - intros cid' ws' Hsub Hc Hb. simpl.
    apply elem_of_app. right. by eapply Hdel.
Qed.
End SendGoesThrough.

(** C10.  Whatever the storage adapter, a LEAVE_ROOM frame leaves every
    session as it was (so the user, the name and the room of the session
    keep the values of the join), as well as the connection table, the
    user table and the timers; of the registry only subscriber sets
    change.  On the SQLite server, for a joined session whose LEAVE_ROOM
    names an existing room: the connection is no longer subscribed to that
    room, and a SEND_MESSAGE it then sends to the room (under the rate
    limit, with a fresh message id and an existing reply target) is not
    refused: the handler returns, the message is persisted with the user of
    the session as author, and MESSAGE_RECEIVED is handed to the socket of
    every registered, unbroken subscriber of the room. *)
Theorem C10_leave_keeps_the_session_and_send_still_goes_through :
  (∀ S (adapter : Z → UnitOfWork S) (env : Env) (cid r : string)
     (w : World S),
     let w1 := exec adapter env (ws_message cid (Valid (LEAVE_ROOM r))) w in
     heap w1 = heap w
     ∧ connections w1 = connections w
     ∧ userConnections w1 = userConnections w
     ∧ timers w1 = timers w)
  ∧ (∀ (w : World sqlite.Database) (cid : string) (ws : nat)
       (uid r content : string) (rt : option string) (env1 env2 : Env),
       connections w !! cid = Some ws →
       userId (stateOf w ws) = Some uid →
       authorized (stateOf w ws) = true →
       truthy (roomId (stateOf w ws)) = true →
       (checkRateLimit (now env2) (stateOf w ws)).1 = true →
       sqlite.locked (store w) = false →
       hasRoom r (store w) →
       hasUser uid (store w) →
       ¬ hasMessage (nanoid env2) (store w) →
       (∀ target, truthy rt = true → rt = Some target →
                  hasMessage target (store w)) →
       let w1 :=
         exec sqliteServer env1 (ws_message cid (Valid (LEAVE_ROOM r))) w in
       let out :=
         runTask sqliteServer env2
           (ws_message cid (Valid (SEND_MESSAGE r content rt))) w1 in
       stateOf w1 ws = stateOf w ws
       ∧ subscribers w1 r = set_delete cid (subscribers w r)
       ∧ set_has cid (subscribers w1 r) = false
       ∧ out.1 = Ok tt
       ∧ ∃ dto,
           MessageDTO.id dto = nanoid env2
           ∧ MessageDTO.roomId dto = r
           ∧ Author.id (MessageDTO.author dto) = uid
           ∧ MessageDTO.content dto = content
           ∧ sqlite.MessageRow.mk (nanoid env2) r uid content
               (if truthy rt then rt else None) 0 (now env2) None (now env2)
             ∈ sqlite.t_messages (store out.2)
           ∧ ∀ cid' ws', cid' ∈ subscribers w1 r →
               connections w !! cid' = Some ws' → ws' ∉ broken w →
               (ws', MESSAGE_RECEIVED dto) ∈ sent out.2).
Proof.
  split.
  - intros S adapter env cid r w w1. subst w1. unfold exec.
    assert (Steps (same (λ w : World S,
              (heap w, connections w, userConnections w, timers w)))
              (runTask adapter env (ws_message cid (Valid (LEAVE_ROOM r)))))
      as Hsame; [|by injection (Hsame w) as H1 H2 H3 H4].
    assert (Blind (λ w : World S,
              (heap w, connections w, userConnections w, timers w)))
      as HB by by split.
    simpl. unfold ConnectionManager.handleMessage,
      ConnectionManager.routeEvent,
      ConnectionManager.handleLeaveRoom, ConnectionManager.getState,
      ConnectionManager.leaveRoom, ConnectionManager.console_error.
    steps; auto with blind; try reflexivity.
    + apply Steps_leaveRoom; [apply _| |]; auto with blind.
    + unfold same. by repeat case_match.
  - intros w cid ws uid r content rt env1 env2 Hconn Huid Hauth Hjoined Hrate
      Hunlocked Hroom Huser Hfresh Hreply w1 out.
    assert (truthy (userId (stateOf w ws)) = true) as Htruthy
      by (by apply andb_true_iff in Hauth as [? _]).
    destruct (leave_sqlite env1 cid ws r w Hconn Htruthy Hjoined Hunlocked
                Hroom) as (w1' & Hleave & Hkeeps & Hheap & Hc & Hb & Hsubs).
    assert (w1 = w1') as -> by (subst w1; unfold exec; by rewrite Hleave).
    assert (stateOf w1' ws = stateOf w ws) as Hst
      by (unfold stateOf; by rewrite Hheap).
    split; [done|]. split; [done|]. split.
    { rewrite Hsubs. unfold set_has, set_delete.
      apply bool_decide_eq_false. rewrite list_elem_of_filter. tauto. }
    subst out.
    destruct (send_sqlite env2 cid ws uid r content rt w1') as (Hok & Hdto).
    all: rewrite ?Hst, ?Hc; try done.
    + by destruct Hkeeps as [-> _].
    + by eapply dbKeeps_hasRoom.
    + by eapply dbKeeps_hasUser.
    + by rewrite (dbKeeps_hasMessage _ _ _ Hkeeps).
    + intros target Ht Hrt. rewrite (dbKeeps_hasMessage _ _ _ Hkeeps).
      by apply Hreply.
    + split; [done|]. destruct Hdto as (dto & ? & ? & ? & ? & ? & Hdel).
      exists dto. repeat split; try done.
      intros cid' ws' Hin Hc' Hb'.
      apply (Hdel cid' ws'); [done|by rewrite Hc|by rewrite Hb].
Qed.

(** ** The claims at concrete inputs *)

Lemma C10_leave_then_send_witness :
  let w := twoInGeneral in
  let w1 := exec sqliteServer aliceLeaves.1 aliceLeaves.2 w in
  let out :=
    runTask sqliteServer aliceWritesAfterLeaving.1
      aliceWritesAfterLeaving.2 w1 in
  stateOf w1 1 = stateOf w 1
  ∧ subscribers w1 "general" = set_delete "c1" (subscribers w "general")
  ∧ set_has "c1" (subscribers w1 "general") = false
  ∧ out.1 = Ok tt
  ∧ ∃ dto,
      MessageDTO.id dto = "m1"
      ∧ MessageDTO.roomId dto = "general"
      ∧ Author.id (MessageDTO.author dto) = "u-alice"
      ∧ MessageDTO.content dto = "still here"
      ∧ sqlite.MessageRow.mk "m1" "general" "u-alice" "still here"
          None 0 6000 None 6000
        ∈ sqlite.t_messages (store out.2)
      ∧ ∀ cid' ws', cid' ∈ subscribers w1 "general" →
          connections w !! cid' = Some ws' → ws' ∉ broken w →
          (ws', MESSAGE_RECEIVED dto) ∈ sent out.2.
Proof.
  apply (proj2 C10_leave_keeps_the_session_and_send_still_goes_through
           twoInGeneral "c1" 1 "u-alice" "general" "still here" None
           (mkEnv 5000 "") (mkEnv 6000 "m1")).
  - vm_compute. reflexivity.
  - vm_compute. reflexivity.
  - vm_compute. reflexivity.
  - vm_compute. reflexivity.
  - vm_compute. reflexivity.
  - vm_compute. reflexivity.
  - apply Exists_cons_hd. reflexivity.
  - apply Exists_cons_hd. reflexivity.
  - intros H. vm_compute in H. inversion H.
  - intros target H. discriminate H.
Defined.

Lemma C8_unauthorized_frames_witness :
  ∃ w',
    ConnectionManager.handleMessage (sqliteServer 5000) (mkEnv 5000 "m1")
      "c3" (Valid (SEND_MESSAGE "general" "hi" None)) withNewcomer
      = (Ok tt, w')
    ∧ store w' = store withNewcomer
    ∧ emitted w' = emitted withNewcomer
    ∧ registry w' = registry withNewcomer
    ∧ sent w' = sent withNewcomer ++
        [(3, ERROR "UNAUTHORIZED" "Must join a room first")].
Proof.
  destruct (C8_unauthorized_frames_stop_at_the_gate (sqliteServer 5000)
              (mkEnv 5000 "m1") "c3" 3 withNewcomer
              (SEND_MESSAGE "general" "hi" None))
    as (w' & Hrun & Hstore & Hemitted & Hregistry & Hsent & _).
  - vm_compute. reflexivity.
  - vm_compute. reflexivity.
  - reflexivity.
  - exists w'. repeat split; assumption.
Defined.

Lemma C1_attempt_31_witness :
  let before := execAll sqliteServer (take 30 thirtyOneSends) twoInGeneral in
  let env := mkEnv 40000 "_" in
  let task := ws_message "c1" (Valid (SEND_MESSAGE "general" "hi" None)) in
  let after := exec sqliteServer env task before in
  messageCount (stateOf after 1) = 31%Z
  ∧ runTask sqliteServer env task before = (Ok tt, after)
  ∧ store after = store before
  ∧ emitted after = emitted before
  ∧ roomSubscriptions after = roomSubscriptions before
  ∧ sent after = sent before ++ [RATE_LIMITED_frame 1].
Proof.
  intros before env task after.
  destruct (C1_attempt_31_is_rejected_and_counted sqliteServer "c1" 1
              twoInGeneral 10000 thirtyOneSends 30 env task) as [Hn Hrej].
  - vm_compute. reflexivity.
  - vm_compute. reflexivity.
  - left. vm_compute. reflexivity.
  - apply Forall_fmap, Forall_forall. intros i Hi%elem_of_seq.
    split; [by eexists _, _, _|]. simpl. lia.
  - vm_compute. reflexivity.
  - split; [exact Hn|].
    destruct (decide (30 < 30)) as [Hlt|_]; [lia|].
    case_decide as Hin; [|exact Hrej].
    vm_compute in Hin. discriminate Hin.
Defined.

Lemma thirty_one_sends_on_sqlite :
  let w := execAll sqliteServer thirtyOneSends twoInGeneral in
  length (sqlite.t_messages (store w)) = 30
  ∧ length (filter (λ x, is_MESSAGE_RECEIVED x.2 = true) (sent w)) = 60
  ∧ last (sent w) = Some (RATE_LIMITED_frame 1)
  ∧ messageCount (stateOf w 1) = 31%Z.
Proof. vm_compute. repeat split; reflexivity. Qed.

(* ===================================================================== *)
(** * Rows in the order of a key *)

Section OrderBy.
Import sqlite.
Context {A : Type} (R : relation A) `{!RelDecision R}.

Lemma insert_row_Permutation x (l : list A) : insert_row R x l ≡ₚ x :: l.
Proof.
  induction l as [|y l IH]; [done|]. simpl. case_decide; [done|].
  rewrite IH. apply Permutation_swap.
Qed.

Lemma order_by_Permutation (l : list A) : order_by R l ≡ₚ l.
Proof.
  induction l as [|x l IH]; [done|].
  cbn [order_by foldr]. fold (order_by R l).
  by rewrite insert_row_Permutation, IH.
Qed.

Lemma elem_of_order_by x (l : list A) : x ∈ order_by R l ↔ x ∈ l.
Proof. by rewrite order_by_Permutation. Qed.

Lemma length_order_by (l : list A) : length (order_by R l) = length l.
Proof. by rewrite order_by_Permutation. Qed.

Context `{!Transitive R} `{!Total R}.

Lemma insert_row_StronglySorted x (l : list A) :
  StronglySorted R l → StronglySorted R (insert_row R x l).
Proof.
  induction 1 as [|y l Hl IH Hy]; simpl.
  - repeat constructor.
  - case_decide as Hxy.
    + constructor; [by constructor|]. constructor; [done|].
      eapply Forall_impl; [exact Hy|]. intros z Hz. by transitivity y.
    + constructor; [done|].
      rewrite insert_row_Permutation. constructor; [|done].
      by destruct (total R x y).
Qed.

Lemma order_by_StronglySorted (l : list A) : StronglySorted R (order_by R l).
Proof.
  induction l as [|x l IH]; [constructor|].
  cbn [order_by foldr]. by apply insert_row_StronglySorted.
Qed.

(** Taking rows out of the list takes them out of the listing and leaves
    the others where they are. *)
Lemma insert_row_filter_in (P : A → Prop) `{!∀ x, Decision (P x)}
    x (l : list A) :
  StronglySorted R l → P x →
  filter P (insert_row R x l) = insert_row R x (filter P l).
Proof.
  intros Hl Hx. induction Hl as [|y l Hl IH Hy]; simpl.
  - by rewrite filter_cons_True, filter_nil.
  - case_decide as Hxy.
    + rewrite filter_cons_True by done.
      destruct (decide (P y)) as [Hpy|Hpy].
      * rewrite !filter_cons_True by done. simpl.
        by rewrite decide_True by done.
      * rewrite !filter_cons_False by done.
        assert (Forall (R x) (filter P l)) as Hall.
        { apply Forall_forall. intros z [_ Hz]%list_elem_of_filter.
          rewrite Forall_forall in Hy. transitivity y; [done|by apply Hy]. }
        destruct (filter P l) as [|z zs]; [done|]. simpl.
        apply Forall_cons in Hall as [Hxz _]. by rewrite decide_True by done.
    + destruct (decide (P y)) as [Hpy|Hpy].
      * rewrite !filter_cons_True by done. simpl.
        rewrite decide_False by done. by rewrite IH.
      * rewrite !filter_cons_False by done. exact IH.
Qed.

Lemma insert_row_filter_out (P : A → Prop) `{!∀ x, Decision (P x)}
    x (l : list A) :
  ¬ P x → filter P (insert_row R x l) = filter P l.
Proof.
  intros Hx. induction l as [|y l IH]; simpl.
  - by rewrite filter_cons_False.
  - case_decide; [by rewrite filter_cons_False|].
    destruct (decide (P y)).
    + rewrite !filter_cons_True by done. by rewrite IH.
    + by rewrite !filter_cons_False by done.
Qed.

Lemma order_by_filter (P : A → Prop) `{!∀ x, Decision (P x)} (l : list A) :
  order_by R (filter P l) = filter P (order_by R l).
Proof.
  induction l as [|x l IH]; [done|].
  cbn [order_by foldr]. fold (order_by R l).
  destruct (decide (P x)) as [Hx|Hx].
  - rewrite filter_cons_True by done. cbn [order_by foldr].
    fold (order_by R (filter P l)). rewrite IH.
    by rewrite insert_row_filter_in by (done || apply order_by_StronglySorted).
  - rewrite filter_cons_False by done.
    by rewrite insert_row_filter_out.
Qed.
End OrderBy.

(* ===================================================================== *)
(** * Further properties of the manager *)

(** ** What every handler but the rate limiter respects *)

Section StableHandlers.
Context {S : Type} (R : relation (World S)) `{!PreOrder R}.
Hypothesis HR : Stable R.
Variable store0 : UnitOfWork S.
Variable env : Env.

Lemma Stable_uow : StepsUow R (liftUow store0).
Proof. apply StepsUow_lift, HR. Qed.

Lemma Stable_send ws ev : Steps R (ConnectionManager.send ws ev).
Proof. eapply Steps_send; [apply _|apply HR|apply HR|done]. Qed.

Lemma Stable_broadcastToRoom r ev ex :
  Steps R (ConnectionManager.broadcastToRoom r ev ex).
Proof. eapply Steps_broadcastToRoom; [apply _|apply HR|apply HR|done]. Qed.

Lemma Stable_emit ev : Steps R (ConnectionManager.emit store0 ev).
Proof. eapply Steps_emit; [apply _|apply HR|apply HR|done]. Qed.

Lemma Stable_handleTypingStop cid ws r :
  Steps R (ConnectionManager.handleTypingStop cid ws r).
Proof.
  unfold ConnectionManager.handleTypingStop, ConnectionManager.getState.
  steps; auto using Stable_broadcastToRoom; apply HR.
Qed.

Lemma Stable_handleTypingStart cid ws r :
  Steps R (ConnectionManager.handleTypingStart env cid ws r).
Proof.
  unfold ConnectionManager.handleTypingStart, ConnectionManager.getState.
  steps; auto using Stable_broadcastToRoom; apply HR.
Qed.

Lemma Stable_handleJoinRoom cid ws r n :
  Steps R (ConnectionManager.handleJoinRoom store0 env cid ws r n).
Proof.
  unfold ConnectionManager.handleJoinRoom.
  steps; auto using Stable_broadcastToRoom, Stable_send; try apply HR.
  - apply Steps_joinRoom; auto using Stable_uow, Stable_emit; apply _.
  - apply Steps_getRooms; auto using Stable_uow; apply _.
Qed.

Lemma Stable_handleLeaveRoom cid ws r :
  Steps R (ConnectionManager.handleLeaveRoom store0 cid ws r).
Proof.
  unfold ConnectionManager.handleLeaveRoom, ConnectionManager.getState.
  steps; auto using Stable_broadcastToRoom; try apply HR.
  apply Steps_leaveRoom; auto using Stable_uow, Stable_emit; apply _.
Qed.

Lemma Stable_handleEditMessage ws i c :
  Steps R (ConnectionManager.handleEditMessage store0 env ws i c).
Proof.
  unfold ConnectionManager.handleEditMessage, ConnectionManager.getState.
  steps; auto using Stable_broadcastToRoom, Stable_send.
  apply Steps_editMessage; auto using Stable_uow, Stable_emit; apply _.
Qed.

Lemma Stable_handleDeleteMessage ws i :
  Steps R (ConnectionManager.handleDeleteMessage store0 ws i).
Proof.
  unfold ConnectionManager.handleDeleteMessage, ConnectionManager.getState.
  steps; auto using Stable_broadcastToRoom, Stable_send.
  apply Steps_deleteMessage; auto using Stable_uow, Stable_emit; apply _.
Qed.

Lemma Stable_handleUpdateStatus ws st :
  Steps R (ConnectionManager.handleUpdateStatus store0 ws st).
Proof.
  unfold ConnectionManager.handleUpdateStatus, ConnectionManager.getState.
  steps.
  apply Steps_updateUserStatus; auto using Stable_uow, Stable_emit; apply _.
Qed.

(** The handler of SEND_MESSAGE, given that the limiter respects [R]. *)
Lemma Stable_handleSendMessage cid ws r c rt :
  Steps R (ConnectionManager.validateRateLimit env ws) →
  Steps R (ConnectionManager.handleSendMessage store0 env cid ws r c rt).
Proof.
  intros Hlimit.
  unfold ConnectionManager.handleSendMessage,
    ConnectionManager.validateUserAuthorized, ConnectionManager.sendError,
    ConnectionManager.getState.
  steps; auto using Stable_broadcastToRoom, Stable_send,
    Stable_handleTypingStop.
  apply Steps_sendMessage; auto using Stable_uow, Stable_emit; apply _.
Qed.

Lemma Stable_removeConnection id :
  Steps R (ConnectionManager.removeConnection store0 id).
Proof.
  unfold ConnectionManager.removeConnection, ConnectionManager.getState.
  steps; auto using Stable_broadcastToRoom, Stable_emit; try apply HR;
    apply Stable_uow.
Qed.

Lemma Stable_fireTimer h : Steps R (ConnectionManager.fireTimer (S:=S) h).
Proof.
  unfold ConnectionManager.fireTimer.
  steps; auto using Stable_handleTypingStop; apply HR.
Qed.
End StableHandlers.

Section StableTasks.
Context {S : Type} (R : relation (World S)) `{!PreOrder R}.
Hypothesis HR : Stable R.
Variable adapter : Z → UnitOfWork S.

(** Every task that is not a SEND_MESSAGE frame. *)
Lemma Stable_runTask_notSend env task :
  notSend task → Steps R (runTask adapter env task).
Proof.
  intros Hns. destruct task as [id ws|id raw|id|h]; simpl.
  - apply Steps_modify. intros w. apply HR.
  - unfold ConnectionManager.handleMessage, ConnectionManager.routeEvent,
      ConnectionManager.sendError, ConnectionManager.console_error.
    steps; auto using Stable_send, Stable_handleJoinRoom,
      Stable_handleLeaveRoom, Stable_handleEditMessage,
      Stable_handleDeleteMessage, Stable_handleTypingStart,
      Stable_handleTypingStop, Stable_handleUpdateStatus;
      try apply HR; done.
  - by apply Stable_removeConnection.
  - steps; auto using Stable_fireTimer.
Qed.

(** Every task, given that the limiter respects [R]. *)
Lemma Stable_runTask env task :
  (∀ ws, Steps R (ConnectionManager.validateRateLimit env ws)) →
  Steps R (runTask adapter env task).
Proof.
  intros Hlimit.
  destruct task as [id ws|id [| |[]]|id|h];
    try (by apply Stable_runTask_notSend).
  simpl. unfold ConnectionManager.handleMessage, ConnectionManager.routeEvent,
    ConnectionManager.console_error.
  steps; [by apply Stable_handleSendMessage|]. apply HR.
Qed.
End StableTasks.

(** ** The rate limiter under sustained attempts *)

(** X1.  A session at the ceiling stays rejected for as long as its
    attempts keep coming: when the count is 30 or more and every attempt is
    made at most 60 s after the one before it, every attempt is rejected,
    and each of them pushes the count up by one. *)
Theorem rate_limit_holds_while_attempts_keep_coming
    (times : list Z) (state : ConnectionState) :
  (30 ≤ messageCount state)%Z →
  gapsWithin 60000 (lastMessageTime state) times →
  Forall (λ ok, ok = false) (rateVerdicts times state)
  ∧ messageCount (rateState times state)
    = (messageCount state + Z.of_nat (length times))%Z.
Proof.
  revert state. induction times as [|t times IH]; intros state Hfull Hgaps.
  - split; [constructor|]. simpl. lia.
  - destruct Hgaps as [Hgap Hrest]. cbn [rateVerdicts rateState].
    rewrite checkRateLimit_eq.
    destruct (lastMessageTime state <? t - 60000)%Z eqn:E;
      [apply Z.ltb_lt in E; lia|].
    cbn [snd].
    destruct (IH (mkState (userId state) (roomId state) (username state)
                    (typingTimeout state) t (messageCount state + 1)))
      as [Hall Hcount]; [simpl; lia|done|].
    split.
    + constructor; [|done]. apply Z.leb_gt. lia.
    + rewrite Hcount. simpl. lia.
Qed.

Lemma rate_limit_holds_witness :
  Forall (λ ok, ok = false)
    (rateVerdicts [140000; 200000; 260000]%Z
       (rateState burst initialState))
  ∧ messageCount
      (rateState [140000; 200000; 260000]%Z (rateState burst initialState))
    = (messageCount (rateState burst initialState) + Z.of_nat 3)%Z.
Proof.
  apply (rate_limit_holds_while_attempts_keep_coming
           [140000; 200000; 260000]%Z (rateState burst initialState)).
  - vm_compute. discriminate.
  - vm_compute. repeat split; discriminate.
Defined.

(** ** What touches the rate window *)

Section RateWindowOf.
Context {S : Type}.
Implicit Type w : World S.

Lemma rateWindowOf_Stable ws :
  Stable (same (λ w, rateWindowOf (S:=S) w ws)).
Proof.
  split; try done.
  - intros ws' u r n w. unfold same, rateWindowOf. simpl.
    rewrite stateOf_insert. by case_decide; subst.
  - intros ws' h w. unfold same, rateWindowOf. simpl.
    rewrite stateOf_insert. by case_decide; subst.
  - intros cid r w. unfold same, rateWindowOf. simpl.
    unfold ConnectionManager.leaveRoom, modify. simpl.
    by repeat case_match.
Qed.
End RateWindowOf.

(** X2.  Only a SEND_MESSAGE frame touches the rate window: whatever else
    the server runs (any other frame, valid or not, from any connection; a
    socket opening or closing; a timer), the stamp and the count of every
    session stay as they are.  In particular joining again does not reset
    the window. *)
Theorem only_SEND_MESSAGE_touches_the_rate_window
    {S} (adapter : Z → UnitOfWork S) (env : Env) (task : Task)
    (w : World S) (ws : nat) :
  notSend task →
  rateWindowOf (exec adapter env task w) ws = rateWindowOf w ws.
Proof.
  intros Hns.
  apply (Stable_runTask_notSend (same (λ w, rateWindowOf w ws))
           (rateWindowOf_Stable ws) adapter env task Hns w).
Qed.

Lemma only_SEND_MESSAGE_witness :
  let w := execAll sqliteServer thirtyOneSends twoInGeneral in
  rateWindowOf
    (exec sqliteServer (mkEnv 41000 "")
       (ws_message "c1" (Valid (JOIN_ROOM "random" "alice"))) w) 1
  = rateWindowOf w 1.
Proof.
  apply (only_SEND_MESSAGE_touches_the_rate_window sqliteServer
           (mkEnv 41000 "")
           (ws_message "c1" (Valid (JOIN_ROOM "random" "alice")))).
  exact I.
Defined.

(** ** The subscriber sets *)

Section Tidy.
Context {S : Type}.
Implicit Type w : World S.

#[global] Instance keepsTidy_preorder : PreOrder (keepsTidy (S:=S)).
Proof. split; unfold keepsTidy; [by intros w|intros w1 w2 w3; tauto]. Qed.

Lemma subscriptionsTidy_ext w w' :
  roomSubscriptions w' = roomSubscriptions w →
  subscriptionsTidy w → subscriptionsTidy w'.
Proof. unfold subscriptionsTidy. by intros ->. Qed.

Lemma keepsTidy_same {A} (m : M (World S) A) :
  Steps (same roomSubscriptions) m → Steps keepsTidy m.
Proof.
  apply Steps_weaken. intros w w' Hsame Hw. by eapply subscriptionsTidy_ext.
Qed.

Lemma NoDup_set_add x (s : JsSet) : NoDup s → NoDup (set_add x s).
Proof.
  intros Hs. unfold set_add, set_has. case_bool_decide; [done|].
  apply NoDup_app. split; [done|]. split; [|apply NoDup_singleton].
  intros y Hy ->%list_elem_of_singleton. done.
Qed.

Lemma set_add_not_nil x (s : JsSet) : set_add x s ≠ [].
Proof.
  unfold set_add, set_has. case_bool_decide as Hx.
  - intros ->. by apply elem_of_nil in Hx.
  - by destruct s.
Qed.

Lemma keepsTidy_joinRoom cid r :
  Steps keepsTidy (ConnectionManager.joinRoom (S:=S) cid r).
Proof.
  intros w Hw r' subs. simpl.
  intros [[<- <-]|[Hne Hsubs]]%lookup_insert_Some; [|by apply (Hw r')].
  split; [apply set_add_not_nil|]. apply NoDup_set_add.
  destruct (roomSubscriptions w !! r) as [old|] eqn:E; simpl.
  - by apply (Hw r old).
  - constructor.
Qed.

Lemma keepsTidy_leaveRoom cid r :
  Steps keepsTidy (ConnectionManager.leaveRoom (S:=S) cid r).
Proof.
  intros w Hw r' subs. simpl.
  destruct (roomSubscriptions w !! r) as [old|] eqn:E; [|by apply (Hw r')].
  case_decide as Hlen; simpl.
  - intros [_ Hsubs]%lookup_delete_Some. by apply (Hw r').
  - intros [[<- <-]|[Hne Hsubs]]%lookup_insert_Some; [|by apply (Hw r')].
    split.
    + intros Hnil. apply Hlen. by rewrite Hnil.
    + apply NoDup_filter. by apply (Hw r old).
Qed.

Lemma keepsTidy_Stable : Stable (keepsTidy (S:=S)).
Proof.
  split.
  - split; intros w x Hw; exact Hw.
  - intros w x _ Hw. exact Hw.
  - intros ws u r n w Hw. exact Hw.
  - intros ws h w Hw. exact Hw.
  - intros h w Hw. exact Hw.
  - intros t w Hw. exact Hw.
  - apply keepsTidy_joinRoom.
  - apply keepsTidy_leaveRoom.
  - intros u cid w Hw. exact Hw.
  - intros c w Hw. exact Hw.
Qed.

Lemma keepsTidy_validateRateLimit env ws :
  Steps keepsTidy (ConnectionManager.validateRateLimit (S:=S) env ws).
Proof.
  apply keepsTidy_same.
  assert (Blind (roomSubscriptions (S:=S))) as HB by by split.
  unfold ConnectionManager.validateRateLimit, ConnectionManager.getState,
    ConnectionManager.setState, ConnectionManager.sendError.
  steps; try reflexivity; auto with blind.
Qed.
End Tidy.

(** X3.  In every state the server can reach, no room is mapped to an
    empty subscriber set (the last subscriber to leave takes the entry with
    it) and no subscriber set holds a connection id twice. *)
Theorem subscriptions_stay_tidy
    {S} (adapter : Z → UnitOfWork S) (w : World S) :
  reachable adapter w → subscriptionsTidy w.
Proof.
  induction 1 as [s|w env task _ IH|w s b _ IH].
  - intros r subs Hr. simpl in Hr. by rewrite lookup_empty in Hr.
  - revert IH.
    apply (Stable_runTask keepsTidy keepsTidy_Stable adapter env task).
    intros ws. apply keepsTidy_validateRateLimit.
  - exact IH.
Qed.

Lemma subscriptions_stay_tidy_witness : subscriptionsTidy joinedTwice.
Proof.
  apply (subscriptions_stay_tidy sqliteServer joinedTwice).
  apply reachable_execAll. constructor.
Defined.

(** ** The broadcast router *)

Section Broadcast.
Context {S : Type}.
Implicit Type w : World S.

Lemma broadcast_step ev ex w x l c :
  (if decide (Some x = ex) then ret tt
   else
     connection <- gets (λ w, connections w !! x) ;;
     match connection with
     | Some connection => ConnectionManager.send connection ev
     | None => ret tt
     end) (set_console c (set_sent l w))
  = (Ok tt,
     set_console
       (c ++ ((λ _, "Failed to send message: socket is not writable") <$>
          omap (λ cid,
            if decide (Some cid = ex) then None
            else match connections w !! cid with
                 | Some ws => if decide (ws ∈ broken w) then Some ws else None
                 | None => None
                 end) [x]))
       (set_sent
          (l ++ ((λ ws, (ws, ev)) <$>
             omap (λ cid,
               if decide (Some cid = ex) then None
               else match connections w !! cid with
                    | Some ws =>
                        if decide (ws ∈ broken w) then None else Some ws
                    | None => None
                    end) [x]))
          w)).
Proof.
  cbn [omap list_omap]. case_decide as Hex.
  - simpl. by rewrite !app_nil_r.
  - unfold bind, gets. cbn [connections set_console set_sent].
    destruct (connections w !! x) as [ws|] eqn:Hx.
    + rewrite send_eq. cbn [broken set_console set_sent sent console].
      case_decide as Hbroken; simpl; by rewrite !app_nil_r.
    + simpl. by rewrite !app_nil_r.
Qed.

Lemma broadcast_loop_exact ev ex w subs : ∀ l c,
  forM_ subs (λ connId,
    if decide (Some connId = ex) then ret tt
    else
      connection <- gets (λ w, connections w !! connId) ;;
      match connection with
      | Some connection => ConnectionManager.send connection ev
      | None => ret tt
      end) (set_console c (set_sent l w))
  = (Ok tt,
     set_console
       (c ++ ((λ _, "Failed to send message: socket is not writable") <$>
          omap (λ cid,
            if decide (Some cid = ex) then None
            else match connections w !! cid with
                 | Some ws => if decide (ws ∈ broken w) then Some ws else None
                 | None => None
                 end) subs))
       (set_sent
          (l ++ ((λ ws, (ws, ev)) <$>
             omap (λ cid,
               if decide (Some cid = ex) then None
               else match connections w !! cid with
                    | Some ws =>
                        if decide (ws ∈ broken w) then None else Some ws
                    | None => None
                    end) subs))
          w)).
Proof.
  induction subs as [|x subs IH]; intros l c.
  - simpl. by rewrite !app_nil_r.
  - cbn [forM_].
    rewrite (bind_Ok _ _ _ _ _ (broadcast_step ev ex w x l c)).
    rewrite IH. rewrite <- !app_assoc, <- !fmap_app.
    change (x :: subs) with ([x] ++ subs). by rewrite !omap_app.
Qed.
Lemma broadcastToRoom_eq roomId event exclude w :
  ConnectionManager.broadcastToRoom roomId event exclude w
  = (Ok tt,
     set_console
       (console w ++
          ((λ _, "Failed to send message: socket is not writable") <$>
             unreachable w roomId exclude))
       (set_sent
          (sent w ++ ((λ ws, (ws, event)) <$> recipients w roomId exclude))
          w)).
Proof.
  unfold ConnectionManager.broadcastToRoom, recipients, unreachable,
    subscribers.
  rewrite bind_Ok with (a := roomSubscriptions w !! roomId) (s' := w) by done.
  destruct (roomSubscriptions w !! roomId) as [subs|]; simpl.
  - rewrite <- (set_sent_console_id w) at 1. apply broadcast_loop_exact.
  - rewrite !app_nil_r. by rewrite set_sent_console_id.
Qed.
End Broadcast.

(** X4.  A broadcast never throws and changes nothing but the frames sent
    and the console.  The frame goes, once and in the order of the
    subscriber set, to the socket of every subscriber of the room that is
    not the excluded connection, is still registered and has a writable
    socket; each socket that is not writable costs one console line and
    does not stop the delivery to the subscribers after it. *)
Theorem broadcastToRoom_delivers_in_subscription_order
    {S} (roomId : string) (event : ServerEvent) (exclude : option string)
    (w : World S) :
  ConnectionManager.broadcastToRoom roomId event exclude w
  = (Ok tt,
     set_console
       (console w ++
          ((λ _, "Failed to send message: socket is not writable") <$>
             unreachable w roomId exclude))
       (set_sent
          (sent w ++ ((λ ws, (ws, event)) <$> recipients w roomId exclude))
          w)).
Proof.
  unfold ConnectionManager.broadcastToRoom, recipients, unreachable,
    subscribers.
  rewrite bind_Ok with (a := roomSubscriptions w !! roomId) (s' := w) by done.
  destruct (roomSubscriptions w !! roomId) as [subs|]; simpl.
  - rewrite <- (set_sent_console_id w) at 1. apply broadcast_loop_exact.
  - rewrite !app_nil_r. by rewrite set_sent_console_id.
Qed.

(* ===================================================================== *)
(** * The SQLite repositories *)

Section SqliteUsers.
Import sqlite.

Lemma filter_none {A} (P : A → Prop) `{!∀ x, Decision (P x)} l :
  ¬ Exists P l → filter P l = [].
Proof.
  induction l as [|x l IH]; intros Hno; [done|].
  rewrite filter_cons_False by (intros Hx; apply Hno; by left).
  apply IH. intros Hex. apply Hno. by right.
Qed.

Lemma filter_fmap_comm {A} (P : A → Prop) `{!∀ x, Decision (P x)}
    (f : A → A) (l : list A) :
  (∀ x, P (f x) ↔ P x) → filter P (f <$> l) = f <$> filter P l.
Proof.
  intros Hf. induction l as [|x l IH]; [done|]. rewrite fmap_cons.
  destruct (decide (P x)) as [Hx|Hx].
  - rewrite !filter_cons_True by (done || by apply Hf).
    by rewrite fmap_cons, IH.
  - rewrite !filter_cons_False by (done || by rewrite Hf). done.
Qed.

Lemma head_fmap {A B} (f : A → B) (l : list A) :
  head (f <$> l) = f <$> head l.
Proof. by destruct l. Qed.

Lemma head_filter_app_new {A} (P : A → Prop) `{!∀ x, Decision (P x)} l x :
  ¬ Exists P l → P x → head (filter P (l ++ [x])) = Some x.
Proof.
  intros Hno Hx. rewrite filter_app.
  rewrite filter_none by done. simpl. by rewrite filter_cons_True.
Qed.

Lemma head_filter_app_old {A} (P : A → Prop) `{!∀ x, Decision (P x)} l x :
  ¬ P x → head (filter P (l ++ [x])) = head (filter P l).
Proof.
  intros Hx. rewrite filter_app, filter_cons_False by done.
  by rewrite filter_nil, app_nil_r.
Qed.
End SqliteUsers.

(** X5.  Saving a user whose id is new and whose name is not taken (names
    are compared without case) stores it: afterwards [findById] returns the
    user as saved, and [findByUsername] returns it for every spelling of
    the name that differs in case only; users stored before are found as
    before. *)
Theorem user_save_then_find
    (now : Z) (user : User.t) (db : sqlite.Database) :
  sqlite.locked db = false →
  ¬ hasUser (User.id user) db →
  ¬ nameTaken (User.username user) db →
  ∃ db',
    sqlite.user_save now user db = (Ok tt, db')
    ∧ sqlite.user_findById (User.id user) db' = (Ok (Some user), db')
    ∧ (∀ spelling,
         sqlite.nocase spelling = sqlite.nocase (User.username user) →
         sqlite.user_findByUsername spelling db' = (Ok (Some user), db'))
    ∧ (∀ id, id ≠ User.id user →
         (sqlite.user_findById id db').1 = (sqlite.user_findById id db).1).
Proof.
  intros Hunlocked Hid Hname.
  unfold sqlite.user_save, sqlite.write. rewrite Hunlocked.
  rewrite bool_decide_eq_false_2 by exact Hname.
  rewrite bool_decide_eq_false_2 by exact Hid.
  eexists. split; [reflexivity|].
  unfold sqlite.user_findById, sqlite.user_findByUsername, gets.
  cbn [sqlite.t_users]. split; [|split].
  - rewrite head_filter_app_new by done. simpl. by destruct user.
  - intros spelling Hsp.
    rewrite head_filter_app_new; [by destruct user| |by simpl].
    intros Hex. apply Hname. unfold nameTaken.
    eapply Exists_impl; [exact Hex|]. simpl. intros row ->. done.
  - intros id Hne. cbn [fst].
    rewrite head_filter_app_old; [done|]. simpl. congruence.
Qed.

Lemma user_save_then_find_witness :
  ∃ db',
    sqlite.user_save 1000 (User.mk "u1" "Alice" "#FF6B6B" online 1000)
      (sqlite.migrated 0)
    = (Ok tt, db')
    ∧ sqlite.user_findById "u1" db'
      = (Ok (Some (User.mk "u1" "Alice" "#FF6B6B" online 1000)), db')
    ∧ (∀ spelling,
         sqlite.nocase spelling = sqlite.nocase "Alice" →
         sqlite.user_findByUsername spelling db'
         = (Ok (Some (User.mk "u1" "Alice" "#FF6B6B" online 1000)), db'))
    ∧ (∀ id, id ≠ "u1" →
         (sqlite.user_findById id db').1
         = (sqlite.user_findById id (sqlite.migrated 0)).1).
Proof.
  apply (user_save_then_find 1000
           (User.mk "u1" "Alice" "#FF6B6B" online 1000) (sqlite.migrated 0)).
  - reflexivity.
  - intros H. inversion H.
  - intros H. inversion H.
Defined.

(** X6.  A user who comes back under another spelling of the name is the
    same user: when [findByUsername] finds a user for the spelling,
    [getOrCreateUser] returns that user (its id, its name as first stored,
    not as now spelled) with the status online, adds no row, and the user
    is stored as online afterwards. *)
Theorem getOrCreateUser_returns_the_stored_user
    (env : Env) (spelling : string) (existing : User.t)
    (db : sqlite.Database) :
  sqlite.locked db = false →
  sqlite.user_findByUsername spelling db = (Ok (Some existing), db) →
  ∃ db',
    useCases.getOrCreateUser (sqliteServer (now env)) env spelling db
    = (Ok (User.mk (User.id existing) (User.username existing)
                   (User.avatar existing) online (User.joinedAt existing)),
       db')
    ∧ sqlite.UserRow.id <$> sqlite.t_users db'
      = sqlite.UserRow.id <$> sqlite.t_users db
    ∧ sqlite.UserRow.username <$> sqlite.t_users db'
      = sqlite.UserRow.username <$> sqlite.t_users db
    ∧ ∃ stored,
        sqlite.user_findById (User.id existing) db' = (Ok (Some stored), db')
        ∧ User.status stored = online.
Proof.
  intros Hunlocked Hfind.
  unfold useCases.getOrCreateUser. cbn [users sqliteServer
    sqlite.createUnitOfWork sqlite.SQLiteUserRepository users_findByUsername
    users_updateStatus].
  rewrite (bind_Ok _ _ _ _ _ Hfind).
  unfold sqlite.user_updateStatus, sqlite.write, bind. rewrite Hunlocked.
  eexists. split; [reflexivity|]. cbn [sqlite.t_users].
  split; [|split].
  - rewrite <- list_fmap_compose. apply list_fmap_ext. intros i row _.
    simpl. by case_decide.
  - rewrite <- list_fmap_compose. apply list_fmap_ext. intros i row _.
    simpl. by case_decide.
  - unfold sqlite.user_findByUsername, gets in Hfind.
    injection Hfind as Hhead.
    destruct (head (filter _ (sqlite.t_users db))) as [row|] eqn:Hrow;
      [|done].
    injection Hhead as <-.
    apply head_Some_elem_of, list_elem_of_filter in Hrow as [_ Hin].
    assert (Exists (λ r, sqlite.UserRow.id r = sqlite.UserRow.id row)
              (sqlite.t_users db)) as Hex
      by (apply Exists_exists; eauto).
    destruct (head_filter_Exists _ _ Hex) as (first & Hfirst & Hid).
    unfold sqlite.user_findById, gets. cbn [sqlite.t_users].
    change (User.id (sqlite.userRowToEntity row))
      with (sqlite.UserRow.id row).
    rewrite filter_fmap_comm, head_fmap, Hfirst.
    + simpl. rewrite decide_True by done. eexists. split; done.
    + intros r. simpl. by case_decide.
Qed.

Lemma getOrCreateUser_returns_the_stored_user_witness :
  ∃ db',
    useCases.getOrCreateUser (sqliteServer 9000) (mkEnv 9000 "u-new")
      "ALICE" (store twoInGeneral)
    = (Ok (User.mk "u-alice" "alice"
             (UserFactory.generateAvatar "alice") online 3000), db')
    ∧ sqlite.UserRow.id <$> sqlite.t_users db'
      = sqlite.UserRow.id <$> sqlite.t_users (store twoInGeneral)
    ∧ sqlite.UserRow.username <$> sqlite.t_users db'
      = sqlite.UserRow.username <$> sqlite.t_users (store twoInGeneral)
    ∧ ∃ stored,
        sqlite.user_findById "u-alice" db' = (Ok (Some stored), db')
        ∧ User.status stored = online.
Proof.
  apply (getOrCreateUser_returns_the_stored_user (mkEnv 9000 "u-new")
           "ALICE"
           (User.mk "u-alice" "alice" (UserFactory.generateAvatar "alice")
              online 3000)
           (store twoInGeneral)).
  - vm_compute. reflexivity.
  - vm_compute. reflexivity.
Defined.

(** ** Messages in the SQLite store *)

(** X7.  Saving a message whose id is new and whose references hold stores
    it, and [findById] then returns it with every field as saved but one:
    the statement does not write [editedAt], so a message saved with an
    edit stamp is read back without it. *)
Theorem message_save_then_find
    (now : Z) (message : Message.t) (db : sqlite.Database) :
  sqlite.locked db = false →
  ¬ hasMessage (Message.id message) db →
  hasRoom (Message.roomId message) db →
  hasUser (Message.authorId message) db →
  (∀ target, Message.replyTo message = Some target → hasMessage target db) →
  ∃ db',
    sqlite.message_save now message db = (Ok tt, db')
    ∧ sqlite.message_findById (Message.id message) db'
      = (Ok (Some (Message.mk (Message.id message) (Message.roomId message)
                     (Message.authorId message) (Message.content message)
                     (Message.createdAt message) None
                     (Message.replyTo message))),
         db')
    ∧ (∀ id, id ≠ Message.id message →
         (sqlite.message_findById id db').1
         = (sqlite.message_findById id db).1).
Proof.
  intros Hunlocked Hfresh Hroom Huser Hreply.
  rewrite (message_save_appends now message db) by done.
  eexists. split; [reflexivity|].
  unfold sqlite.message_findById, gets. cbn [sqlite.t_messages]. split.
  - rewrite head_filter_app_new; [done| |by simpl].
    intros Hex. apply Hfresh. unfold hasMessage.
    eapply Exists_impl; [exact Hex|]. by intros row [? _].
  - intros id Hne. cbn [fst].
    rewrite head_filter_app_old; [done|]. simpl. intros [? _]. congruence.
Qed.

Lemma message_save_then_find_witness :
  ∃ db',
    sqlite.message_save 6000
      (Message.mk "m1" "general" "u-alice" "hello" 6000 (Some 6500%Z) None)
      (store twoInGeneral)
    = (Ok tt, db')
    ∧ sqlite.message_findById "m1" db'
      = (Ok (Some (Message.mk "m1" "general" "u-alice" "hello" 6000 None
                     None)), db')
    ∧ (∀ id, id ≠ "m1" →
         (sqlite.message_findById id db').1
         = (sqlite.message_findById id (store twoInGeneral)).1).
Proof.
  apply (message_save_then_find 6000
           (Message.mk "m1" "general" "u-alice" "hello" 6000 (Some 6500%Z)
              None)
           (store twoInGeneral)).
  - vm_compute. reflexivity.
  - intros H. vm_compute in H. inversion H.
  - apply Exists_cons_hd. reflexivity.
  - apply Exists_cons_hd. reflexivity.
  - intros target H. discriminate H.
Defined.

(** X8.  [update] writes the content and the edit stamp of the rows with
    the id of the message, and nothing else of a message: what [findById]
    returns afterwards is, for that id, what it returned before with the
    content and the edit stamp replaced (the room, the author, the creation
    time and the reply reference of the argument are ignored), and for any
    other id what it returned before.  A message that is unknown or deleted
    stays unfindable: [update] neither inserts nor restores, and it does
    not throw. *)
Theorem message_update_writes_content_and_stamp_only
    (now : Z) (message : Message.t) (db : sqlite.Database) (id : string) :
  sqlite.locked db = false →
  ∃ db' found,
    sqlite.message_update now message db = (Ok tt, db')
    ∧ sqlite.message_findById id db = (Ok found, db)
    ∧ sqlite.message_findById id db'
      = (Ok ((λ old,
               if decide (id = Message.id message)
               then Message.mk (Message.id old) (Message.roomId old)
                      (Message.authorId old) (Message.content message)
                      (Message.createdAt old) (Message.editedAt message)
                      (Message.replyTo old)
               else old) <$> found),
         db').
Proof.
  intros Hunlocked.
  unfold sqlite.message_update, sqlite.write. rewrite Hunlocked.
  eexists _, _. split; [reflexivity|]. split; [reflexivity|].
  unfold sqlite.message_findById, gets. cbn [sqlite.t_messages].
  rewrite filter_fmap_comm, head_fmap.
  2:{ intros r. simpl. by case_decide. }
  f_equal. f_equal.
  destruct (head (filter _ (sqlite.t_messages db))) as [row|] eqn:Hrow;
    [|done].
  apply head_Some_elem_of, list_elem_of_filter in Hrow as [[Hid _] _].
  simpl. subst id. by repeat case_decide.
Qed.

Lemma message_update_witness :
  ∃ db' found,
    sqlite.message_update 8000
      (Message.mk "m1" "tech" "u-bob" "edited" 1 (Some 8000%Z) (Some "m2"))
      (store withReply)
    = (Ok tt, db')
    ∧ sqlite.message_findById "m1" (store withReply)
      = (Ok found, store withReply)
    ∧ sqlite.message_findById "m1" db'
      = (Ok ((λ old,
               if decide ("m1" = "m1")
               then Message.mk (Message.id old) (Message.roomId old)
                      (Message.authorId old) "edited"
                      (Message.createdAt old) (Some 8000%Z)
                      (Message.replyTo old)
               else old) <$> found),
         db').
Proof.
  apply (message_update_writes_content_and_stamp_only 8000
           (Message.mk "m1" "tech" "u-bob" "edited" 1 (Some 8000%Z)
              (Some "m2"))
           (store withReply) "m1").
  vm_compute. reflexivity.
Defined.

(** ** A page of the history of a room *)

Section FindByRoom.
Import sqlite.
#[local] Existing Instance created_at_desc_dec.

Lemma created_at_desc_total : Total created_at_desc.
Proof. intros a b. unfold created_at_desc. lia. Qed.

Lemma created_at_desc_trans : Transitive created_at_desc.
Proof. intros a b c. unfold created_at_desc. lia. Qed.

Lemma created_at_asc_trans : Transitive (flip created_at_desc).
Proof. intros a b c. unfold flip, created_at_desc. lia. Qed.

Lemma findByRoom_rows roomId limit db :
  message_findByRoom roomId limit db
  = (Ok (messageRowToEntity <$>
           reverse (take limit
                      (order_by created_at_desc (liveRows roomId db)))),
     db).
Proof.
  unfold message_findByRoom, gets, liveRows. by rewrite fmap_reverse.
Qed.
End FindByRoom.

(** X9.  [findByRoom] returns a page of the room's history: the rows it
    returns are [limit] of the room's messages that are not deleted (all of
    them when there are fewer), in chronological order, and they are the
    newest ones: every message of the room left out was created no later
    than every message of the page.  The store is not changed. *)
Theorem message_findByRoom_returns_the_newest
    (roomId : string) (limit : nat) (db : sqlite.Database) :
  ∃ page older,
    sqlite.message_findByRoom roomId limit db
    = (Ok (sqlite.messageRowToEntity <$> page), db)
    ∧ length page = Nat.min limit (length (liveRows roomId db))
    ∧ page ++ older ≡ₚ liveRows roomId db
    ∧ StronglySorted
        (λ a b, (sqlite.MessageRow.created_at a
                 ≤ sqlite.MessageRow.created_at b)%Z) page
    ∧ (∀ o p, o ∈ older → p ∈ page →
         (sqlite.MessageRow.created_at o ≤ sqlite.MessageRow.created_at p)%Z).
Proof.
  set (sorted := @sqlite.order_by _ sqlite.created_at_desc
                   sqlite.created_at_desc_dec (liveRows roomId db)).
  exists (reverse (take limit sorted)), (drop limit sorted).
  assert (StronglySorted sqlite.created_at_desc sorted) as Hsorted
    by (apply (@order_by_StronglySorted _ _ _ created_at_desc_trans
               created_at_desc_total)).
  assert (sorted ≡ₚ liveRows roomId db) as Hperm
    by apply order_by_Permutation.
  split; [apply findByRoom_rows|]. split; [|split; [|split]].
  - by rewrite length_reverse, length_take, Hperm.
  - by rewrite reverse_Permutation, take_drop.
  - apply (@Sorted_StronglySorted _ (flip sqlite.created_at_desc)
             created_at_asc_trans).
    apply Sorted_reverse, StronglySorted_Sorted.
    rewrite <- (take_drop limit sorted) in Hsorted.
    by apply StronglySorted_app_1_l in Hsorted.
  - intros o p Ho Hp. rewrite elem_of_reverse in Hp.
    rewrite <- (take_drop limit sorted) in Hsorted.
    exact (StronglySorted_app_1_elem_of _ _ _ p o Hsorted Hp Ho).
Qed.

(** ** The participants of a room in the SQLite store *)

Section Participants.
Import sqlite.

Lemma filter_all {A} (P : A → Prop) `{!∀ x, Decision (P x)} (l : list A) :
  Forall P l → filter P l = l.
Proof.
  induction 1 as [|x l Hx _ IH]; [done|].
  by rewrite filter_cons_True, IH.
Qed.

Lemma ascii_compare_cases (a b : Ascii.ascii) :
  match Ascii.compare a b with
  | Eq => a = b
  | Lt => (Ascii.N_of_ascii a < Ascii.N_of_ascii b)%N
  | Gt => (Ascii.N_of_ascii b < Ascii.N_of_ascii a)%N
  end.
Proof.
  unfold Ascii.compare.
  destruct (N.compare_spec (Ascii.N_of_ascii a) (Ascii.N_of_ascii b))
    as [E|E|E]; try done.
  rewrite <- (Ascii.ascii_N_embedding a), <- (Ascii.ascii_N_embedding b).
  by rewrite E.
Qed.

(** Text is compared byte by byte: the order is transitive and total. *)
Lemma string_leb_trans (a b c : string) :
  String.leb a b = true → String.leb b c = true → String.leb a c = true.
Proof.
  unfold String.leb. revert b c.
  induction a as [|x a IH]; intros [|y b] [|z c]; simpl; try done.
  pose proof (ascii_compare_cases x y) as Hxy.
  pose proof (ascii_compare_cases y z) as Hyz.
  pose proof (ascii_compare_cases x z) as Hxz.
  destruct (Ascii.compare x y) eqn:Exy, (Ascii.compare y z) eqn:Eyz;
    try done; destruct (Ascii.compare x z) eqn:Exz; subst;
    try done; try lia;
    try (rewrite Exz in *; done); try (rewrite ?Exy, ?Eyz in *; try done).
  all: try (intros H1 H2; by apply (IH b c)).
  all: try lia.
Qed.

#[local] Existing Instance user_id_asc_dec.

Lemma user_id_asc_trans : Transitive user_id_asc.
Proof. intros a b c. apply string_leb_trans. Qed.

Lemma user_id_asc_total : Total user_id_asc.
Proof. intros a b. apply String.leb_total. Qed.

Lemma getParticipants_rows roomId db :
  room_getParticipants roomId db
  = (Ok (RoomParticipantRow.user_id <$>
           order_by user_id_asc
             (filter (λ r, RoomParticipantRow.room_id r = roomId)
                     (t_room_participants db))),
     db).
Proof. done. Qed.

(** The participants come in the order of their ids. *)
Lemma getParticipants_sorted roomId db :
  StronglySorted (λ a b, String.leb a b = true)
    (RoomParticipantRow.user_id <$>
       order_by user_id_asc
         (filter (λ r, RoomParticipantRow.room_id r = roomId)
                 (t_room_participants db))).
Proof.
  apply (StronglySorted_fmap _ user_id_asc); [done|].
  apply (@order_by_StronglySorted _ _ _ user_id_asc_trans user_id_asc_total).
Qed.

Lemma filter_fmap_user_id (P : string → Prop) `{!∀ x, Decision (P x)}
    (l : list RoomParticipantRow.t) :
  filter P (RoomParticipantRow.user_id <$> l)
  = RoomParticipantRow.user_id <$>
      filter (λ row, P (RoomParticipantRow.user_id row)) l.
Proof.
  induction l as [|row l IH]; [done|]. rewrite fmap_cons.
  destruct (decide (P (RoomParticipantRow.user_id row))).
  - rewrite !filter_cons_True by done. by rewrite fmap_cons, IH.
  - by rewrite !filter_cons_False by done.
Qed.

(** The participants of a room once the row of one user is gone: the
    others, in the order they had. *)
Lemma getParticipants_without roomId userId
    (rows : list RoomParticipantRow.t) :
  RoomParticipantRow.user_id <$>
    order_by user_id_asc
      (filter (λ r, RoomParticipantRow.room_id r = roomId)
         (filter (λ r, ¬ (RoomParticipantRow.room_id r = roomId
                          ∧ RoomParticipantRow.user_id r = userId)) rows))
  = filter (λ u, u ≠ userId)
      (RoomParticipantRow.user_id <$>
         order_by user_id_asc
           (filter (λ r, RoomParticipantRow.room_id r = roomId) rows)).
Proof.
  rewrite filter_fmap_user_id.
  rewrite <- (@order_by_filter _ _ _ user_id_asc_trans user_id_asc_total).
  do 2 f_equal.
  induction rows as [|row rows IH]; [done|].
  destruct (decide (RoomParticipantRow.room_id row = roomId)) as [Hr|Hr];
    destruct (decide (RoomParticipantRow.user_id row = userId)) as [Hu|Hu].
  - rewrite (filter_cons_False (λ r, ¬ _)) by tauto.
    rewrite (filter_cons_True (λ r, _ = roomId)) by done.
    rewrite (filter_cons_False (λ r, _ ≠ userId)) by tauto. exact IH.
  - rewrite (filter_cons_True (λ r, ¬ _)) by tauto.
    rewrite !(filter_cons_True (λ r, _ = roomId)) by done.
    rewrite (filter_cons_True (λ r, _ ≠ userId)) by done. by rewrite IH.
  - rewrite (filter_cons_True (λ r, ¬ _)) by tauto.
    rewrite !(filter_cons_False (λ r, _ = roomId)) by done. exact IH.
  - rewrite (filter_cons_True (λ r, ¬ _)) by tauto.
    rewrite !(filter_cons_False (λ r, _ = roomId)) by done. exact IH.
Qed.
End Participants.

(** X10.  The participants of a room are listed in the order of their
    user ids.  Adding a user to a room it is not in puts the user in the
    list at the place of its id, the others keeping theirs; adding the same
    user again changes nothing and does not throw (the insert ignores the
    conflict); the count is the length of the list; and removing the user
    afterwards leaves the table of participants as it was before the user
    was added. *)
Theorem participant_added_once_and_removed
    (t1 t2 : Z) (roomId userId : string) (db : sqlite.Database)
    (before : list string) :
  sqlite.locked db = false →
  hasRoom roomId db →
  hasUser userId db →
  ¬ isParticipant roomId userId db →
  sqlite.room_getParticipants roomId db = (Ok before, db) →
  ∃ db1 db2 after,
    sqlite.room_addParticipant t1 roomId userId db = (Ok tt, db1)
    ∧ sqlite.room_getParticipants roomId db1 = (Ok after, db1)
    ∧ after ≡ₚ userId :: before
    ∧ StronglySorted (λ a b, String.leb a b = true) after
    ∧ filter (λ u, u ≠ userId) after = before
    ∧ sqlite.room_getParticipantCount roomId db1
      = (Ok (Datatypes.S (length before)), db1)
    ∧ sqlite.room_addParticipant t2 roomId userId db1 = (Ok tt, db1)
    ∧ sqlite.room_removeParticipant roomId userId db1 = (Ok tt, db2)
    ∧ sqlite.t_room_participants db2 = sqlite.t_room_participants db
    ∧ sqlite.room_getParticipants roomId db2 = (Ok before, db2).
Proof.
  intros Hunlocked Hroom Huser Hnot Hbefore.
  rewrite getParticipants_rows in Hbefore. injection Hbefore as Hbefore.
  set (row := sqlite.RoomParticipantRow.mk roomId userId t1).
  set (db1 := sqlite.mkDatabase false (sqlite.t_users db) (sqlite.t_rooms db)
                (sqlite.t_room_participants db ++ [row])
                (sqlite.t_messages db)).
  assert (sqlite.room_addParticipant t1 roomId userId db = (Ok tt, db1))
    as Hadd.
  { unfold sqlite.room_addParticipant, sqlite.write. rewrite Hunlocked.
    rewrite (bool_decide_eq_false_2 _ Hnot).
    rewrite (bool_decide_eq_true_2 _ Hroom), (bool_decide_eq_true_2 _ Huser).
    done. }
  assert (filter
            (λ r, ¬ (sqlite.RoomParticipantRow.room_id r = roomId
                     ∧ sqlite.RoomParticipantRow.user_id r = userId))
            (sqlite.t_room_participants db ++ [row])
          = sqlite.t_room_participants db) as Hback.
  { rewrite filter_app, filter_cons_False by (simpl; tauto).
    rewrite filter_nil, app_nil_r. apply filter_all.
    apply Forall_forall. intros r Hin Hrow. apply Hnot.
    apply Exists_exists. eauto. }
  assert (length (filter (λ r, sqlite.RoomParticipantRow.room_id r = roomId)
                    (sqlite.t_room_participants db))
          = length before) as Hlen.
  { by rewrite <- Hbefore, length_fmap, length_order_by. }
  exists db1,
    (sqlite.mkDatabase false (sqlite.t_users db) (sqlite.t_rooms db)
       (sqlite.t_room_participants db) (sqlite.t_messages db)),
    (sqlite.RoomParticipantRow.user_id <$>
       @sqlite.order_by _ sqlite.user_id_asc sqlite.user_id_asc_dec
         (filter (λ r, sqlite.RoomParticipantRow.room_id r = roomId)
                 (sqlite.t_room_participants db1))).
  split; [exact Hadd|]. split; [apply getParticipants_rows|].
  split; [|split; [apply getParticipants_sorted|split; [|split;
    [|split; [|split; [|split]]]]]].
  - rewrite order_by_Permutation. subst db1. cbn [sqlite.t_room_participants].
    rewrite filter_app, filter_cons_True by done.
    rewrite filter_nil, fmap_app. simpl.
    rewrite <- Hbefore, order_by_Permutation.
    by rewrite Permutation_app_comm.
  - rewrite <- getParticipants_without.
    subst db1. cbn [sqlite.t_room_participants]. by rewrite Hback.
  - unfold sqlite.room_getParticipantCount, gets. subst db1.
    cbn [sqlite.t_room_participants].
    rewrite filter_app, filter_cons_True by done.
    rewrite filter_nil, length_app, Hlen. simpl. do 2 f_equal. lia.
  - unfold sqlite.room_addParticipant, sqlite.write. subst db1.
    cbn [sqlite.locked sqlite.t_room_participants].
    rewrite bool_decide_eq_true_2; [done|].
    apply Exists_app. right. by left.
  - unfold sqlite.room_removeParticipant, sqlite.write. subst db1.
    cbn [sqlite.locked sqlite.t_room_participants sqlite.t_users
         sqlite.t_rooms sqlite.t_messages].
    by rewrite Hback.
  - done.
  - rewrite getParticipants_rows. cbn [sqlite.t_room_participants].
    by rewrite Hbefore.
Qed.

Lemma participant_added_once_and_removed_witness :
  ∃ db1 db2 after,
    sqlite.room_addParticipant 5000 "random" "u-alice" (store typingElsewhere)
    = (Ok tt, db1)
    ∧ sqlite.room_getParticipants "random" db1 = (Ok after, db1)
    ∧ after ≡ₚ "u-alice" :: ["u-carol"]
    ∧ StronglySorted (λ a b, String.leb a b = true) after
    ∧ filter (λ u, u ≠ "u-alice") after = ["u-carol"]
    ∧ sqlite.room_getParticipantCount "random" db1
      = (Ok (Datatypes.S (length ["u-carol"])), db1)
    ∧ sqlite.room_addParticipant 5001 "random" "u-alice" db1 = (Ok tt, db1)
    ∧ sqlite.room_removeParticipant "random" "u-alice" db1 = (Ok tt, db2)
    ∧ sqlite.t_room_participants db2
      = sqlite.t_room_participants (store typingElsewhere)
    ∧ sqlite.room_getParticipants "random" db2 = (Ok ["u-carol"], db2).
Proof.
  apply (participant_added_once_and_removed 5000 5001 "random" "u-alice"
           (store typingElsewhere) ["u-carol"]).
  - vm_compute. reflexivity.
  - vm_compute. apply Exists_cons_tl, Exists_cons_hd. reflexivity.
  - vm_compute. apply Exists_cons_hd. reflexivity.
  - intros H. vm_compute in H.
    repeat (inversion H as [? ? [H1 H2]|? ? H']; subst; clear H;
            [first [discriminate H1|discriminate H2]|rename H' into H]).
    inversion H.
  - vm_compute. reflexivity.
Defined.

(** alice was stored before carol and is added to carol's room after her:
    the room lists alice first. *)
Lemma participants_come_in_the_order_of_their_ids :
  (sqlite.room_getParticipants "random"
     (sqlite.room_addParticipant 5000 "random" "u-alice"
        (store typingElsewhere)).2).1
  = Ok ["u-alice"; "u-carol"].
Proof. vm_compute. reflexivity. Qed.

(* ===================================================================== *)
(** * The handlers on the SQLite server *)

Section SqliteRefusals.
Implicit Type w : World sqlite.Database.

Ltac returns H := rewrite (bind_Ok _ _ _ _ _ H).

Lemma handleMessage_routes env cid ws event w :
  connections w !! cid = Some ws →
  ConnectionManager.handleMessage (sqliteServer (now env)) env cid
    (Valid event) w
  = ConnectionManager.routeEvent (sqliteServer (now env)) env cid ws event w.
Proof.
  intros Hconn. unfold ConnectionManager.handleMessage.
  rewrite bind_Ok with (a := Some ws) (s' := w)
    by (unfold gets; by rewrite Hconn).
  done.
Qed.

Lemma room_findById_unknown r db :
  ¬ hasRoom r db → sqlite.room_findById r db = (Ok None, db).
Proof.
  intros Hno. unfold sqlite.room_findById, bind, gets.
  by rewrite filter_none.
Qed.

Lemma message_findById_live id row db :
  liveMessage id row db →
  sqlite.message_findById id db
  = (Ok (Some (sqlite.messageRowToEntity row)), db).
Proof.
  unfold liveMessage, sqlite.message_findById, gets. by intros ->.
Qed.
End SqliteRefusals.

(** X11.  Joining a room the store does not hold is refused: the sender is
    sent one ROOM_NOT_FOUND error frame that names the room, and nothing
    else happens (no user is created, the session is not written, no
    subscription is made, no event is emitted). *)
Theorem join_of_an_unknown_room_is_refused
    (env : Env) (cid : string) (ws : nat) (w : World sqlite.Database)
    (room name : string) :
  connections w !! cid = Some ws →
  ¬ hasRoom room (store w) →
  ConnectionManager.handleMessage (sqliteServer (now env)) env cid
    (Valid (JOIN_ROOM room name)) w
  = ConnectionManager.send ws
      (ERROR "ROOM_NOT_FOUND" ("Room '" +:+ room +:+ "' not found")) w.
Proof.
  intros Hconn Hno. rewrite (handleMessage_routes _ _ ws) by done.
  cbn [ConnectionManager.routeEvent].
  unfold ConnectionManager.handleJoinRoom.
  erewrite bind_Ok.
  2:{ unfold useCases.joinRoom.
      erewrite bind_Ok by (by apply lift_read, room_findById_unknown).
      reflexivity. }
  reflexivity.
Qed.

Lemma join_of_an_unknown_room_witness :
  ConnectionManager.handleMessage (sqliteServer 5000) (mkEnv 5000 "u-carol")
    "c3" (Valid (JOIN_ROOM "lobby" "carol")) withNewcomer
  = ConnectionManager.send 3
      (ERROR "ROOM_NOT_FOUND" ("Room '" +:+ "lobby" +:+ "' not found"))
      withNewcomer.
Proof.
  apply (join_of_an_unknown_room_is_refused (mkEnv 5000 "u-carol") "c3" 3
           withNewcomer "lobby" "carol").
  - vm_compute. reflexivity.
  - intros H. vm_compute in H.
    repeat (inversion H as [? ? H1|? ? H']; subst; clear H;
            [discriminate H1|rename H' into H]).
    inversion H.
Defined.

(** X12.  Only the author edits or deletes a message: an EDIT_MESSAGE or a
    DELETE_MESSAGE for a stored message from a connection whose user is not
    its author is answered with one UNAUTHORIZED error frame to the sender,
    and nothing else happens (the row is not written, no event is emitted,
    nobody else is told). *)
Theorem only_the_author_edits_or_deletes
    (env : Env) (cid : string) (ws : nat) (uid : string)
    (w : World sqlite.Database) (messageId content : string)
    (row : sqlite.MessageRow.t) :
  connections w !! cid = Some ws →
  userId (stateOf w ws) = Some uid →
  uid ≠ "" →
  liveMessage messageId row (store w) →
  sqlite.MessageRow.author_id row ≠ uid →
  ConnectionManager.handleMessage (sqliteServer (now env)) env cid
    (Valid (EDIT_MESSAGE messageId content)) w
  = ConnectionManager.send ws
      (ERROR "UNAUTHORIZED" "Not authorized to edit this message") w
  ∧ ConnectionManager.handleMessage (sqliteServer (now env)) env cid
      (Valid (DELETE_MESSAGE messageId)) w
    = ConnectionManager.send ws
        (ERROR "UNAUTHORIZED" "Not authorized to delete this message") w.
Proof.
  intros Hconn Huid Hne Hlive Hauthor.
  assert (truthy (userId (stateOf w ws)) = true) as Htruthy.
  { rewrite Huid. simpl. apply negb_true_iff, String.eqb_neq. done. }
  assert (negb (String.eqb (sqlite.MessageRow.author_id row) uid) = true)
    as Hneq by by apply negb_true_iff, String.eqb_neq.
  pose proof (lift_read (sqlite.message_findById messageId) w _
                (message_findById_live _ _ _ Hlive)) as Hfind.
  split; rewrite (handleMessage_routes _ _ ws) by done;
    cbn [ConnectionManager.routeEvent].
  - unfold ConnectionManager.handleEditMessage. rewrite bind_getState.
    rewrite Htruthy. cbn [negb].
    erewrite bind_Ok.
    2:{ unfold useCases.editMessage.
        erewrite bind_Ok by exact Hfind. rewrite Huid. simpl.
        rewrite Hneq. reflexivity. }
    reflexivity.
  - unfold ConnectionManager.handleDeleteMessage. rewrite bind_getState.
    rewrite Htruthy. cbn [negb].
    erewrite bind_Ok.
    2:{ unfold useCases.deleteMessage.
        erewrite bind_Ok by exact Hfind. rewrite Huid. simpl.
        rewrite Hneq. reflexivity. }
    reflexivity.
Qed.

Lemma only_the_author_witness :
  ConnectionManager.handleMessage (sqliteServer 7000) (mkEnv 7000 "")
    "c2" (Valid (EDIT_MESSAGE "m1" "bye")) withReply
  = ConnectionManager.send 2
      (ERROR "UNAUTHORIZED" "Not authorized to edit this message") withReply
  ∧ ConnectionManager.handleMessage (sqliteServer 7000) (mkEnv 7000 "")
      "c2" (Valid (DELETE_MESSAGE "m1")) withReply
    = ConnectionManager.send 2
        (ERROR "UNAUTHORIZED" "Not authorized to delete this message")
        withReply.
Proof.
  apply (only_the_author_edits_or_deletes (mkEnv 7000 "") "c2" 2 "u-bob"
           withReply "m1" "bye"
           (sqlite.MessageRow.mk "m1" "general" "u-alice" "hello" None 0
              5000 None 5000)).
  - vm_compute. reflexivity.
  - vm_compute. reflexivity.
  - discriminate.
  - vm_compute. reflexivity.
  - discriminate.
Defined.

Section SqliteNotFound.
Implicit Type w : World sqlite.Database.

(** A message that [findById] does not return is not found by the
    handlers either. *)
Lemma not_found_is_answered env cid ws id content w :
  connections w !! cid = Some ws →
  truthy (userId (stateOf w ws)) = true →
  sqlite.message_findById id (store w) = (Ok None, store w) →
  ConnectionManager.handleMessage (sqliteServer (now env)) env cid
    (Valid (EDIT_MESSAGE id content)) w
  = ConnectionManager.send ws
      (ERROR "MESSAGE_NOT_FOUND" "Message not found") w
  ∧ ConnectionManager.handleMessage (sqliteServer (now env)) env cid
      (Valid (DELETE_MESSAGE id)) w
    = ConnectionManager.send ws
        (ERROR "MESSAGE_NOT_FOUND" "Message not found") w.
Proof.
  intros Hconn Htruthy Hnone.
  pose proof (lift_read (sqlite.message_findById id) w _ Hnone) as Hfind.
  split; rewrite (handleMessage_routes _ _ ws) by done;
    cbn [ConnectionManager.routeEvent].
  - unfold ConnectionManager.handleEditMessage. rewrite bind_getState.
    rewrite Htruthy. cbn [negb].
    erewrite bind_Ok.
    2:{ unfold useCases.editMessage.
        erewrite bind_Ok by exact Hfind. reflexivity. }
    reflexivity.
  - unfold ConnectionManager.handleDeleteMessage. rewrite bind_getState.
    rewrite Htruthy. cbn [negb].
    erewrite bind_Ok.
    2:{ unfold useCases.deleteMessage.
        erewrite bind_Ok by exact Hfind. reflexivity. }
    reflexivity.
Qed.

(** DELETE_MESSAGE from the author, on a writable store. *)
Lemma delete_by_the_author env cid ws uid id row w :
  sqlite.locked (store w) = false →
  connections w !! cid = Some ws →
  userId (stateOf w ws) = Some uid →
  uid ≠ "" →
  liveMessage id row (store w) →
  sqlite.MessageRow.author_id row = uid →
  ConnectionManager.handleMessage (sqliteServer (now env)) env cid
    (Valid (DELETE_MESSAGE id)) w
  = (if truthy (roomId (stateOf w ws))
     then ConnectionManager.broadcastToRoom
            (ConnectionManager.asString (roomId (stateOf w ws)))
            (MESSAGE_DELETED id) None
     else ret tt)
      (set_emitted (emitted w ++ [message_deleted id])
         (set_store (sqlite.message_delete (now env) id (store w)).2 w)).
Proof.
  intros Hunlocked Hconn Huid Hne Hlive Hauthor.
  assert (truthy (userId (stateOf w ws)) = true) as Htruthy.
  { rewrite Huid. simpl. apply negb_true_iff, String.eqb_neq. done. }
  pose proof (lift_read (sqlite.message_findById id) w _
                (message_findById_live _ _ _ Hlive)) as Hfind.
  rewrite (handleMessage_routes _ _ ws) by done.
  cbn [ConnectionManager.routeEvent].
  unfold ConnectionManager.handleDeleteMessage. rewrite bind_getState.
  rewrite Htruthy. cbn [negb].
  erewrite bind_Ok.
  2:{ unfold useCases.deleteMessage.
      erewrite bind_Ok by exact Hfind. rewrite Huid. simpl.
      rewrite Hauthor, String.eqb_refl. cbn [negb].
      erewrite bind_Ok.
      2:{ apply lift_Ok. rewrite message_delete_eq by done. reflexivity. }
      reflexivity. }
  cbv beta iota. rewrite message_delete_eq by done. reflexivity.
Qed.
End SqliteNotFound.

(** X13.  A deletion is final for everyone.  When the author deletes a
    message (the database writable), the handler returns, the row is
    flagged, "message:deleted" is emitted and MESSAGE_DELETED goes to the
    room of the author's session, the author included.  From then on an
    EDIT_MESSAGE or a DELETE_MESSAGE for that id, from any connection that
    has a user (the author's too), is answered with one MESSAGE_NOT_FOUND
    error frame and changes nothing else. *)
Theorem deleted_message_is_gone_for_everyone
    (env env' : Env) (cid cid' : string) (ws ws' : nat) (uid : string)
    (w : World sqlite.Database) (messageId content : string)
    (row : sqlite.MessageRow.t) :
  sqlite.locked (store w) = false →
  connections w !! cid = Some ws →
  userId (stateOf w ws) = Some uid →
  uid ≠ "" →
  liveMessage messageId row (store w) →
  sqlite.MessageRow.author_id row = uid →
  connections w !! cid' = Some ws' →
  truthy (userId (stateOf w ws')) = true →
  let out :=
    runTask sqliteServer env
      (ws_message cid (Valid (DELETE_MESSAGE messageId))) w in
  out.1 = Ok tt
  ∧ store out.2 = (sqlite.message_delete (now env) messageId (store w)).2
  ∧ emitted out.2 = emitted w ++ [message_deleted messageId]
  ∧ sent out.2
    = sent w ++
      (if truthy (roomId (stateOf w ws))
       then (λ x, (x, MESSAGE_DELETED messageId)) <$>
              recipients w (ConnectionManager.asString
                              (roomId (stateOf w ws))) None
       else [])
  ∧ ConnectionManager.handleMessage (sqliteServer (now env')) env' cid'
      (Valid (EDIT_MESSAGE messageId content)) out.2
    = ConnectionManager.send ws'
        (ERROR "MESSAGE_NOT_FOUND" "Message not found") out.2
  ∧ ConnectionManager.handleMessage (sqliteServer (now env')) env' cid'
      (Valid (DELETE_MESSAGE messageId)) out.2
    = ConnectionManager.send ws'
        (ERROR "MESSAGE_NOT_FOUND" "Message not found") out.2.
Proof.
  intros Hunlocked Hconn Huid Hne Hlive Hauthor Hconn' Htruthy' out.
  subst out. cbn [runTask].
  rewrite (delete_by_the_author env cid ws uid messageId row w) by done.
  set (db' := (sqlite.message_delete (now env) messageId (store w)).2).
  set (w1 := set_emitted _ (set_store db' w)).
  assert (sqlite.message_findById messageId db' = (Ok None, db')) as Hgone
    by by apply message_findById_deleted.
  destruct (truthy (roomId (stateOf w ws))).
  - rewrite broadcastToRoom_eq.
    cbn [fst snd].
    split; [done|]. split; [done|]. split; [done|]. split; [done|].
    apply not_found_is_answered; done.
  - cbn [ret fst snd]. rewrite app_nil_r.
    split; [done|]. split; [done|]. split; [done|]. split; [done|].
    apply not_found_is_answered; done.
Qed.

Lemma deleted_message_is_gone_witness :
  let out :=
    runTask sqliteServer (mkEnv 7000 "")
      (ws_message "c1" (Valid (DELETE_MESSAGE "m1"))) withReply in
  out.1 = Ok tt
  ∧ store out.2 = (sqlite.message_delete 7000 "m1" (store withReply)).2
  ∧ emitted out.2 = emitted withReply ++ [message_deleted "m1"]
  ∧ sent out.2
    = sent withReply ++
      (if truthy (roomId (stateOf withReply 1))
       then (λ x, (x, MESSAGE_DELETED "m1")) <$>
              recipients withReply (ConnectionManager.asString
                                      (roomId (stateOf withReply 1))) None
       else [])
  ∧ ConnectionManager.handleMessage (sqliteServer 8000) (mkEnv 8000 "")
      "c1" (Valid (EDIT_MESSAGE "m1" "hello again")) out.2
    = ConnectionManager.send 1
        (ERROR "MESSAGE_NOT_FOUND" "Message not found") out.2
  ∧ ConnectionManager.handleMessage (sqliteServer 8000) (mkEnv 8000 "")
      "c1" (Valid (DELETE_MESSAGE "m1")) out.2
    = ConnectionManager.send 1
        (ERROR "MESSAGE_NOT_FOUND" "Message not found") out.2.
Proof.
  apply (deleted_message_is_gone_for_everyone (mkEnv 7000 "")
           (mkEnv 8000 "") "c1" "c1" 1 1 "u-alice" withReply "m1"
           "hello again"
           (sqlite.MessageRow.mk "m1" "general" "u-alice" "hello" None 0
              5000 None 5000)).
  - vm_compute. reflexivity.
  - vm_compute. reflexivity.
  - vm_compute. reflexivity.
  - discriminate.
  - vm_compute. reflexivity.
  - reflexivity.
  - vm_compute. reflexivity.
  - vm_compute. reflexivity.
Defined.

Section SqliteRejections.
Implicit Type w : World sqlite.Database.

Lemma message_save_throws now m db target :
  sqlite.locked db = false →
  Message.replyTo m = Some target →
  target ≠ Message.id m →
  ¬ hasMessage target db →
  ∃ e, sqlite.message_save now m db = (Throw e, db).
Proof.
  intros Hunlocked Hreply Hself Hno.
  unfold sqlite.message_save, sqlite.write. rewrite Hunlocked.
  case_bool_decide; [by eexists|].
  rewrite Hreply.
  assert (¬ (target = Message.id m
             ∨ Exists (λ r, sqlite.MessageRow.id r = target)
                      (sqlite.t_messages db))) as Hn
    by (intros [?|?]; done).
  rewrite (bool_decide_eq_false_2 _ Hn).
  rewrite !andb_false_r. by eexists.
Qed.
End SqliteRejections.

(** X14.  A reply to a message the store does not hold makes the handler
    reject: the insert violates the foreign key of [reply_to_id], the
    error reaches no [catch], so the promise of [handleMessage] rejects.
    The sender is sent nothing, nothing is stored, emitted or broadcast;
    the attempt has been counted by the rate limiter all the same.  (A
    reply to a message that is stored but deleted is accepted: the soft
    delete keeps the row.) *)
Theorem reply_to_an_unknown_message_rejects
    (env : Env) (cid : string) (ws : nat) (w : World sqlite.Database)
    (room content target : string) :
  connections w !! cid = Some ws →
  authorized (stateOf w ws) = true →
  (checkRateLimit (now env) (stateOf w ws)).1 = true →
  sqlite.locked (store w) = false →
  hasRoom room (store w) →
  hasUser (ConnectionManager.asString (userId (stateOf w ws))) (store w) →
  target ≠ "" →
  target ≠ nanoid env →
  ¬ hasMessage target (store w) →
  ∃ e,
    runTask sqliteServer env
      (ws_message cid (Valid (SEND_MESSAGE room content (Some target)))) w
    = (Throw e, counted env ws w).
Proof.
  intros Hconn Hauth Hrate Hunlocked Hroom Huser Hne Hself Hno.
  cbn [runTask]. rewrite (handleMessage_routes _ _ ws) by done.
  cbn [ConnectionManager.routeEvent].
  unfold ConnectionManager.handleSendMessage.
  erewrite bind_Ok by by apply validateUserAuthorized_true. cbn [negb].
  erewrite bind_Ok by (rewrite validateRateLimit_eq, Hrate; reflexivity).
  cbn [negb]. rewrite bind_getState.
  assert (userId (stateOf (counted env ws w) ws) = userId (stateOf w ws))
    as ->.
  { unfold counted. rewrite stateOf_set_heap_eq. apply checkRateLimit_user. }
  assert (truthy (Some target) = true) as ->
    by (simpl; by apply negb_true_iff, String.eqb_neq).
  destruct (room_findById_hasRoom room (store w) Hroom) as [rm Hfind].
  destruct (user_findById_hasUser _ (store w) Huser) as (author & Hau & _).
  set (uid := ConnectionManager.asString (userId (stateOf w ws))) in *.
  destruct (message_save_throws (now env)
              (MessageFactory.create env room uid content (Some target))
              (store w) target Hunlocked eq_refl Hself Hno) as [e Hsave].
  exists e. erewrite bind_Throw; [reflexivity|].
  unfold useCases.sendMessage.
  erewrite bind_Ok
    by exact (lift_read (sqlite.room_findById room) (counted env ws w) _
                Hfind).
  cbv beta iota.
  erewrite bind_Ok
    by exact (lift_read (sqlite.user_findById uid) (counted env ws w) _
                Hau).
  cbv beta iota zeta.
  assert (truthy (Some target) = true) as ->
    by (simpl; by apply negb_true_iff, String.eqb_neq).
  erewrite bind_Throw; [reflexivity|].
  unfold ConnectionManager.uow, liftUow, lift. cbn [messages messages_save].
  change (store (counted env ws w)) with (store w).
  cbn [sqliteServer sqlite.createUnitOfWork messages
       sqlite.SQLiteMessageRepository messages_save].
  rewrite Hsave. reflexivity.
Qed.

Lemma reply_to_an_unknown_message_witness :
  ∃ e,
    runTask sqliteServer (mkEnv 6000 "m1")
      (ws_message "c1"
         (Valid (SEND_MESSAGE "general" "re: nothing" (Some "m0"))))
      twoInGeneral
    = (Throw e, counted (mkEnv 6000 "m1") 1 twoInGeneral).
Proof.
  apply (reply_to_an_unknown_message_rejects (mkEnv 6000 "m1") "c1" 1
           twoInGeneral "general" "re: nothing" "m0").
  - vm_compute. reflexivity.
  - vm_compute. reflexivity.
  - vm_compute. reflexivity.
  - vm_compute. reflexivity.
  - apply Exists_cons_hd. reflexivity.
  - apply Exists_cons_hd. reflexivity.
  - discriminate.
  - discriminate.
  - intros H. vm_compute in H. inversion H.
Defined.

Section SqliteEdit.
Implicit Type w : World sqlite.Database.

Lemma message_update_eq now m db :
  sqlite.locked db = false →
  sqlite.message_update now m db =
  (Ok tt,
   sqlite.mkDatabase false (sqlite.t_users db) (sqlite.t_rooms db)
     (sqlite.t_room_participants db)
     ((λ r, if decide (sqlite.MessageRow.id r = Message.id m)
            then sqlite.MessageRow.mk (sqlite.MessageRow.id r)
                   (sqlite.MessageRow.room_id r)
                   (sqlite.MessageRow.author_id r) (Message.content m)
                   (sqlite.MessageRow.reply_to_id r)
                   (sqlite.MessageRow.is_deleted r)
                   (sqlite.MessageRow.created_at r) (Message.editedAt m) now
            else r) <$> sqlite.t_messages db)).
Proof.
  intros H. unfold sqlite.message_update, sqlite.write. by rewrite H.
Qed.

(** EDIT_MESSAGE from the author, on a writable store. *)
Lemma edit_by_the_author env cid ws uid id content row w :
  sqlite.locked (store w) = false →
  connections w !! cid = Some ws →
  userId (stateOf w ws) = Some uid →
  uid ≠ "" →
  liveMessage id row (store w) →
  sqlite.MessageRow.author_id row = uid →
  ConnectionManager.handleMessage (sqliteServer (now env)) env cid
    (Valid (EDIT_MESSAGE id content)) w
  = (if truthy (roomId (stateOf w ws))
     then ConnectionManager.broadcastToRoom
            (ConnectionManager.asString (roomId (stateOf w ws)))
            (MESSAGE_EDITED id content (Some (now env))) None
     else ret tt)
      (set_emitted (emitted w ++ [message_edited id])
         (set_store
            (sqlite.message_update (now env)
               (MessageFactory.edit env (sqlite.messageRowToEntity row)
                  content)
               (store w)).2 w)).
Proof.
  intros Hunlocked Hconn Huid Hne Hlive Hauthor.
  assert (truthy (userId (stateOf w ws)) = true) as Htruthy.
  { rewrite Huid. simpl. apply negb_true_iff, String.eqb_neq. done. }
  pose proof (lift_read (sqlite.message_findById id) w _
                (message_findById_live _ _ _ Hlive)) as Hfind.
  rewrite (handleMessage_routes _ _ ws) by done.
  cbn [ConnectionManager.routeEvent].
  unfold ConnectionManager.handleEditMessage. rewrite bind_getState.
  rewrite Htruthy. cbn [negb].
  erewrite bind_Ok.
  2:{ unfold useCases.editMessage.
      erewrite bind_Ok by exact Hfind. rewrite Huid. simpl.
      rewrite Hauthor, String.eqb_refl. cbn [negb].
      erewrite bind_Ok.
      2:{ apply lift_Ok. rewrite message_update_eq by done. reflexivity. }
      reflexivity. }
  cbv beta iota. rewrite message_update_eq by done. reflexivity.
Qed.
End SqliteEdit.

(** X21.  When the author edits a message (the database writable), the
    handler returns; the row keeps its room, its author and its creation
    time and gets the new content and the time of the edit; "message:edited"
    is emitted; and MESSAGE_EDITED goes to the writable sockets of the
    subscribers of the room of the author's session, the author included.
    The room of the message plays no part: a message written in one room
    and edited after the author joined another is announced to the other
    room. *)
Theorem edit_is_announced_to_the_room_of_the_session
    (env : Env) (cid : string) (ws : nat) (uid : string)
    (w : World sqlite.Database) (messageId content : string)
    (row : sqlite.MessageRow.t) :
  sqlite.locked (store w) = false →
  connections w !! cid = Some ws →
  userId (stateOf w ws) = Some uid →
  uid ≠ "" →
  liveMessage messageId row (store w) →
  sqlite.MessageRow.author_id row = uid →
  let out :=
    runTask sqliteServer env
      (ws_message cid (Valid (EDIT_MESSAGE messageId content))) w in
  out.1 = Ok tt
  ∧ sqlite.message_findById messageId (store out.2)
    = (Ok (Some (Message.mk messageId (sqlite.MessageRow.room_id row) uid
                   content (sqlite.MessageRow.created_at row)
                   (Some (now env)) (sqlite.MessageRow.reply_to_id row))),
       store out.2)
  ∧ emitted out.2 = emitted w ++ [message_edited messageId]
  ∧ sent out.2
    = sent w ++
      (if truthy (roomId (stateOf w ws))
       then (λ x, (x, MESSAGE_EDITED messageId content (Some (now env)))) <$>
              recipients w (ConnectionManager.asString
                              (roomId (stateOf w ws))) None
       else [])
  ∧ registry out.2 = registry w.
Proof.
  intros Hunlocked Hconn Huid Hne Hlive Hauthor out.
  subst out. cbn [runTask].
  rewrite (edit_by_the_author env cid ws uid messageId content row w)
    by done.
  assert (sqlite.MessageRow.id row = messageId) as Hid.
  { unfold liveMessage in Hlive.
    by apply head_Some_elem_of, list_elem_of_filter in Hlive as [[? _] _]. }
  set (db' := (sqlite.message_update _ _ (store w)).2).
  assert (sqlite.message_findById messageId db'
          = (Ok (Some (Message.mk messageId (sqlite.MessageRow.room_id row)
                         uid content (sqlite.MessageRow.created_at row)
                         (Some (now env))
                         (sqlite.MessageRow.reply_to_id row))), db'))
    as Hfound.
  { subst db'. rewrite message_update_eq by done. cbn [snd].
    unfold sqlite.message_findById, gets. cbn [sqlite.t_messages].
    rewrite filter_fmap_comm, head_fmap.
    2:{ intros r. simpl. by case_decide. }
    unfold liveMessage in Hlive. rewrite Hlive. simpl.
    rewrite decide_True by done. by rewrite Hid, Hauthor. }
  destruct (truthy (roomId (stateOf w ws))).
  - rewrite broadcastToRoom_eq. cbn [fst snd]. by repeat split.
  - cbn [ret fst snd]. rewrite app_nil_r. by repeat split.
Qed.

Lemma edit_is_announced_witness :
  let out :=
    runTask sqliteServer (mkEnv 7000 "")
      (ws_message "c1" (Valid (EDIT_MESSAGE "m1" "hello all"))) withReply in
  out.1 = Ok tt
  ∧ sqlite.message_findById "m1" (store out.2)
    = (Ok (Some (Message.mk "m1" "general" "u-alice" "hello all" 5000
                   (Some 7000%Z) None)),
       store out.2)
  ∧ emitted out.2 = emitted withReply ++ [message_edited "m1"]
  ∧ sent out.2
    = sent withReply ++
      (if truthy (roomId (stateOf withReply 1))
       then (λ x, (x, MESSAGE_EDITED "m1" "hello all" (Some 7000%Z))) <$>
              recipients withReply (ConnectionManager.asString
                                      (roomId (stateOf withReply 1))) None
       else [])
  ∧ registry out.2 = registry withReply.
Proof.
  apply (edit_is_announced_to_the_room_of_the_session (mkEnv 7000 "") "c1"
           1 "u-alice" withReply "m1" "hello all"
           (sqlite.MessageRow.mk "m1" "general" "u-alice" "hello" None 0
              5000 None 5000)).
  - vm_compute. reflexivity.
  - vm_compute. reflexivity.
  - vm_compute. reflexivity.
  - discriminate.
  - vm_compute. reflexivity.
  - reflexivity.
Defined.

(** ** What closing a connection writes *)

Section Closing.
Implicit Type w : World sqlite.Database.

Lemma tables_user_updateStatus now u st :
  Steps (same (λ w, tablesOf (store w)))
    (lift (sqlite.user_updateStatus now u st)).
Proof.
  intros w. unfold lift, sqlite.user_updateStatus, sqlite.write.
  destruct (sqlite.locked (store w)); [done|].
  unfold same, tablesOf. simpl. f_equal; [f_equal|].
  - rewrite <- list_fmap_compose. apply list_fmap_ext. intros i row _.
    simpl. by case_decide.
  - rewrite <- list_fmap_compose. apply list_fmap_ext. intros i row _.
    simpl. by case_decide.
Qed.

Lemma tables_user_updateLastSeen now u :
  Steps (same (λ w, tablesOf (store w)))
    (lift (sqlite.user_updateLastSeen now u)).
Proof.
  intros w. unfold lift, sqlite.user_updateLastSeen, sqlite.write.
  destruct (sqlite.locked (store w)); [done|].
  unfold same, tablesOf. simpl. f_equal; [f_equal|].
  - rewrite <- list_fmap_compose. apply list_fmap_ext. intros i row _.
    simpl. by case_decide.
  - rewrite <- list_fmap_compose. apply list_fmap_ext. intros i row _.
    simpl. by case_decide.
Qed.

Lemma tables_broadcastToRoom r ev ex :
  Steps (same (λ w, tablesOf (store w)))
    (ConnectionManager.broadcastToRoom r ev ex).
Proof. intros w. by rewrite broadcastToRoom_eq. Qed.

Lemma tables_removeConnection now id :
  Steps (same (λ w, tablesOf (store w)))
    (ConnectionManager.removeConnection (sqliteServer now) id).
Proof.
  unfold ConnectionManager.removeConnection, ConnectionManager.getState,
    ConnectionManager.clearTimeout, ConnectionManager.leaveRoom,
    ConnectionManager.emit.
  steps; try reflexivity;
    auto using tables_broadcastToRoom, tables_user_updateStatus,
      tables_user_updateLastSeen.
  - unfold same. by repeat case_match.
  - apply tables_user_updateStatus.
  - apply tables_user_updateLastSeen.
Qed.
End Closing.

(** X15.  Closing a connection writes the users table only, and of a user
    only the status and the time stamps: the rooms, the messages and the
    participants of every room are as before.  The user of a closed
    connection stays a participant of its room in the store (only
    LEAVE_ROOM removes the row), so the room keeps counting it. *)
Theorem closing_leaves_the_participants
    (env : Env) (cid : string) (w : World sqlite.Database) :
  let w' := exec sqliteServer env (ws_close cid) w in
  sqlite.t_room_participants (store w') = sqlite.t_room_participants (store w)
  ∧ sqlite.t_rooms (store w') = sqlite.t_rooms (store w)
  ∧ sqlite.t_messages (store w') = sqlite.t_messages (store w)
  ∧ sqlite.UserRow.id <$> sqlite.t_users (store w')
    = sqlite.UserRow.id <$> sqlite.t_users (store w)
  ∧ sqlite.UserRow.username <$> sqlite.t_users (store w')
    = sqlite.UserRow.username <$> sqlite.t_users (store w)
  ∧ ∀ room,
      (sqlite.room_getParticipantCount room (store w')).1
      = (sqlite.room_getParticipantCount room (store w)).1.
Proof.
  intros w'.
  assert (tablesOf (store w') = tablesOf (store w)) as Hsame
    by apply (tables_removeConnection (now env) cid w).
  unfold tablesOf in Hsame.
  injection Hsame as Hrooms Hparts Hmsgs Hids Hnames.
  repeat split; try done.
  intros room. unfold sqlite.room_getParticipantCount, gets. simpl.
  by rewrite Hparts.
Qed.

(* ===================================================================== *)
(** * The entities *)

Section Strings.

Lemma string_length_append (s1 s2 : string) :
  String.length (s1 +:+ s2) = String.length s1 + String.length s2.
Proof. induction s1 as [|c s1 IH]; simpl; [done|]. by rewrite IH. Qed.

Lemma substring_split (n : nat) (s : string) :
  n ≤ String.length s →
  ∃ rest,
    s = String.substring 0 n s +:+ rest
    ∧ String.length (String.substring 0 n s) = n.
Proof.
  revert s. induction n as [|n IH]; intros s Hn.
  - exists s. by destruct s.
  - destruct s as [|c s]; simpl in *; [lia|].
    destruct (IH s) as (rest & Hs & Hlen); [lia|].
    exists rest. split; [|by rewrite Hlen].
    change (String c s = String c (String.substring 0 n s +:+ rest)).
    by rewrite <- Hs.
Qed.

Lemma truncateForPreview_length (content : string) :
  String.length (MessageFormatter.truncateForPreview content) ≤ 53.
Proof.
  unfold MessageFormatter.truncateForPreview.
  case_decide as Hlen; [lia|].
  destruct (substring_split 50 content) as (rest & Hsplit & Hkept); [lia|].
  rewrite string_length_append, Hkept. simpl. lia.
Qed.
End Strings.

(** X16.  The preview of a message is the message when it has at most 50
    characters; otherwise it is its first 50 characters followed by three
    dots.  A preview never has more than 53 characters. *)
Theorem truncateForPreview_keeps_the_first_50 (content : string) :
  String.length (MessageFormatter.truncateForPreview content) ≤ 53
  ∧ (String.length content ≤ 50 →
     MessageFormatter.truncateForPreview content = content)
  ∧ (50 < String.length content →
     ∃ kept dropped,
       content = kept +:+ dropped
       ∧ String.length kept = 50
       ∧ MessageFormatter.truncateForPreview content = kept +:+ "...").
Proof.
  unfold MessageFormatter.truncateForPreview.
  case_decide as Hlen.
  - split; [lia|]. split; [done|]. lia.
  - destruct (substring_split 50 content) as (rest & Hsplit & Hkept); [lia|].
    split; [|split; [lia|]].
    + rewrite string_length_append, Hkept. simpl. lia.
    + intros _. by exists (String.substring 0 50 content), rest.
Qed.

(** X17.  Whatever the unit of work returns, the reply preview carried by
    a DTO has at most 53 characters, and a message that is not a reply
    yields a DTO without reply info. *)
Theorem reply_preview_is_bounded
    {S} (uow : UnitOfWork S) (message : Message.t) (s s' : S)
    (dto : MessageDTO.t) :
  useCases.messageToDTO uow message s = (Ok dto, s') →
  match MessageDTO.replyTo dto with
  | Some info =>
      String.length (ReplyInfo.contentPreview info) ≤ 53
      ∧ ∃ target, Message.replyTo message = Some target ∧ target ≠ ""
  | None => True
  end.
Proof.
  unfold useCases.messageToDTO, bind, ret, throw.
  destruct (users_findById (users uow) _ s) as [[[author|]|e] s1];
    [|done|done].
  destruct (truthy (Message.replyTo message)) eqn:Ereply.
  - destruct (messages_findById (messages uow) _ s1) as [[[reply|]|e] s2];
      [|by intros [= <- _]|done].
    destruct (users_findById (users uow) _ s2) as [[replyAuthor|e] s3];
      [|done].
    intros [= <- _]. simpl. split.
    + apply truncateForPreview_length.
    + destruct (Message.replyTo message) as [target|]; [|done].
      exists target. split; [done|]. intros ->. done.
  - by intros [= <- _].
Qed.

Lemma reply_preview_is_bounded_witness :
  String.length "hello" ≤ 53
  ∧ ∃ target, Message.replyTo bobsReply = Some target ∧ target ≠ "".
Proof.
  apply (reply_preview_is_bounded (sqliteServer 7001) bobsReply
           (store withReply) (store withReply)
           (MessageDTO.mk "m2" "general"
              (Author.mk "u-bob" "bob" (UserFactory.generateAvatar "bob"))
              "hi alice" 6000 None
              (Some (ReplyInfo.mk "m1" "alice" "hello")))).
  vm_compute. reflexivity.
Defined.

(** X18.  The avatar of a user is always one of the twelve palette
    colours: the index is the sum of the character codes of the name modulo
    the length of the palette, so the fallback colour is never needed (it
    happens to be in the palette too).  Names with the same characters in
    another order get the same colour. *)
Theorem generateAvatar_is_a_palette_colour (username : string) :
  UserFactory.generateAvatar username ∈ UserFactory.AVATAR_COLORS
  ∧ UserFactory.AVATAR_COLORS
      !! (UserFactory.charCodeSum username
            `mod` length UserFactory.AVATAR_COLORS)
    = Some (UserFactory.generateAvatar username)
  ∧ ∀ other,
      UserFactory.charCodeSum other = UserFactory.charCodeSum username →
      UserFactory.generateAvatar other = UserFactory.generateAvatar username.
Proof.
  unfold UserFactory.generateAvatar.
  assert (UserFactory.charCodeSum username
            `mod` length UserFactory.AVATAR_COLORS
          < length UserFactory.AVATAR_COLORS) as Hlt
    by (apply Nat.mod_upper_bound; simpl; lia).
  apply lookup_lt_is_Some in Hlt as [colour Hcolour].
  split; [|split].
  - rewrite Hcolour. by eapply list_elem_of_lookup_2.
  - by rewrite Hcolour.
  - intros other Hother. by rewrite Hother.
Qed.

(** X19.  Adding a participant to a room and removing it again gives back
    the room, when the user was not in it; adding a user twice is adding it
    once; after an addition the user is in the room, after a removal it is
    not; and nothing but the participants differs from the room given. *)
Theorem roomFactory_add_then_remove (room : Room.t) (userId : string) :
  set_has userId
    (Room.participants (RoomFactory.addParticipant room userId)) = true
  ∧ set_has userId
      (Room.participants (RoomFactory.removeParticipant room userId)) = false
  ∧ RoomFactory.addParticipant (RoomFactory.addParticipant room userId) userId
    = RoomFactory.addParticipant room userId
  ∧ (set_has userId (Room.participants room) = false →
     RoomFactory.removeParticipant
       (RoomFactory.addParticipant room userId) userId
     = room)
  ∧ (set_has userId (Room.participants room) = true →
     RoomFactory.addParticipant room userId = room).
Proof.
  destruct room as [id name description createdAt participants].
  unfold RoomFactory.addParticipant, RoomFactory.removeParticipant. simpl.
  assert (set_has userId (set_add userId participants) = true) as Hadded.
  { apply bool_decide_eq_true_2. unfold set_add, set_has.
    case_bool_decide as Hin; [done|]. apply elem_of_app. right. by left. }
  split; [done|]. split; [|split; [|split]].
  - unfold set_delete, set_has. apply bool_decide_eq_false_2.
    intros [Hne _]%list_elem_of_filter. done.
  - f_equal. unfold set_add at 1. by rewrite Hadded.
  - intros Hnot. f_equal. unfold set_add. rewrite Hnot.
    unfold set_delete. rewrite filter_app, filter_cons_False by tauto.
    rewrite filter_nil, app_nil_r. apply filter_all.
    apply Forall_forall. intros y Hy ->.
    unfold set_has in Hnot. by apply bool_decide_eq_false_1 in Hnot.
  - intros Hin. f_equal. unfold set_add. by rewrite Hin.
Qed.

(* ===================================================================== *)
(** * The history of a room *)

Section History.
Import sqlite.

(** Reads that succeed without changing the state can be mapped. *)
Lemma mapM_reads {S A B} (f : A → M S B) (g : A → B) (l : list A) (s : S) :
  Forall (λ x, f x s = (Ok (g x), s)) l →
  mapM f l s = (Ok (g <$> l), s).
Proof.
  induction 1 as [|x l Hx _ IH]; [done|].
  cbn [mapM]. rewrite (bind_Ok _ _ _ _ _ Hx).
  by rewrite (bind_Ok _ _ _ _ _ IH).
Qed.







End History.



(** In [withReply] the room holds "m1" and then "m2"; a page of one message
    is asked for: it holds "m1", the older of the two. *)
Lemma getRoomHistory_page_of_one :
  (roomHistory.getRoomHistory (sqliteServer 9000) roomHistory.findByRoom
     "general" (Some 1) None (store withReply)).1
  = Ok (success (GetRoomHistoryOutput.mk
      [MessageDTO.mk "m1" "general"
         (Author.mk "u-alice" "alice" (UserFactory.generateAvatar "alice"))
         "hello" 5000 None None]
      [User.mk "u-alice" "alice" (UserFactory.generateAvatar "alice")
         online 3000;
       User.mk "u-bob" "bob" (UserFactory.generateAvatar "bob") online 4000]
      true)).
Proof. vm_compute. reflexivity. Qed.

(* ===================================================================== *)
(** * The event emitter *)

Section Emitter.
Context {U D : Type}.
Variable call : nat → D → U → events.Outcome * U.
Implicit Type s : events.State U.
Implicit Type h : events.Handler.

Lemma remove_middle h (pre suf : list events.Handler) :
  NoDup (pre ++ h :: suf) →
  events.remove h (pre ++ h :: suf) = pre ++ suf.
Proof.
  intros Hnd. apply NoDup_app in Hnd as (_ & Hdisj & Hsuf).
  apply NoDup_cons in Hsuf as [Hnot _].
  unfold events.remove.
  rewrite filter_app, filter_cons_False by (intros Hne; by apply Hne).
  rewrite !filter_all; [done| |].
  - apply Forall_forall. by intros x Hx ->.
  - apply Forall_forall. intros x Hx ->. apply (Hdisj h Hx). by left.
Qed.

(** One turn of the loop of [emit]. *)
Lemma emit_turn event data e ref h pre suf u c :
  NoDup (pre ++ h :: suf) →
  events.wrappersAtHome ref [h] →
  ∃ st,
    (present <- gets (λ s,
       bool_decide (h ∈ events.setOf (events.emitter s) ref)) ;;
     if present then
       outcome <- events.callHandler call h data ;;
       match outcome with
       | events.Thrown error =>
           events.console_error
             ("Error in event handler for " +:+ event +:+ ": " +:+ error)
       | _ => ret tt
       end
     else ret tt)
      (events.mkState (events.emitting e ref (pre ++ h :: suf)) u c)
    = (Ok tt, st)
    ∧ events.emitter st
      = events.emitting e ref (pre ++ filter events.isListener [h] ++ suf)
    ∧ (events.user st, events.console st)
      = events.callAll call event [events.calls h] data u c.
Proof.
  intros Hnd Hhome.
  assert (h ∈ pre ++ h :: suf) as Hin
    by (apply elem_of_app; right; by left).
  unfold bind at 1, gets at 1.
  cbn [events.emitter].
  assert (events.setOf (events.emitting e ref (pre ++ h :: suf)) ref
          = pre ++ h :: suf) as ->.
  { unfold events.setOf, events.emitting. simpl.
    by rewrite lookup_insert_eq. }
  rewrite (bool_decide_eq_true_2 _ Hin).
  destruct h as [r|k inner target].
  - cbn [events.callHandler events.calls events.callAll].
    unfold bind, events.callListener. cbn [events.user].
    destruct (call r data u) as [o u'].
    rewrite filter_cons_True by done.
    destruct o; (eexists; split; [reflexivity|]); by repeat split.
  - apply Forall_cons in Hhome as [-> _].
    cbn [events.callHandler events.calls events.callAll].
    unfold bind, events.unsubscribe, modify, events.callListener.
    cbn [events.emitter events.emitting events.objects events.user
         events.captured_handlers events.captured_handler
         events.set_emitter events.console events.handlers
         events.nextObject].
    rewrite lookup_insert_eq. unfold events.set_emitter.
    cbn [events.user events.emitter events.console].
    destruct (call inner data u) as [o u'].
    rewrite filter_cons_False by (simpl; tauto).
    rewrite remove_middle by done. unfold events.emitting.
    cbn [events.handlers events.objects events.nextObject].
    rewrite insert_insert_eq.
    destruct o; (eexists; split; [reflexivity|]); by repeat split.
Qed.

Lemma callAll_cons event ref refs data u c :
  events.callAll call event (ref :: refs) data u c
  = events.callAll call event refs data
      (events.callAll call event [ref] data u c).1
      (events.callAll call event [ref] data u c).2.
Proof. simpl. by destruct (call ref data u) as [[] u']. Qed.

Lemma state_eta s :
  events.mkState (events.emitter s) (events.user s) (events.console s) = s.
Proof. by destruct s. Qed.

Lemma emit_loop event data e ref suf : ∀ pre u c,
  NoDup (pre ++ suf) →
  events.wrappersAtHome ref suf →
  ∃ st,
    forM_ suf (λ handler,
      present <- gets (λ s,
        bool_decide (handler ∈ events.setOf (events.emitter s) ref)) ;;
      if present then
        outcome <- events.callHandler call handler data ;;
        match outcome with
        | events.Thrown error =>
            events.console_error
              ("Error in event handler for " +:+ event +:+ ": " +:+ error)
        | _ => ret tt
        end
      else ret tt)
      (events.mkState (events.emitting e ref (pre ++ suf)) u c)
    = (Ok tt, st)
    ∧ events.emitter st
      = events.emitting e ref (pre ++ filter events.isListener suf)
    ∧ (events.user st, events.console st)
      = events.callAll call event (events.calls <$> suf) data u c.
Proof.
  induction suf as [|h suf IH]; intros pre u c Hnd Hhome.
  - eexists. split; [reflexivity|]. by split.
  - apply Forall_cons in Hhome as [Hh Hhome].
    destruct (emit_turn event data e ref h pre suf u c Hnd)
      as (st1 & Hturn & He1 & Huc1); [by constructor|].
    cbn [forM_]. rewrite (bind_Ok _ _ _ _ _ Hturn).
    destruct (IH (pre ++ filter events.isListener [h])
                (events.user st1) (events.console st1))
      as (st & Hrest & He & Huc); [|done|].
    { rewrite <- app_assoc.
      apply NoDup_app in Hnd as (Hpre & Hdisj & Hsuf).
      apply NoDup_cons in Hsuf as [Hnot Hsuf].
      destruct (decide (events.isListener h)).
      - rewrite filter_cons_True by done. cbn [filter list_filter app].
        apply NoDup_app. split; [done|]. split; [done|].
        by apply NoDup_cons.
      - rewrite filter_cons_False by done. cbn [filter list_filter app].
        apply NoDup_app. split; [done|]. split; [|done].
        intros x Hx Hx'. apply (Hdisj x Hx). by right. }
    exists st. split; [|split].
    + rewrite <- (state_eta st1), He1, app_assoc. exact Hrest.
    + rewrite He, <- app_assoc.
      destruct (decide (events.isListener h)).
      * by rewrite !filter_cons_True by done.
      * by rewrite !filter_cons_False by done.
    + rewrite fmap_cons, callAll_cons, <- Huc1. exact Huc.
Qed.

Lemma emit_handlers event data s ref hs :
  events.handlers (events.emitter s) !! event = Some ref →
  events.objects (events.emitter s) !! ref = Some hs →
  NoDup hs →
  events.wrappersAtHome ref hs →
  ∃ st,
    events.emit call event data s = (Ok tt, st)
    ∧ events.emitter st
      = events.emitting (events.emitter s) ref
          (filter events.isListener hs)
    ∧ (events.user st, events.console st)
      = events.callAll call event (events.calls <$> hs) data
          (events.user s) (events.console s).
Proof.
  intros Hevent Hset Hnd Hhome.
  destruct (emit_loop event data (events.emitter s) ref hs []
              (events.user s) (events.console s) Hnd Hhome)
    as (st & Hloop & He & Huc).
  exists st. split; [|by split].
  unfold events.emit.
  rewrite bind_Ok with (a := Some ref) (s' := s)
    by (unfold gets; by rewrite Hevent).
  rewrite bind_Ok with (a := hs) (s' := s)
    by (unfold gets, events.setOf; by rewrite Hset).
  rewrite <- Hloop. f_equal. rewrite <- (state_eta s) at 1. f_equal.
  unfold events.emitting. rewrite insert_id by done.
  by destruct (events.emitter s).
Qed.
End Emitter.

(** X22.  [emit] never throws and calls every handler of the event once,
    in the order of registration.  A listener that throws costs one console
    line and does not keep the listeners after it from being called; a
    promise that rejects later is dropped.  The wrappers of [once] are gone
    from the Set afterwards (each removed itself before calling its
    listener); the listeners stay.  Nothing else of the emitter changes. *)
Theorem emit_calls_every_handler_once_in_order
    {U D} (call : nat → D → U → events.Outcome * U)
    (event : string) (data : D) (s : events.State U)
    (ref : nat) (hs : list events.Handler) :
  events.handlers (events.emitter s) !! event = Some ref →
  events.objects (events.emitter s) !! ref = Some hs →
  NoDup hs →
  events.wrappersAtHome ref hs →
  ∃ st,
    events.emit call event data s = (Ok tt, st)
    ∧ events.emitter st
      = events.emitting (events.emitter s) ref
          (filter events.isListener hs)
    ∧ (events.user st, events.console st)
      = events.callAll call event (events.calls <$> hs) data
          (events.user s) (events.console s).
Proof.
  intros Hevent Hset Hnd Hhome.
  destruct (emit_loop call event data (events.emitter s) ref hs []
              (events.user s) (events.console s) Hnd Hhome)
    as (st & Hloop & He & Huc).
  exists st. split; [|by split].
  unfold events.emit.
  rewrite bind_Ok with (a := Some ref) (s' := s)
    by (unfold gets; by rewrite Hevent).
  rewrite bind_Ok with (a := hs) (s' := s)
    by (unfold gets, events.setOf; by rewrite Hset).
  rewrite <- Hloop. f_equal. rewrite <- (state_eta s) at 1. f_equal.
  unfold events.emitting. rewrite insert_id by done.
  by destruct (events.emitter s).
Qed.

Lemma emit_calls_every_handler_witness :
  ∃ st,
    events.emit events.logCall "ping" 7 events.threeHandlers = (Ok tt, st)
    ∧ events.emitter st
      = events.emitting (events.emitter events.threeHandlers) 0
          (filter events.isListener
             [events.listener 1; events.listener 2;
              events.wrappedHandler 1 3 0])
    ∧ (events.user st, events.console st)
      = events.callAll events.logCall "ping"
          (events.calls <$> [events.listener 1; events.listener 2;
                             events.wrappedHandler 1 3 0]) 7
          (events.user events.threeHandlers)
          (events.console events.threeHandlers).
Proof.
  apply (emit_calls_every_handler_once_in_order events.logCall "ping" 7
           events.threeHandlers 0
           [events.listener 1; events.listener 2;
            events.wrappedHandler 1 3 0]).
  - vm_compute. reflexivity.
  - vm_compute. reflexivity.
  - repeat (apply NoDup_cons_2;
            [intros H;
             repeat (apply elem_of_cons in H as [H|H]; [discriminate H|]);
             by apply elem_of_nil in H|]).
    apply NoDup_nil_2.
  - repeat constructor.
Defined.

(** The three handlers are called in order with the payload; the throw of
    listener 2 is logged and listener 3, registered once, is gone. *)
Lemma emit_three_handlers :
  let st := (events.emit events.logCall "ping" 7 events.threeHandlers).2 in
  events.user st = [(1, 7); (2, 7); (3, 7)]
  ∧ events.console st = ["Error in event handler for ping: boom"]
  ∧ events.setOf (events.emitter st) 0
    = [events.listener 1; events.listener 2]
  ∧ events.user
      (events.emit events.logCall "ping" 8 st).2
    = [(1, 7); (2, 7); (3, 7); (1, 8); (2, 8)].
Proof. vm_compute. repeat split; reflexivity. Qed.

Section Once.
Context {U D : Type}.
Variable call : nat → D → U → events.Outcome * U.
Implicit Type s : events.State U.

Lemma listeners_are_listeners (refs : list nat) :
  filter events.isListener (events.listener <$> refs)
  = events.listener <$> refs
  ∧ events.calls <$> (events.listener <$> refs) = refs
  ∧ events.wrappersAtHome 0 (events.listener <$> refs) 
  ∧ (NoDup refs → NoDup (events.listener <$> refs)).
Proof.
  split; [|split; [|split]].
  - apply filter_all, Forall_fmap, Forall_forall. by intros.
  - rewrite <- list_fmap_compose. induction refs; [done|].
    by rewrite fmap_cons, IHrefs.
  - apply Forall_fmap, Forall_forall. by intros.
  - intros Hnd. apply NoDup_fmap_2; [|done]. by intros x y [= ->].
Qed.

Lemma wrappersAtHome_listeners ref (refs : list nat) :
  events.wrappersAtHome ref (events.listener <$> refs).
Proof. apply Forall_fmap, Forall_forall. by intros. Qed.

(** After [once], the wrapper is the last handler of the event, and it
    holds the Set it is in. *)
Lemma once_registers event inner s refs :
  match events.handlers (events.emitter s) !! event with
  | Some ref =>
      events.objects (events.emitter s) !! ref
      = Some (events.listener <$> refs)
  | None => refs = []
  end →
  ∃ u s1 ref k,
    events.once event inner s = (Ok u, s1)
    ∧ events.user s1 = events.user s
    ∧ events.console s1 = events.console s
    ∧ events.handlers (events.emitter s1) !! event = Some ref
    ∧ events.objects (events.emitter s1) !! ref
      = Some ((events.listener <$> refs)
                ++ [events.wrappedHandler k inner ref]).
Proof.
  intros Hset. unfold events.once, events.on.
  cbn [events.emitter events.set_emitter events.handlers events.objects
       events.nextObject].
  destruct (events.handlers (events.emitter s) !! event) as [ref|] eqn:Hev.
  - eexists _, _, ref, _. split; [reflexivity|].
    cbn [events.emitter events.set_emitter events.handlers events.objects
         events.user events.console].
    rewrite !lookup_insert_eq. repeat split.
    unfold events.setOf. cbn [events.objects]. rewrite Hset. simpl.
    unfold events.add. rewrite decide_False; [done|].
    intros (x & Hx & _)%list_elem_of_fmap. discriminate Hx.
  - subst refs. eexists _, _, _, _. split; [reflexivity|].
    cbn [events.emitter events.set_emitter events.handlers events.objects
         events.user events.console].
    rewrite !lookup_insert_eq. by repeat split.
Qed.
End Once.

(** X23.  A listener registered with [once] is called by the next [emit]
    of the event, after the listeners registered before it, and by no later
    one: the second [emit] calls the other listeners only, and the count of
    listeners is what it was before [once]. *)
Theorem once_listener_is_called_once
    {U D} (call : nat → D → U → events.Outcome * U)
    (event : string) (inner : nat) (d1 d2 : D) (s : events.State U)
    (refs : list nat) :
  NoDup refs →
  match events.handlers (events.emitter s) !! event with
  | Some ref =>
      events.objects (events.emitter s) !! ref
      = Some (events.listener <$> refs)
  | None => refs = []
  end →
  ∃ st,
    (events.once event inner ;;;
     events.emit call event d1 ;;;
     events.emit call event d2) s
    = (Ok tt, st)
    ∧ (events.user st, events.console st)
      = (let '(u1, c1) :=
           events.callAll call event (refs ++ [inner]) d1
             (events.user s) (events.console s) in
         events.callAll call event refs d2 u1 c1)
    ∧ events.listenerCount event st = (Ok (length refs), st).
Proof.
  intros Hnd Hset.
  destruct (once_registers event inner s refs Hset)
    as (u & s1 & ref & k & Honce & Hu1 & Hc1 & Hev1 & Hobj1).
  destruct (listeners_are_listeners refs) as (Hfilter & Hcalls & _ & Hnd').
  destruct (emit_handlers call event d1 s1 ref _ Hev1 Hobj1)
    as (s2 & Hemit1 & He2 & Huc2).
  { apply NoDup_app. split; [by apply Hnd'|]. split; [|apply NoDup_singleton].
    intros x (y & -> & _)%list_elem_of_fmap Hx.
    apply list_elem_of_singleton in Hx. discriminate Hx. }
  { apply Forall_app. split; [apply wrappersAtHome_listeners|].
    by repeat constructor. }
  rewrite filter_app, Hfilter in He2.
  rewrite filter_cons_False, filter_nil, app_nil_r in He2 by (simpl; tauto).
  rewrite fmap_app, Hcalls in Huc2. cbn [fmap list_fmap events.calls] in Huc2.
  rewrite Hu1, Hc1 in Huc2.
  assert (events.handlers (events.emitter s2) !! event = Some ref) as Hev2
    by by rewrite He2.
  assert (events.objects (events.emitter s2) !! ref
          = Some (events.listener <$> refs)) as Hobj2.
  { rewrite He2. unfold events.emitting. cbn [events.objects].
    by rewrite lookup_insert_eq. }
  destruct (emit_handlers call event d2 s2 ref _ Hev2 Hobj2)
    as (s3 & Hemit2 & He3 & Huc3);
    [by apply Hnd'|apply wrappersAtHome_listeners|].
  rewrite Hfilter in He3. rewrite Hcalls in Huc3.
  exists s3. split; [|split].
  - rewrite (bind_Ok _ _ _ _ _ Honce), (bind_Ok _ _ _ _ _ Hemit1).
    exact Hemit2.
  - rewrite Huc3.
    destruct (events.callAll call event (refs ++ [inner]) d1 _ _)
      as [u1 c1] eqn:E.
    injection Huc2 as -> ->. done.
  - unfold events.listenerCount, gets. rewrite He3.
    unfold events.emitting, events.setOf.
    cbn [events.handlers events.objects].
    rewrite He2. cbn [events.emitting events.handlers]. rewrite Hev1.
    rewrite lookup_insert_eq. cbn [default from_option id].
    by rewrite length_fmap.
Qed.

Lemma once_listener_witness :
  ∃ st,
    (events.once "ping" 3 ;;;
     events.emit events.logCall "ping" 7 ;;;
     events.emit events.logCall "ping" 8) events.twoListeners
    = (Ok tt, st)
    ∧ (events.user st, events.console st)
      = (let '(u1, c1) :=
           events.callAll events.logCall "ping" ([1; 2] ++ [3]) 7
             (events.user events.twoListeners)
             (events.console events.twoListeners) in
         events.callAll events.logCall "ping" [1; 2] 8 u1 c1)
    ∧ events.listenerCount "ping" st = (Ok (length [1; 2]), st).
Proof.
  apply (once_listener_is_called_once events.logCall "ping" 3 7 8
           events.twoListeners [1; 2]).
  - repeat (apply NoDup_cons_2;
            [intros H;
             repeat (apply elem_of_cons in H as [H|H]; [discriminate H|]);
             by apply elem_of_nil in H|]).
    apply NoDup_nil_2.
  - vm_compute. reflexivity.
Defined.

Lemma remove_add (h : events.Handler) (l : list events.Handler) :
  events.remove h (events.add h l) = events.remove h l.
Proof.
  unfold events.add, events.remove. case_decide; [done|].
  rewrite filter_app, filter_cons_False by (intros Hne; by apply Hne).
  by rewrite filter_nil, app_nil_r.
Qed.

(** X24.  The function [on] returns removes the handler from the Set it
    was made for, and from that Set only.  After [off(event)] the event
    gets a new Set when a handler is next registered, so calling a function
    that [on] returned earlier no longer unregisters anything: the handler registered again stays registered.
    Without the [off] in between, the same call unregisters the handler,
    however many times it was registered (a Set holds it once). *)
Theorem unsubscribe_acts_on_the_set_it_was_made_for
    {U} (event : string) (h : events.Handler) (s : events.State U) :
  events.allocated (events.emitter s) →
  (∃ st,
     (u <- events.on event h ;;
      events.off event None ;;;
      events.on event h ;;;
      events.unsubscribe u ;;;
      events.listenerCount event) s
     = (Ok 1, st))
  ∧ (∃ st,
       (u <- events.on event h ;;
        events.on event h ;;;
        events.unsubscribe u ;;;
        events.listenerCount event) s
       = (Ok (length
                (events.remove h
                   (match events.handlers (events.emitter s) !! event with
                    | Some ref => events.setOf (events.emitter s) ref
                    | None => []
                    end))),
          st)).
Proof.
  intros Halloc. unfold events.allocated in Halloc.
  destruct s as [[hm objs n] u c]. cbn [events.emitter events.handlers
    events.nextObject] in Halloc.
  unfold bind, events.on, events.off, events.unsubscribe,
    events.listenerCount, modify, gets, events.set_emitter, events.setOf.
  simpl.
  destruct (hm !! event) as [ref|] eqn:Hev; simpl.
  - specialize (Halloc event ref Hev).
    split.
    + repeat (first [rewrite lookup_delete_eq | rewrite lookup_insert_eq
                    | rewrite lookup_insert_ne by lia]; simpl).
      by eexists.
    + repeat (first [rewrite lookup_delete_eq | rewrite lookup_insert_eq
                    | rewrite lookup_insert_ne by lia]; simpl).
      rewrite !remove_add. by eexists.
  - split.
    + repeat (first [rewrite lookup_delete_eq | rewrite lookup_insert_eq
                    | rewrite lookup_insert_ne by lia]; simpl).
      by eexists.
    + repeat (first [rewrite lookup_delete_eq | rewrite lookup_insert_eq
                    | rewrite lookup_insert_ne by lia]; simpl).
      rewrite !remove_add. by eexists.
Qed.

Lemma unsubscribe_acts_witness :
  (∃ st,
     (u <- events.on "ping" (events.listener 1) ;;
      events.off "ping" None ;;;
      events.on "ping" (events.listener 1) ;;;
      events.unsubscribe u ;;;
      events.listenerCount "ping") events.twoListeners
     = (Ok 1, st))
  ∧ (∃ st,
       (u <- events.on "ping" (events.listener 1) ;;
        events.on "ping" (events.listener 1) ;;;
        events.unsubscribe u ;;;
        events.listenerCount "ping") events.twoListeners
       = (Ok 1, st)).
Proof.
  apply (unsubscribe_acts_on_the_set_it_was_made_for
           "ping" (events.listener 1) events.twoListeners).
  intros event ref Hev.
  destruct (decide (event = "ping")) as [->|Hne].
  - vm_compute in Hev. injection Hev as <-. vm_compute. lia.
  - assert (events.handlers (events.emitter events.twoListeners)
            = <["ping" := 0]> ∅) as Heq by (vm_compute; reflexivity).
    rewrite Heq, lookup_insert_ne, lookup_empty in Hev by done.
    discriminate Hev.
Defined.

(* ===================================================================== *)
(** ** The users of the registry *)

Section KeepsUsers.
Context {S : Type}.
Implicit Type w : World S.

#[global] Instance keepsUsers_preorder : PreOrder (keepsUsers (S:=S)).
Proof.
  split; unfold keepsUsers; [by intros w|].
  intros w1 w2 w3 H12 H23 u Hu. by apply H23, H12.
Qed.

Lemma keepsUsers_same {A} (m : M (World S) A) :
  Steps (same userConnections) m → Steps keepsUsers m.
Proof.
  apply Steps_weaken. intros w w' Hsame u Hu.
  unfold same in Hsame. by rewrite Hsame.
Qed.

Lemma keepsUsers_Stable : Stable (keepsUsers (S:=S)).
Proof.
  split.
  - split; intros w x u Hu; exact Hu.
  - intros w x _ u Hu. exact Hu.
  - intros ws u r n w u' Hu. exact Hu.
  - intros ws h w u Hu. exact Hu.
  - intros h w u Hu. exact Hu.
  - intros t w u Hu. exact Hu.
  - intros cid r w u Hu. exact Hu.
  - intros cid r w u Hu. revert Hu. unfold ConnectionManager.leaveRoom.
    simpl. by repeat case_match.
  - intros u cid w u' Hu. simpl.
    destruct (decide (u = u')) as [->|Hne].
    + rewrite lookup_insert_eq. by eexists.
    + by rewrite lookup_insert_ne.
  - intros c w u Hu. exact Hu.
Qed.

Lemma keepsUsers_validateRateLimit env ws :
  Steps keepsUsers (ConnectionManager.validateRateLimit (S:=S) env ws).
Proof.
  apply keepsUsers_same.
  assert (Blind (userConnections (S:=S))) as HB by by split.
  unfold ConnectionManager.validateRateLimit, ConnectionManager.getState,
    ConnectionManager.setState, ConnectionManager.sendError.
  steps; try reflexivity; auto with blind.
Qed.
End KeepsUsers.

(** X25.  No entry of [userConnections] is ever removed: whatever tasks
    the server runs, the closing of the user's connection among them, a
    user that has an entry keeps one.  [removeConnection] deletes the
    connection from [connections] and leaves [userConnections] alone. *)
Theorem userConnections_is_never_cleaned
    {S} (adapter : Z → UnitOfWork S) (tasks : list (Env * Task))
    (w : World S) (u : string) :
  is_Some (userConnections w !! u) →
  is_Some (userConnections (execAll adapter tasks w) !! u).
Proof.
  revert w. induction tasks as [|[env task] rest IH]; intros w Hu; [done|].
  simpl. apply IH.
  apply (Stable_runTask keepsUsers keepsUsers_Stable adapter env task
           (λ ws, keepsUsers_validateRateLimit env ws) w u Hu).
Qed.

Lemma userConnections_is_never_cleaned_witness :
  is_Some (userConnections
             (execAll sqliteServer
                [(mkEnv 9000 "", ws_close "c1"); (mkEnv 9500 "", ws_close "c2")]
                twoInGeneral) !! "u-alice").
Proof.
  apply (userConnections_is_never_cleaned sqliteServer
           [(mkEnv 9000 "", ws_close "c1"); (mkEnv 9500 "", ws_close "c2")]
           twoInGeneral "u-alice").
  eexists. vm_compute. reflexivity.
Defined.

(* ===================================================================== *)
(** ** LEAVE_ROOM on the SQLite server *)

Section SqliteLeave.
Implicit Type w : World sqlite.Database.

(** The leave-room use case on a writable store that holds the room, with
    the store it leaves. *)
Lemma leaveRoom_sqlite_store t r u w :
  sqlite.locked (store w) = false →
  hasRoom r (store w) →
  useCases.leaveRoom (liftUow (sqliteServer t))
    (ConnectionManager.emit (sqliteServer t)) r u w
  = (Ok (success tt),
     set_emitted (emitted w ++ [room_user_left r u])
       (set_store
          (sqlite.user_updateLastSeen t u
             (sqlite.user_updateStatus t u offline
                (sqlite.room_removeParticipant r u (store w)).2).2).2
          w)).
Proof.
  intros Hunlocked Hroom.
  destruct (room_findById_hasRoom r (store w) Hroom) as [room Hfind].
  set (db1 := (sqlite.room_removeParticipant r u (store w)).2).
  set (db2 := (sqlite.user_updateStatus t u offline db1).2).
  set (db3 := (sqlite.user_updateLastSeen t u db2).2).
  assert (sqlite.room_removeParticipant r u (store w) = (Ok tt, db1)
          ∧ sqlite.locked db1 = false) as [E1 Hu1].
  { subst db1. unfold sqlite.room_removeParticipant, sqlite.write.
    by rewrite Hunlocked. }
  assert (sqlite.user_updateStatus t u offline db1 = (Ok tt, db2)
          ∧ sqlite.locked db2 = false) as [E2 Hu2].
  { subst db2. unfold sqlite.user_updateStatus, sqlite.write.
    by rewrite Hu1. }
  assert (sqlite.user_updateLastSeen t u db2 = (Ok tt, db3)) as E3.
  { subst db3. unfold sqlite.user_updateLastSeen, sqlite.write.
    by rewrite Hu2. }
  unfold useCases.leaveRoom.
  rewrite (bind_Ok _ _ _ _ _ (lift_read (sqlite.room_findById r) w _ Hfind)).
  rewrite (bind_Ok _ _ _ _ _
             (lift_Ok (sqlite.room_removeParticipant r u) w _ _ E1)).
  rewrite (bind_Ok _ _ _ _ _
             (lift_Ok (sqlite.user_updateStatus t u offline)
                (set_store db1 w) _ _ E2)).
  rewrite (bind_Ok _ _ _ _ _
             (lift_Ok (sqlite.user_updateLastSeen t u)
                (set_store db2 (set_store db1 w)) _ _ E3)).
  done.
Qed.

(** A broadcast to everyone, made once [cid] is out of the subscriber set,
    reaches whom a broadcast that excludes [cid] reached before. *)
Lemma recipients_set_delete cid r w w' :
  subscribers w' r = set_delete cid (subscribers w r) →
  connections w' = connections w →
  broken w' = broken w →
  recipients w' r None = recipients w r (Some cid).
Proof.
  intros Hsubs Hconn Hbroken. unfold recipients.
  rewrite Hsubs, Hconn, Hbroken. unfold set_delete. clear Hsubs.
  induction (subscribers w r) as [|x l IH]; [done|].
  destruct (decide (x = cid)) as [->|Hne].
  - rewrite filter_cons_False by (intros H; by apply H).
    cbn [omap list_omap]. rewrite decide_True by done. exact IH.
  - rewrite filter_cons_True by done. cbn [omap list_omap].
    destruct (decide (Some x = Some cid)) as [[= E]|_]; [done|].
    destruct (decide (Some x = None)) as [E|_]; [done|].
    by rewrite IH.
Qed.

Lemma subscribers_leaveRoom cid r w :
  subscribers (ConnectionManager.leaveRoom cid r w).2 r
  = set_delete cid (subscribers w r).
Proof.
  unfold ConnectionManager.leaveRoom, modify, subscribers. cbn [snd].
  destruct (roomSubscriptions w !! r) as [subs|] eqn:Esubs.
  - case_decide as Hempty; cbn [roomSubscriptions set_roomSubscriptions].
    + rewrite lookup_delete_eq. simpl.
      apply nil_length_inv in Hempty. by rewrite Hempty.
    + by rewrite lookup_insert_eq.
  - by rewrite Esubs.
Qed.
(** LEAVE_ROOM from a connection that has joined, on a writable store that
    holds the room. *)
Lemma leave_from_a_joined_session env cid ws uid r w :
  sqlite.locked (store w) = false →
  connections w !! cid = Some ws →
  userId (stateOf w ws) = Some uid →
  uid ≠ "" →
  truthy (roomId (stateOf w ws)) = true →
  hasRoom r (store w) →
  ConnectionManager.handleMessage (sqliteServer (now env)) env cid
    (Valid (LEAVE_ROOM r)) w
  = ConnectionManager.broadcastToRoom r (USER_LEFT (Some uid) r) None
      (ConnectionManager.leaveRoom cid r
         (set_emitted (emitted w ++ [room_user_left r uid])
            (set_store
               (sqlite.user_updateLastSeen (now env) uid
                  (sqlite.user_updateStatus (now env) uid offline
                     (sqlite.room_removeParticipant r uid (store w)).2).2).2
               w))).2.
Proof.
  intros Hunlocked Hconn Huid Hne Hjoined Hroom.
  assert (truthy (userId (stateOf w ws)) = true) as Htruthy.
  { rewrite Huid. simpl. apply negb_true_iff, String.eqb_neq. done. }
  rewrite (handleMessage_routes _ _ ws) by done.
  cbn [ConnectionManager.routeEvent].
  unfold ConnectionManager.handleLeaveRoom. rewrite bind_getState.
  rewrite Htruthy, Hjoined. cbn [negb orb].
  rewrite (bind_Ok _ _ _ _ _
             (leaveRoom_sqlite_store (now env) r
                (ConnectionManager.asString (userId (stateOf w ws))) w
                Hunlocked Hroom)).
  rewrite Huid. reflexivity.
Qed.
End SqliteLeave.

(** X26.  LEAVE_ROOM acts on the room that the frame names, which need not
    be the room of the session.  From a connection that has joined some
    room, on a writable store that holds the room named: the handler
    returns; the user is no participant of the room named any more and is
    stored as offline, although the connection stays open; "room:user-left"
    is emitted; the connection is taken out of the subscribers of the room
    named; and USER_LEFT goes to the writable sockets of the other
    subscribers of that room, whether or not the user was ever in it.  The
    sessions are not touched. *)
Theorem leave_acts_on_the_room_the_frame_names
    (env : Env) (cid : string) (ws : nat) (uid r : string)
    (w : World sqlite.Database) :
  sqlite.locked (store w) = false →
  connections w !! cid = Some ws →
  userId (stateOf w ws) = Some uid →
  uid ≠ "" →
  truthy (roomId (stateOf w ws)) = true →
  hasRoom r (store w) →
  let out :=
    runTask sqliteServer env (ws_message cid (Valid (LEAVE_ROOM r))) w in
  out.1 = Ok tt
  ∧ (∃ before,
       sqlite.room_getParticipants r (store w) = (Ok before, store w)
       ∧ (sqlite.room_getParticipants r (store out.2)).1
         = Ok (filter (λ u, u ≠ uid) before))
  ∧ (∀ u, sqlite.user_findById uid (store w) = (Ok (Some u), store w) →
          (sqlite.user_findById uid (store out.2)).1
          = Ok (Some (UserFactory.updateStatus u offline)))
  ∧ emitted out.2 = emitted w ++ [room_user_left r uid]
  ∧ subscribers out.2 r = set_delete cid (subscribers w r)
  ∧ sent out.2
    = sent w ++ ((λ x, (x, USER_LEFT (Some uid) r)) <$>
                   recipients w r (Some cid))
  ∧ heap out.2 = heap w
  ∧ connections out.2 = connections w.
Proof.
  intros Hunlocked Hconn Huid Hne Hjoined Hroom out.
  subst out. cbn [runTask].
  rewrite (leave_from_a_joined_session env cid ws uid r w) by done.
  set (db' := (sqlite.user_updateLastSeen _ _ _).2).
  set (w1 := set_emitted _ (set_store db' w)).
  pose proof (subscribers_leaveRoom cid r w1) as Hsubs.
  remember (ConnectionManager.leaveRoom cid r w1).2 as w2 eqn:Hw2.
  assert (heap w2 = heap w ∧ connections w2 = connections w
          ∧ broken w2 = broken w ∧ sent w2 = sent w
          ∧ emitted w2 = emitted w ++ [room_user_left r uid]
          ∧ store w2 = db') as (Hheap & Hconns & Hbroken & Hsent
                                & Hemitted & Hstore).
  { rewrite Hw2. unfold ConnectionManager.leaveRoom, modify. cbn [snd].
    by repeat case_match. }
  rewrite broadcastToRoom_eq. cbn [fst snd].
  cbn [store set_console set_sent sent emitted heap connections].
  change (subscribers (set_console _ (set_sent _ w2)) r)
    with (subscribers w2 r).
  assert (sqlite.locked (sqlite.room_removeParticipant r uid (store w)).2
          = false) as Hu1.
  { unfold sqlite.room_removeParticipant, sqlite.write.
    by rewrite Hunlocked. }
  split; [done|]. split; [|split; [|split; [|split; [|split]]]].
  - eexists. split; [apply getParticipants_rows|].
    rewrite Hstore. subst db'. rewrite getParticipants_rows. cbn [fst].
    f_equal.
    unfold sqlite.user_updateLastSeen, sqlite.user_updateStatus,
      sqlite.room_removeParticipant, sqlite.write.
    repeat (rewrite Hunlocked; cbn [snd sqlite.locked]).
    cbn [snd sqlite.t_room_participants].
    apply getParticipants_without.
  - intros u Hfind. rewrite Hstore. subst db'.
    unfold sqlite.user_findById, gets in Hfind |- *.
    injection Hfind as Hhead.
    unfold sqlite.user_updateLastSeen, sqlite.user_updateStatus,
      sqlite.room_removeParticipant, sqlite.write.
    repeat (rewrite Hunlocked; cbn [snd sqlite.locked]).
    cbn [fst snd sqlite.t_users].
    rewrite !filter_fmap_comm by (intros row; simpl; by case_decide).
    rewrite !head_fmap.
    destruct (head (filter _ (sqlite.t_users (store w)))) as [row|] eqn:Hrow;
      [|done].
    apply head_Some_elem_of, list_elem_of_filter in Hrow as [Hid _].
    injection Hhead as <-. simpl.
    destruct (decide (sqlite.UserRow.id row = uid)) as [_|Hno]; [|done].
    simpl. by rewrite decide_True by done.
  - by rewrite Hemitted.
  - exact Hsubs.
  - rewrite Hsent. f_equal. f_equal.
    by apply recipients_set_delete.
  - done.
Qed.

Lemma leave_acts_on_the_room_witness :
  let out :=
    runTask sqliteServer (mkEnv 7000 "")
      (ws_message "c1" (Valid (LEAVE_ROOM "random"))) typingElsewhere in
  out.1 = Ok tt
  ∧ (∃ before,
       sqlite.room_getParticipants "random" (store typingElsewhere)
       = (Ok before, store typingElsewhere)
       ∧ (sqlite.room_getParticipants "random" (store out.2)).1
         = Ok (filter (λ u, u ≠ "u-alice") before))
  ∧ (∀ u, sqlite.user_findById "u-alice" (store typingElsewhere)
          = (Ok (Some u), store typingElsewhere) →
          (sqlite.user_findById "u-alice" (store out.2)).1
          = Ok (Some (UserFactory.updateStatus u offline)))
  ∧ emitted out.2
    = emitted typingElsewhere ++ [room_user_left "random" "u-alice"]
  ∧ subscribers out.2 "random"
    = set_delete "c1" (subscribers typingElsewhere "random")
  ∧ sent out.2
    = sent typingElsewhere
      ++ ((λ x, (x, USER_LEFT (Some "u-alice") "random")) <$>
            recipients typingElsewhere "random" (Some "c1"))
  ∧ heap out.2 = heap typingElsewhere
  ∧ connections out.2 = connections typingElsewhere.
Proof.
  apply (leave_acts_on_the_room_the_frame_names (mkEnv 7000 "") "c1" 1
           "u-alice" "random" typingElsewhere).
  - vm_compute. reflexivity.
  - vm_compute. reflexivity.
  - vm_compute. reflexivity.
  - discriminate.
  - vm_compute. reflexivity.
  - vm_compute. apply Exists_cons_tl, Exists_cons_hd. reflexivity.
Defined.

(** alice is in "general" and carol in "random": alice's LEAVE_ROOM for
    "random" tells carol that alice left, and stores alice as offline. *)
Lemma leave_of_a_room_never_joined :
  let out :=
    runTask sqliteServer (mkEnv 7000 "")
      (ws_message "c1" (Valid (LEAVE_ROOM "random"))) typingElsewhere in
  roomId (stateOf typingElsewhere 1) = Some "general"
  ∧ drop (length (sent typingElsewhere)) (sent out.2)
    = [(3, USER_LEFT (Some "u-alice") "random")]
  ∧ (User.status <$>
       default None (match (sqlite.user_findById "u-alice" (store out.2)).1
                     with Ok u => Some u | Throw _ => None end))
    = Some offline.
Proof. vm_compute. repeat split; reflexivity. Qed.

(* ===================================================================== *)
(** ** JOIN_ROOM on the SQLite server *)

Section LiftedReads.
Context {S : Type}.
Implicit Type w : World S.







End LiftedReads.

Section SqliteJoin.
Import sqlite.
#[local] Existing Instance user_id_asc_dec.
#[local] Existing Instance id_asc_dec.
Implicit Type w : World Database.
Implicit Type db : Database.






End SqliteJoin.

Section SqliteJoinHandler.
Implicit Type w : World sqlite.Database.


End SqliteJoinHandler.



(** carol joins "general", where alice and bob are: alice and bob are told,
    carol is not. *)
Lemma join_tells_the_others :
  let out :=
    runTask sqliteServer (mkEnv 5000 "u-carol")
      (ws_message "c3" (Valid (JOIN_ROOM "general" "carol"))) withNewcomer in
  fst <$> drop (length (sent withNewcomer)) (sent out.2) = [3; 3; 1; 2].
Proof. vm_compute. reflexivity. Qed.

(* ===================================================================== *)
(** ** UPDATE_STATUS on the SQLite server *)

Section SqliteStatus.
Import sqlite.
#[local] Existing Instance name_asc_dec.
#[local] Existing Instance user_id_asc_dec.
Implicit Type w : World Database.
Implicit Type db : Database.

(** [findAll] reads the rooms in the order of their names, each with the
    set of its participants. *)
Lemma room_findAll_reads db :
  room_findAll db
  = (Ok ((λ row, roomRowToEntity row
            (foldl (λ acc x, set_add x acc) []
               (RoomParticipantRow.user_id <$>
                  order_by user_id_asc
                    (filter (λ r0, RoomParticipantRow.room_id r0
                                   = RoomRow.id row)
                            (t_room_participants db)))))
           <$> order_by name_asc (t_rooms db)),
     db).
Proof.
  unfold room_findAll. erewrite bind_Ok by reflexivity.
  apply (mapM_reads _ (λ row, roomRowToEntity row _)).
  apply Forall_forall. intros row _. reflexivity.
Qed.

Lemma elem_of_set_add x y (s : JsSet) : x ∈ set_add y s ↔ x = y ∨ x ∈ s.
Proof.
  unfold set_add, set_has. case_bool_decide as Hy.
  - split; [by right|]. by intros [->|?].
  - rewrite elem_of_app, list_elem_of_singleton. tauto.
Qed.

Lemma elem_of_foldl_set_add x (l : list string) : ∀ acc : JsSet,
  x ∈ foldl (λ acc y, set_add y acc) acc l ↔ x ∈ acc ∨ x ∈ l.
Proof.
  induction l as [|y l IH]; intros acc; simpl.
  - rewrite elem_of_nil. tauto.
  - rewrite IH, elem_of_set_add, elem_of_cons. tauto.
Qed.

(** The set of participants that [findAll] gives a room holds the users
    that the table of participants lists for it. *)
Lemma findAll_participants db rs room u :
  room_findAll db = (Ok rs, db) →
  room ∈ rs →
  u ∈ Room.participants room ↔ isParticipant (Room.id room) u db.
Proof.
  rewrite room_findAll_reads. intros [= <-].
  intros (row & -> & _)%list_elem_of_fmap. simpl.
  rewrite elem_of_foldl_set_add, elem_of_nil, list_elem_of_fmap.
  unfold isParticipant. rewrite Exists_exists. split.
  - intros [[]|(p & -> & Hp)]. apply elem_of_order_by in Hp.
    apply list_elem_of_filter in Hp as [Hr Hp]. eauto.
  - intros (p & Hp & Hr & <-). right. exists p. split; [done|].
    apply elem_of_order_by. by apply list_elem_of_filter.
Qed.

(** The same frame broadcast to one room after the other. *)
Lemma broadcast_to_rooms ev (rooms : list string) : ∀ w,
  forM_ rooms (λ roomId, ConnectionManager.broadcastToRoom roomId ev None) w
  = (Ok tt,
     set_console
       (console w ++
          (rooms ≫= λ roomId,
             (λ _, "Failed to send message: socket is not writable") <$>
               unreachable w roomId None))
       (set_sent
          (sent w ++
             (rooms ≫= λ roomId,
                (λ ws, (ws, ev)) <$> recipients w roomId None))
          w)).
Proof.
  induction rooms as [|room rooms IH]; intros w.
  - simpl. rewrite !app_nil_r. by rewrite set_sent_console_id.
  - cbn [forM_]. rewrite (bind_Ok _ _ _ _ _ (broadcastToRoom_eq room ev None w)).
    rewrite IH. cbn [mbind list_bind]. simpl.
    by rewrite <- !app_assoc.
Qed.

(** UPDATE_STATUS from a connection with a stored user, on a writable
    store. *)
Lemma status_of_a_stored_user env cid ws uid status w :
  locked (store w) = false →
  connections w !! cid = Some ws →
  userId (stateOf w ws) = Some uid →
  uid ≠ "" →
  hasUser uid (store w) →
  ∃ rs,
    room_findAll (store w) = (Ok rs, store w)
    ∧ ConnectionManager.handleMessage (sqliteServer (now env)) env cid
        (Valid (UPDATE_STATUS status)) w
      = let w1 :=
          set_emitted (emitted w ++ [user_status_changed uid status])
            (set_store (user_updateStatus (now env) uid status (store w)).2
                       w) in
        let rooms :=
          Room.id <$> filter (λ room, uid ∈ Room.participants room) rs in
        (Ok tt,
         set_console
           (console w ++
              (rooms ≫= λ roomId,
                 (λ _, "Failed to send message: socket is not writable") <$>
                   unreachable w roomId None))
           (set_sent
              (sent w ++
                 (rooms ≫= λ roomId,
                    (λ x, (x, USER_STATUS_CHANGED uid status)) <$>
                      recipients w roomId None))
              w1)).
Proof.
  intros Hunlocked Hconn Huid Hne Huser.
  assert (truthy (userId (stateOf w ws)) = true) as Htruthy.
  { rewrite Huid. simpl. apply negb_true_iff, String.eqb_neq. done. }
  destruct (user_findById_hasUser uid (store w) Huser)
    as (user & Hfind & _).
  set (db' := (user_updateStatus (now env) uid status (store w)).2).
  assert (user_updateStatus (now env) uid status (store w) = (Ok tt, db'))
    as Hupdate.
  { subst db'. unfold user_updateStatus, write. by rewrite Hunlocked. }
  assert (t_rooms db' = t_rooms (store w)
          ∧ t_room_participants db' = t_room_participants (store w))
    as [Hrooms Hparts].
  { subst db'. unfold user_updateStatus, write. by rewrite Hunlocked. }
  eexists. split; [apply room_findAll_reads|].
  rewrite (handleMessage_routes _ _ ws) by done.
  cbn [ConnectionManager.routeEvent].
  unfold ConnectionManager.handleUpdateStatus. rewrite bind_getState.
  rewrite Htruthy. cbn [negb]. rewrite Huid.
  cbn [ConnectionManager.asString default].
  erewrite bind_Ok; [reflexivity|].
  unfold useCases.updateUserStatus.
  rewrite (bind_Ok _ _ _ _ _ (lift_read (user_findById uid) w _ Hfind)).
  rewrite (bind_Ok _ _ _ _ _
             (lift_Ok (user_updateStatus (now env) uid status) w _ _
                Hupdate)).
  erewrite bind_Ok; [reflexivity|].
  unfold ConnectionManager.emit. rewrite bind_modify. cbv beta.
  unfold try_catch, ConnectionManager.getRoomsForUser.
  erewrite bind_Ok.
  2:{ erewrite bind_Ok; [reflexivity|].
      apply (lift_read room_findAll). apply room_findAll_reads. }
  rewrite broadcast_to_rooms.
  cbn [store set_emitted set_store]. rewrite Hrooms, Hparts.
  reflexivity.
Qed.
End SqliteStatus.

(** X28.  A change of status is announced room by room.  From a connection
    whose user is stored, on a writable store: the handler returns; the
    user is stored with the new status; "user:status-changed" is emitted;
    and USER_STATUS_CHANGED goes, for each room that lists the user as a
    participant in the store (the rooms taken in the order of their names),
    to the writable sockets of all subscribers of that room, the sender's
    among them.  The room of the session plays no part, and the registry
    does not change. *)
Theorem status_change_goes_to_the_rooms_of_the_user
    (env : Env) (cid : string) (ws : nat) (uid : string)
    (status : UserStatus) (w : World sqlite.Database) :
  sqlite.locked (store w) = false →
  connections w !! cid = Some ws →
  userId (stateOf w ws) = Some uid →
  uid ≠ "" →
  hasUser uid (store w) →
  let out :=
    runTask sqliteServer env (ws_message cid (Valid (UPDATE_STATUS status)))
      w in
  out.1 = Ok tt
  ∧ (∀ u, sqlite.user_findById uid (store w) = (Ok (Some u), store w) →
          (sqlite.user_findById uid (store out.2)).1
          = Ok (Some (UserFactory.updateStatus u status)))
  ∧ emitted out.2 = emitted w ++ [user_status_changed uid status]
  ∧ registry out.2 = registry w
  ∧ ∃ rs,
      sqlite.room_findAll (store w) = (Ok rs, store w)
      ∧ (∀ room, room ∈ rs →
           uid ∈ Room.participants room
           ↔ isParticipant (Room.id room) uid (store w))
      ∧ sent out.2
        = sent w ++
          ((Room.id <$> filter (λ room, uid ∈ Room.participants room) rs)
             ≫= λ roomId,
                  (λ x, (x, USER_STATUS_CHANGED uid status)) <$>
                    recipients w roomId None).
Proof.
  intros Hunlocked Hconn Huid Hne Huser out.
  destruct (status_of_a_stored_user env cid ws uid status w
              Hunlocked Hconn Huid Hne Huser) as (rs & Hrs & Hrun).
  subst out. cbn [runTask]. rewrite Hrun. cbv zeta. cbn [fst snd].
  split; [done|]. split; [|split; [done|split; [done|]]].
  - intros u Hfind. cbn [store set_console set_sent set_emitted set_store].
    unfold sqlite.user_findById, gets in Hfind |- *.
    injection Hfind as Hhead.
    unfold sqlite.user_updateStatus, sqlite.write. rewrite Hunlocked.
    cbn [fst snd sqlite.t_users].
    rewrite filter_fmap_comm by (intros row; simpl; by case_decide).
    rewrite head_fmap.
    destruct (head (filter _ (sqlite.t_users (store w)))) as [row|] eqn:Hrow;
      [|done].
    apply head_Some_elem_of, list_elem_of_filter in Hrow as [Hid _].
    injection Hhead as <-. simpl. by rewrite decide_True by done.
  - exists rs. split; [done|]. split; [|done].
    intros room Hroom. by apply (findAll_participants _ rs).
Qed.

Lemma status_change_witness :
  let out :=
    runTask sqliteServer (mkEnv 7000 "")
      (ws_message "c1" (Valid (UPDATE_STATUS away))) joinedTwice in
  out.1 = Ok tt
  ∧ (∀ u, sqlite.user_findById "u-alice" (store joinedTwice)
          = (Ok (Some u), store joinedTwice) →
          (sqlite.user_findById "u-alice" (store out.2)).1
          = Ok (Some (UserFactory.updateStatus u away)))
  ∧ emitted out.2
    = emitted joinedTwice ++ [user_status_changed "u-alice" away]
  ∧ registry out.2 = registry joinedTwice
  ∧ ∃ rs,
      sqlite.room_findAll (store joinedTwice) = (Ok rs, store joinedTwice)
      ∧ (∀ room, room ∈ rs →
           "u-alice" ∈ Room.participants room
           ↔ isParticipant (Room.id room) "u-alice" (store joinedTwice))
      ∧ sent out.2
        = sent joinedTwice ++
          ((Room.id <$>
              filter (λ room, "u-alice" ∈ Room.participants room) rs)
             ≫= λ roomId,
                  (λ x, (x, USER_STATUS_CHANGED "u-alice" away)) <$>
                    recipients joinedTwice roomId None).
Proof.
  apply (status_change_goes_to_the_rooms_of_the_user (mkEnv 7000 "") "c1" 1
           "u-alice" away joinedTwice).
  - vm_compute. reflexivity.
  - vm_compute. reflexivity.
  - vm_compute. reflexivity.
  - discriminate.
  - vm_compute. apply Exists_cons_hd. reflexivity.
Defined.

(** alice joined "general" and then "random" on one connection: her change
    of status reaches her socket twice, once for each room. *)
Lemma status_change_told_twice :
  let out :=
    runTask sqliteServer (mkEnv 7000 "")
      (ws_message "c1" (Valid (UPDATE_STATUS away))) joinedTwice in
  drop (length (sent joinedTwice)) (sent out.2)
  = [(1, USER_STATUS_CHANGED "u-alice" away);
     (1, USER_STATUS_CHANGED "u-alice" away)].
Proof. vm_compute. reflexivity. Qed.

(* ===================================================================== *)
(** * The schema of the content of a message *)

Section Trim.
Import validation.

Lemma trimStart_split (s : list N) :
  ∃ ws, s = ws ++ trimStart s ∧ Forall (λ c, isWhiteSpace c = true) ws.
Proof.
  induction s as [|c s (ws & IH & Hws)]; [by exists []|].
  simpl. destruct (isWhiteSpace c) eqn:Hc.
  - exists (c :: ws). split; [by rewrite <- app_comm_cons, <- IH|].
    by constructor.
  - by exists [].
Qed.

Lemma trimStart_head (s : list N) c :
  head (trimStart s) = Some c → isWhiteSpace c = false.
Proof.
  induction s as [|x s IH]; [done|]. simpl.
  destruct (isWhiteSpace x) eqn:Hx; [done|]. by intros [= <-].
Qed.

Lemma trimStart_blank (s : list N) :
  Forall (λ c, isWhiteSpace c = true) s → trimStart s = [].
Proof. induction 1 as [|c s Hc _ IH]; [done|]. simpl. by rewrite Hc. Qed.

Lemma trimEnd_split (s : list N) :
  ∃ ws, s = trimEnd s ++ ws ∧ Forall (λ c, isWhiteSpace c = true) ws.
Proof.
  destruct (trimStart_split (reverse s)) as (ws & Hs & Hws).
  exists (reverse ws). split.
  - unfold trimEnd. rewrite <- reverse_app, <- Hs. by rewrite reverse_involutive.
  - by apply Forall_reverse.
Qed.

Lemma trim_length (s : list N) : length (trim s) ≤ length s.
Proof.
  unfold trim.
  destruct (trimStart_split s) as (ws1 & H1 & _).
  destruct (trimEnd_split (trimStart s)) as (ws2 & H2 & _).
  rewrite H1 at 2. rewrite H2 at 2. rewrite !length_app. lia.
Qed.

Lemma trim_head (s : list N) c :
  head (trim s) = Some c → isWhiteSpace c = false.
Proof.
  unfold trim. intros Hc. apply (trimStart_head s).
  destruct (trimEnd_split (trimStart s)) as (ws & Hs & _).
  rewrite Hs. by destruct (trimEnd (trimStart s)).
Qed.

Lemma trim_last (s : list N) c :
  last (trim s) = Some c → isWhiteSpace c = false.
Proof.
  unfold trim, trimEnd. rewrite last_reverse. apply trimStart_head.
Qed.
End Trim.

(** X29.  The schema of a message's content checks the length of the
    string as given and trims afterwards.  A string of 1 to 2000 code units
    is accepted, and the content that comes out is the string without the
    white space at its ends: it is no longer than the string and neither
    starts nor ends with white space.  It can be empty: a string of white
    space only is accepted as the empty message. *)
Theorem MessageContentSchema_checks_the_length_before_it_trims
    (input : list N) :
  1 ≤ length input ≤ 2000 →
  ∃ content,
    validation.MessageContentSchema input = validation.parsed content
    ∧ length content ≤ length input
    ∧ (∀ c, head content = Some c → validation.isWhiteSpace c = false)
    ∧ (∀ c, last content = Some c → validation.isWhiteSpace c = false)
    ∧ (∃ before after,
         input = before ++ content ++ after
         ∧ Forall (λ c, validation.isWhiteSpace c = true) before
         ∧ Forall (λ c, validation.isWhiteSpace c = true) after)
    ∧ (Forall (λ c, validation.isWhiteSpace c = true) input →
       content = []).
Proof.
  intros Hlen. exists (validation.trim input).
  split; [|split; [apply trim_length|split; [apply trim_head|
    split; [apply trim_last|split]]]].
  - unfold validation.MessageContentSchema, CONSTANTS.MAX_MESSAGE_LENGTH.
    rewrite (proj2 (Z.ltb_ge _ _)) by lia.
    by rewrite (proj2 (Z.ltb_ge _ _)) by lia.
  - destruct (trimStart_split input) as (ws1 & H1 & Hws1).
    destruct (trimEnd_split (validation.trimStart input))
      as (ws2 & H2 & Hws2).
    exists ws1, ws2. split; [|done].
    unfold validation.trim. by rewrite <- H2.
  - intros Hblank. unfold validation.trim.
    by rewrite trimStart_blank.
Qed.

Lemma MessageContentSchema_witness :
  ∃ content,
    validation.MessageContentSchema [32; 9; 32]%N = validation.parsed content
    ∧ length content ≤ length [32; 9; 32]%N
    ∧ (∀ c, head content = Some c → validation.isWhiteSpace c = false)
    ∧ (∀ c, last content = Some c → validation.isWhiteSpace c = false)
    ∧ (∃ before after,
         [32; 9; 32]%N = before ++ content ++ after
         ∧ Forall (λ c, validation.isWhiteSpace c = true) before
         ∧ Forall (λ c, validation.isWhiteSpace c = true) after)
    ∧ (Forall (λ c, validation.isWhiteSpace c = true) [32; 9; 32]%N →
       content = []).
Proof.
  apply (MessageContentSchema_checks_the_length_before_it_trims
           [32; 9; 32]%N).
  simpl. lia.
Defined.

(** Three blanks are a valid message, the empty one; the empty string is
    not; " hi " is the message "hi". *)
Lemma MessageContentSchema_examples :
  validation.MessageContentSchema [32; 9; 32]%N = validation.parsed []
  ∧ validation.MessageContentSchema []
    = validation.rejected ["Message cannot be empty"]
  ∧ validation.MessageContentSchema [32; 104; 105; 32]%N
    = validation.parsed [104; 105]%N.
Proof. vm_compute. repeat split; reflexivity. Qed.

(* ===================================================================== *)
(** ** A page of the history before a given time *)

(** X30.  With a bound, [findByRoom] pages strictly before it: the rows
    returned are [limit] of the undeleted messages of the room that were
    created before [before] (all of them when there are fewer), in
    chronological order, and they are the newest of those.  A message
    created at [before] itself is never returned.  The store is not
    changed. *)
Theorem findByRoom_before_is_exclusive
    (roomId : string) (limit : nat) (before : Z) (db : sqlite.Database) :
  ∃ page older,
    roomHistory.findByRoom roomId limit (Some before) db
    = (Ok (sqlite.messageRowToEntity <$> page), db)
    ∧ length page
      = Nat.min limit
          (length (filter (λ r, (sqlite.MessageRow.created_at r < before)%Z)
                          (liveRows roomId db)))
    ∧ page ++ older
      ≡ₚ filter (λ r, (sqlite.MessageRow.created_at r < before)%Z)
                (liveRows roomId db)
    ∧ StronglySorted
        (λ a b, (sqlite.MessageRow.created_at a
                 ≤ sqlite.MessageRow.created_at b)%Z) page
    ∧ (∀ o p, o ∈ older → p ∈ page →
         (sqlite.MessageRow.created_at o ≤ sqlite.MessageRow.created_at p)%Z)
    ∧ (∀ p, p ∈ page →
         p ∈ liveRows roomId db
         ∧ (sqlite.MessageRow.created_at p < before)%Z).
Proof.
  set (candidates :=
         filter (λ r, (sqlite.MessageRow.created_at r < before)%Z)
                (liveRows roomId db)).
  set (sorted := @sqlite.order_by _ sqlite.created_at_desc
                   sqlite.created_at_desc_dec candidates).
  exists (reverse (take limit sorted)), (drop limit sorted).
  assert (StronglySorted sqlite.created_at_desc sorted) as Hsorted
    by (apply (@order_by_StronglySorted _ _ _ created_at_desc_trans
               created_at_desc_total)).
  assert (sorted ≡ₚ candidates) as Hperm by apply order_by_Permutation.
  assert (reverse (take limit sorted) ++ drop limit sorted ≡ₚ candidates)
    as Hall by by rewrite reverse_Permutation, take_drop.
  split; [|split; [|split; [done|split; [|split]]]].
  - unfold roomHistory.findByRoom, gets. by rewrite fmap_reverse.
  - by rewrite length_reverse, length_take, Hperm.
  - apply (@Sorted_StronglySorted _ (flip sqlite.created_at_desc)
             created_at_asc_trans).
    apply Sorted_reverse, StronglySorted_Sorted.
    rewrite <- (take_drop limit sorted) in Hsorted.
    by apply StronglySorted_app_1_l in Hsorted.
  - intros o p Ho Hp. rewrite elem_of_reverse in Hp.
    rewrite <- (take_drop limit sorted) in Hsorted.
    exact (StronglySorted_app_1_elem_of _ _ _ p o Hsorted Hp Ho).
  - intros p Hp.
    assert (p ∈ candidates) as Hc.
    { rewrite <- Hall. apply elem_of_app. by left. }
    subst candidates. apply list_elem_of_filter in Hc as [Hlt Hin]. done.
Qed.

(** In [withReply] "m1" was written at 5000 and "m2" at 6000: the page
    before 6000 holds "m1" only, and the page before 5000 is empty. *)
Lemma findByRoom_before_examples :
  (Message.id <$>
     default [] (match (roomHistory.findByRoom "general" 50 (Some 6000%Z)
                          (store withReply)).1
                 with Ok l => Some l | Throw _ => None end)) = ["m1"]
  ∧ (roomHistory.findByRoom "general" 50 (Some 5000%Z) (store withReply)).1
    = Ok [].
Proof. vm_compute. split; reflexivity. Qed.
